(** * PlasmaPy formulary: basic plasma parameters

    A shallow embedding of [plasmapy/formulary/parameters.py].

    - Numbers are IEEE binary64 values (Rocq's primitive [float]), which is
      what Python's [float] and NumPy's [float64] are.  Quantities are held
      in the SI unit their annotation declares, so a unit conversion is the
      identity on the magnitude.
    - A Python call is a computation over a [world]: it returns a value or
      raises, may append to the warning log, and may allocate or overwrite
      array objects.
    - [plasmapy.atomic], [astropy.constants] and [plasmapy.utils.decorators]
      are not in this file.  The first two are section variables; the
      decorators are modelled from the specification.
    - Array-valued quantities are modelled where the source branches on them
      ([gyroradius], [thermal_speed], the relativistic guard); the remaining
      quantities are scalars.
    - Embedded: [_grab_charge], [mass_density], [Alfven_speed],
      [ion_sound_speed], [thermal_speed], [kappa_thermal_speed],
      [gyrofrequency], [gyroradius], [plasma_frequency], [Debye_length],
      [lower_hybrid_frequency], [thermal_pressure], [magnetic_pressure],
      [magnetic_energy_density] and [upper_hybrid_frequency]. *)

From Stdlib Require Import ZArith Bool List String Floats Lia.
Import ListNotations.

Set Warnings "-inexact-float".
Local Open Scope string_scope.

(** ** Exceptions, warnings and outcomes *)

Inductive exn : Type :=
| ValueError (msg : string)
| TypeError (msg : string)
| IndexError (msg : string)
| PhysicsError (msg : string)
| RelativityError
| InvalidParticleError (msg : string)
| OverflowError (msg : string)
| NegativeValueError
| InvalidValueError
| MissingParameterError.

Inductive warning : Type :=
| PhysicsWarning (msg : string)
| RelativityWarning
| ImplicitUnitConversionWarning.

Inductive outcome (A : Type) : Type :=
| Ok (a : A)
| Raise (e : exn).
Arguments Ok {A} a.
Arguments Raise {A} e.

(** ** The world: array objects and the warning log

    [cells w l] is the content of the array object at address [l]; addresses
    below [next w] are allocated.  [warned w] is the log of warnings, oldest
    first. *)

Record world : Type := mkWorld {
  cells : nat -> list float;
  next : nat;
  warned : list warning
}.

Definition emit (ws : list warning) (w : world) : world :=
  mkWorld (cells w) (next w) (warned w ++ ws)%list.

Definition M (A : Type) : Type := world -> outcome A * world.

Definition ret {A} (a : A) : M A := fun w => (Ok a, w).

Definition raise {A} (e : exn) : M A := fun w => (Raise e, w).

Definition lift {A} (o : outcome A) : M A := fun w => (o, w).

Definition bind {A B} (m : M A) (k : A -> M B) : M B :=
  fun w =>
    match m w with
    | (Ok a, w') => k a w'
    | (Raise e, w') => (Raise e, w')
    end.

Declare Scope py_scope.
Delimit Scope py_scope with py.
Notation "x <- m ;; k" := (bind m (fun x => k))
  (at level 61, m at next level, right associativity) : py_scope.
Notation "m ;;; k" := (bind m (fun _ => k))
  (at level 61, right associativity) : py_scope.
Local Open Scope py_scope.

(** [warnings.warn(msg, category)] *)
Definition warn (x : warning) : M unit := fun w => (Ok tt, emit [x] w).

(** [try: m  except Exception: h] *)
Definition try_except {A} (m : M A) (h : exn -> M A) : M A :=
  fun w =>
    match m w with
    | (Ok a, w') => (Ok a, w')
    | (Raise e, w') => h e w'
    end.

(** [a.copy()]: a new array object with the same content. *)
Definition alloc (xs : list float) : M nat :=
  fun w =>
    (Ok (next w),
     mkWorld (fun l => if Nat.eqb l (next w) then xs else cells w l)
             (S (next w)) (warned w)).

Definition store (l : nat) (xs : list float) : M unit :=
  fun w =>
    (Ok tt,
     mkWorld (fun l' => if Nat.eqb l' l then xs else cells w l')
             (next w) (warned w)).

(** ** Scalars and one-dimensional arrays *)

Inductive nd (A : Type) : Type :=
| Scalar (x : A)
| Array (xs : list A).
Arguments Scalar {A} x.
Arguments Array {A} xs.

Definition nd_map {A B} (f : A -> B) (v : nd A) : nd B :=
  match v with
  | Scalar x => Scalar (f x)
  | Array xs => Array (map f xs)
  end.

(** The element at position [i]; a scalar is present at every position. *)
Definition item {A} (v : nd A) (i : nat) : option A :=
  match v with
  | Scalar x => Some x
  | Array xs => nth_error xs i
  end.

Definition nd_any (v : nd bool) : bool :=
  match v with
  | Scalar b => b
  | Array bs => existsb (fun b => b) bs
  end.

Fixpoint zip_with {A B C} (f : A -> B -> C) (xs : list A) (ys : list B) : list C :=
  match xs, ys with
  | x :: xs', y :: ys' => f x y :: zip_with f xs' ys'
  | _, _ => []
  end.

(** NumPy broadcasting of a binary ufunc over scalars and 1-d arrays: equal
    lengths pair up, a length-one array is stretched, anything else is
    NumPy's [ValueError]. *)
Definition broadcast2 {A B C} (f : A -> B -> C) (a : nd A) (b : nd B) : M (nd C) :=
  match a, b with
  | Scalar x, Scalar y => ret (Scalar (f x y))
  | Scalar x, Array ys => ret (Array (map (f x) ys))
  | Array xs, Scalar y => ret (Array (map (fun x => f x y) xs))
  | Array xs, Array ys =>
      if Nat.eqb (List.length xs) (List.length ys) then ret (Array (zip_with f xs ys))
      else match xs, ys with
           | [x], _ => ret (Array (map (f x) ys))
           | _, [y] => ret (Array (map (fun x => f x y) xs))
           | _, _ => raise (ValueError "operands could not be broadcast together")
           end
  end.

(** [np.maximum(a, b)]: the larger one, a NaN if there is one. *)
Definition np_maximum (a b : float) : float :=
  if is_nan a then a else if is_nan b then b else if (a <? b)%float then b else a.

(** Modelled from the spec: the magnitude the relativistic guard tests
    (section 4.3): [|v|] for a scalar and [np.max(np.abs(v))] for an array
    with elements.  No magnitude is below zero, so the fold with
    [np.maximum] may start from zero.  [np.max] of an array without
    elements raises: [check_relativistic] does so before it comes here. *)
Definition max_magnitude (v : nd float) : float :=
  match v with
  | Scalar x => abs x
  | Array xs => fold_left np_maximum (map abs xs) zero
  end.

(** [a[mask]] *)
Fixpoint select {A} (xs : list A) (mask : list bool) : list A :=
  match xs, mask with
  | x :: xs', b :: mask' => if b then x :: select xs' mask' else select xs' mask'
  | _, _ => []
  end.

(** [a[mask] = vals], on the content of [a]. *)
Fixpoint masked_assign {A} (xs : list A) (mask : list bool) (vals : list A) : list A :=
  match xs, mask with
  | x :: xs', true :: mask' =>
      match vals with
      | v :: vals' => v :: masked_assign xs' mask' vals'
      | [] => x :: masked_assign xs' mask' []
      end
  | x :: xs', false :: mask' => x :: masked_assign xs' mask' vals
  | _, _ => xs
  end.

Definition count_true (mask : list bool) : nat :=
  List.length (filter (fun b => b) mask).

(** [a[mask] = vals] on the array object at [l]: the mask must have the
    length of the array, and [vals] one value per selected place (NumPy's
    stretching of a single value is written out by the caller). *)
Definition setitem_mask (l : nat) (mask : list bool) (vals : list float) : M unit :=
  fun w =>
    if negb (Nat.eqb (List.length mask) (List.length (cells w l))) then
      (Raise (IndexError "boolean index did not match indexed array"), w)
    else if negb (Nat.eqb (count_true mask) (List.length vals)) then
      (Raise (ValueError "cannot assign input values to the masked output values"), w)
    else store l (masked_assign (cells w l) mask vals) w.

(** ** Python numbers and objects

    [z_mean], the adiabatic indices and the charge are untyped in the source:
    an [int], a [float], or some other object on which arithmetic fails. *)

Inductive pyval : Type :=
| PyInt (z : Z)
| PyFloat (f : float)
| PyObj (repr : string).

(** The binary64 value nearest to [z], ties to even; an infinity when [z]
    is out of range. *)
Definition Z2float (z : Z) : float :=
  SF2Prim (binary_normalize prec emax z 0 false).

(** An [int] meeting a [float] in arithmetic is converted as by [float(z)]:
    to the nearest binary64 value, and with [OverflowError] when that would
    be an infinity. *)
Definition int_to_float (z : Z) : M float :=
  if is_infinity (Z2float z) then
    raise (OverflowError "int too large to convert to float")
  else ret (Z2float z).

(** A number as the magnitude of a quantity *)
Definition to_float (v : pyval) : M float :=
  match v with
  | PyInt z => int_to_float z
  | PyFloat f => ret f
  | PyObj r => raise (TypeError ("unsupported operand type: " ++ r))
  end.

(** The builtin [abs(v)]: exact on an [int] of any size. *)
Definition py_abs (v : pyval) : M pyval :=
  match v with
  | PyInt z => ret (PyInt (Z.abs z))
  | PyFloat f => ret (PyFloat (abs f))
  | PyObj r => raise (TypeError ("bad operand type for abs(): " ++ r))
  end.

(** The least [int64] *)
Definition int64_min : Z := (- 2 ^ 63)%Z.

(** [np.abs(v)]: NumPy takes an [int] that fits [int64] as an [int64], whose
    absolute value wraps around at the least [int64]; a larger [int] is
    taken as a [uint64] or as an object, on which the absolute value is
    exact. *)
Definition np_abs (v : pyval) : M pyval :=
  match v with
  | PyInt z => ret (PyInt (if (z =? int64_min)%Z then int64_min else Z.abs z))
  | PyFloat f => ret (PyFloat (abs f))
  | PyObj r => raise (TypeError ("bad operand type for abs(): " ++ r))
  end.

(** [a * b] on numbers *)
Definition py_mul (a b : pyval) : M pyval :=
  match a, b with
  | PyInt x, PyInt y => ret (PyInt (x * y))
  | PyInt x, PyFloat y => xf <- int_to_float x ;; ret (PyFloat (xf * y))
  | PyFloat x, PyInt y => yf <- int_to_float y ;; ret (PyFloat (x * yf))
  | PyFloat x, PyFloat y => ret (PyFloat (x * y))
  | PyObj r, _ => raise (TypeError ("unsupported operand type: " ++ r))
  | _, PyObj r => raise (TypeError ("unsupported operand type: " ++ r))
  end.

(** [isinstance(v, (numbers.Real, numbers.Integral))] *)
Definition is_real (v : pyval) : bool :=
  match v with
  | PyInt _ | PyFloat _ => true
  | PyObj _ => false
  end.

(** [v < 1] for a real [v] *)
Definition lt_one (v : pyval) : bool :=
  match v with
  | PyInt z => (z <? 1)%Z
  | PyFloat f => (f <? 1)%float
  | PyObj _ => false
  end.

(** ** Constants fixed by the SI *)

(** [astropy.constants.si.c], exact. *)
Definition c : float := 299792458%float.

(** [np.pi] *)
Definition pi : float := 0x1.921fb54442d18p+1%float.

(** ** Quantity validation *)

(** The per-parameter settings a [validate_quantities] decoration passes. *)
Record checks : Type := mkChecks {
  can_be_negative : bool;
  can_be_nan : bool;
  none_shall_pass : bool
}.

Definition with_negative (b : bool) (ck : checks) : checks :=
  mkChecks b (can_be_nan ck) (none_shall_pass ck).

Definition with_nan (b : bool) (ck : checks) : checks :=
  mkChecks (can_be_negative ck) b (none_shall_pass ck).

Definition with_none (b : bool) (ck : checks) : checks :=
  mkChecks (can_be_negative ck) (can_be_nan ck) b.

(** Modelled from the spec: [plasmapy.utils.decorators.validate_quantities]
    is not in this file.  Section 4.1: a negative element fails with
    [NegativeValueError] unless negatives are allowed, a NaN element fails
    with [InvalidValueError] unless NaN is allowed.  Units are already the
    declared ones. *)
Definition check_value (ck : checks) (v : nd float) : M unit :=
  if negb (can_be_negative ck) && nd_any (nd_map (fun x => x <? 0)%float v) then
    raise NegativeValueError
  else if negb (can_be_nan ck) && nd_any (nd_map is_nan v) then
    raise InvalidValueError
  else ret tt.

(** [validate_quantities] on a value whose unit is not of the declared
    physical type and is turned into the declared unit by a declared
    equivalency (the return value of [gyroradius], in m / rad, into m by
    [u.dimensionless_angles()]).  The validator is not in this file and
    the spec does not describe this step: it converts, and warns with
    [ImplicitUnitConversionWarning], before it checks the value. *)
Definition convert_by_equivalency : M unit := warn ImplicitUnitConversionWarning.

(** Modelled from the spec: the same validator on a parameter that may be
    absent.  Section 4.1: an absent parameter fails with
    [MissingParameterError] unless [none_shall_pass] is set. *)
Definition check_optional (ck : checks) (o : option float) : M unit :=
  match o with
  | None => if none_shall_pass ck then ret tt else raise MissingParameterError
  | Some x => check_value ck (Scalar x)
  end.

(** Modelled from the spec: [plasmapy.utils.decorators.check_relativistic]
    is not in this file.  Section 4.3: with [v] the raw result, [|v| >= c]
    fails with [RelativityError]; otherwise [|v| >= 0.05 c] warns with
    [RelativityWarning] and returns [v]; otherwise [v] is returned.  An
    array is tested by its maximum magnitude; an array without elements
    has none, and NumPy's [max] of it raises [ValueError]. *)
Definition check_relativistic (f : M (nd float)) : M (nd float) :=
  v <- f ;;
  match v with
  | Array [] =>
      raise (ValueError ("zero-size array to reduction operation maximum "
                         ++ "which has no identity"))
  | _ =>
      let beta := max_magnitude v in
      if (c <=? beta)%float then raise RelativityError
      else if (0.05 * c <=? beta)%float then warn RelativityWarning ;;; ret v
      else ret v
  end.

(** Modelled from the spec: [plasmapy.utils.decorators.angular_freq_to_hz]
    is not in this file.  Section 4.4: when the ordinary frequency is
    requested the angular frequency is divided by [2 pi], otherwise it is
    passed through. *)
Definition angular_freq_to_hz (to_hz : bool) (f : M float) : M float :=
  omega <- f ;;
  ret (if to_hz then (omega / (2 * pi))%float else omega).

(** ** Arguments of [mass_density] and [gyroradius] *)

(** The two units [density] may be given in:
    [[u.m ** -3, u.kg / (u.m ** 3)]]. *)
Inductive density_unit : Type :=
| per_m3
| kg_per_m3.

Record density_quantity : Type := mkDensity {
  value : float;
  units : density_unit
}.

(** [unit.is_equivalent(u.kg / u.m ** 3)] *)
Definition is_mass_density (u : density_unit) : bool :=
  match u with
  | kg_per_m3 => true
  | per_m3 => false
  end.

(** A quantity passed to [gyroradius]: a scalar, or a reference to an array
    object of the caller. *)
Inductive qarg : Type :=
| QScalar (x : float)
| QArray (l : nat).

(** The value behind a quantity in world [w]. *)
Definition deref (w : world) (q : qarg) : nd float :=
  match q with
  | QScalar x => Scalar x
  | QArray l => Array (cells w l)
  end.

Definition load (q : qarg) : M (nd float) :=
  fun w => (Ok (deref w q), w).

Definition contents {A} (v : nd A) : list A :=
  match v with
  | Scalar x => [x]
  | Array xs => xs
  end.

(** [q.copy()] *)
Definition copy_array (q : qarg) : M nat :=
  v <- load q ;;
  alloc (contents v).

(** A computation keeps the arrays below [n]: run in a world whose
    locations below [n] are allocated, it leaves their content as it was,
    whether it returns or raises, and gives none of them up. *)
Definition keeps_below {A} (n : nat) (m : M A) : Prop :=
  forall (w w' : world) (r : outcome A),
    n <= next w -> m w = (r, w') ->
    n <= next w' /\ forall l, l < n -> cells w' l = cells w l.

(** [str(particle)] inside an f-string; [particle] may be [None]. *)
Definition str_particle (particle : option string) : string :=
  match particle with
  | None => "None"
  | Some s => s
  end.

(** ** A concrete environment: CODATA 2014 and a small particle table

    Used to run the formulas on concrete inputs. *)
Module SI.
Definition k_B : float := 1.38064852e-23%float.
Definition e : float := 1.6021766208e-19%float.
Definition eps0 : float := 8.854187817620389e-12%float.
Definition m_e : float := 9.10938356e-31%float.
Definition m_p : float := 1.672621898e-27%float.
Definition mu0 : float := 1.2566370614359173e-06%float.
Definition m_deuteron : float := 3.343583719e-27%float.

Definition particle_mass (particle : string) : outcome float :=
  if String.eqb particle "e-" then Ok m_e
  else if String.eqb particle "p" || String.eqb particle "p+" then Ok m_p
  else if String.eqb particle "D+" then Ok m_deuteron
  else if String.eqb particle "He-4" then Ok 6.6464764e-27%float
  else Raise (InvalidParticleError particle).

Definition integer_charge (particle : string) : outcome Z :=
  if String.eqb particle "e-" then Ok (-1)%Z
  else if String.eqb particle "p" || String.eqb particle "p+" then Ok 1%Z
  else if String.eqb particle "D+" then Ok 1%Z
  else Raise (InvalidParticleError particle).

Definition Particle (particle : string) : outcome unit :=
  match particle_mass particle with
  | Ok _ => Ok tt
  | Raise ex => Raise ex
  end.

(** A stand-in for C's [pow] at the three exponents the formulary uses. *)
Definition pow (x y : float) : float :=
  if (y =? -1)%float then (1 / x)%float
  else if (y =? -2)%float then (1 / (x * x))%float
  else if (y =? -0.5)%float then (1 / sqrt x)%float
  else nan.

(** A placeholder for [str] of a float. *)
Definition format_float (x : float) : string := "<float>".

(** Permissive defaults: negative values and NaN are allowed, an absent
    value is not. *)
Definition default_checks : checks := mkChecks true true false.

Definition world0 : world := mkWorld (fun _ => []) 0 [].

(** Two arrays of a caller of [gyroradius]: [Vperp] at address 0, [T_i]
    at address 1. *)
Definition world_two_arrays : world :=
  mkWorld (fun l => match l with
                    | 0 => [1e6%float; nan]
                    | 1 => [nan; 1e6%float]
                    | _ => []
                    end) 2 [].

(** Two arrays of a caller who gave every speed and no temperature:
    [Vperp] at address 0, [T_i] at address 1. *)
Definition world_speeds_given : world :=
  mkWorld (fun l => match l with
                    | 0 => [1e6%float; 2e6%float]
                    | 1 => [nan; nan]
                    | _ => []
                    end) 2 [].

(** One array of a caller who gave no value: three NaN at address 0. *)
Definition world_nan_array : world :=
  mkWorld (fun l => match l with
                    | 0 => [nan; nan; nan]
                    | _ => []
                    end) 1 [].
End SI.

(** ** The formulary *)

Section Formulary.

(** [astropy.constants.si] *)
Variables k_B e eps0 m_e mu0 : float.

(** [plasmapy.atomic]: the mass and the integer charge of a particle
    descriptor, and the [Particle] constructor that [particle_input]
    applies to the argument it decorates. *)
Variable particle_mass : string -> outcome float.
Variable integer_charge : string -> outcome Z.
Variable Particle : string -> outcome unit.

(** C's [pow], behind [**] with an exponent other than 2. *)
Variable pow : float -> float -> float.

(** [str] of a float inside an f-string. *)
Variable format_float : float -> string.

(** The validator's settings for a parameter the decoration does not
    mention. *)
Variable default_checks : checks.

Definition _grab_charge (ion : string) (z_mean : option pyval) : M pyval :=
  match z_mean with
  | None =>
      (* warnings.warn("No z_mean given, defaulting to atomic charge") *)
      q <- lift (integer_charge ion) ;;
      ret (PyInt q)
  | Some z =>
      (* using average ionization provided by user *)
      ret z
  end.

Definition mass_density (density : density_quantity) (particle : option string)
    (z_mean : option pyval) : M float :=
  check_value (with_negative false default_checks) (Scalar (value density)) ;;;
  rho <- (if is_mass_density (units density) then ret (value density)
          else
            match particle with
            | Some p =>
                if String.eqb p "" then
                  raise (ValueError ("If passing a number density, you must pass a particle (not "
                                     ++ str_particle particle
                                     ++ ") to calculate the mass density!"))
                else
                  m_i <- lift (particle_mass p) ;;
                  q <- _grab_charge p z_mean ;;
                  qf <- to_float q ;;
                  ret (value density * m_i + qf * value density * m_e)%float
            | None =>
                raise (ValueError ("If passing a number density, you must pass a particle (not "
                                   ++ str_particle particle
                                   ++ ") to calculate the mass density!"))
            end) ;;
  check_value (with_negative false default_checks) (Scalar rho) ;;;
  ret rho.

(** The function under [@check_relativistic]. *)
Definition Alfven_speed_wrapped (B : float) (density : density_quantity)
    (ion : string) (z_mean : option pyval) : M (nd float) :=
  check_value default_checks (Scalar B) ;;;
  check_value (with_negative false default_checks) (Scalar (value density)) ;;;
  rho <- mass_density density (Some ion) z_mean ;;
  let V_A := (abs B / sqrt (mu0 * rho))%float in
  check_value default_checks (Scalar V_A) ;;;
  ret (Scalar V_A).

Definition Alfven_speed (B : float) (density : density_quantity)
    (ion : string) (z_mean : option pyval) : M (nd float) :=
  check_relativistic (Alfven_speed_wrapped B density ion z_mean).

Definition Debye_length (T_e n_e : float) : M float :=
  check_value (with_negative false default_checks) (Scalar T_e) ;;;
  check_value (with_negative false default_checks) (Scalar n_e) ;;;
  let lambda_D := sqrt (eps0 * k_B * T_e / (n_e * (e * e)))%float in
  check_value default_checks (Scalar lambda_D) ;;;
  ret lambda_D.

(** One round of the loop over [gamma_e] and [gamma_i]. *)
Definition check_gamma (gamma : pyval) (particles : string) : M unit :=
  if negb (is_real gamma) then
    raise (TypeError ("The adiabatic index gamma for " ++ particles
                      ++ " must be a float or int"))
  else if lt_one gamma then
    raise (PhysicsError ("The adiabatic index for " ++ particles
                         ++ " must be between one and infinity"))
  else ret tt.

(** The body of the [try] block of [ion_sound_speed]. *)
Definition V_S_expr (gamma_e q : pyval) (T_e : float) (gamma_i : pyval)
    (T_i m_i klD2 : float) : M float :=
  gq <- py_mul gamma_e q ;;
  a <- to_float gq ;;
  b <- to_float gamma_i ;;
  let V_S_squared :=
    ((a * k_B * T_e + b * k_B * T_i) / (m_i * (1 + klD2)))%float in
  ret (sqrt V_S_squared).

(** The [try] block with its handler. *)
Definition V_S_step (gamma_e q : pyval) (T_e : float) (gamma_i : pyval)
    (T_i m_i klD2 : float) : M float :=
  try_except (V_S_expr gamma_e q T_e gamma_i T_i m_i klD2)
             (fun _ => raise (ValueError "Unable to find ion sound speed.")).

(** The choice of [klD2]; [x ** 2] is the correctly rounded square
    [x * x]. *)
Definition dispersion (T_e : float) (n_e k : option float) : M float :=
  match n_e, k with
  | None, None => ret 0%float
  | Some _, None | None, Some _ =>
      warn (PhysicsWarning
              ("The non-dispersive limit has been assumed for "
               ++ "this calculation. To prevent this, values must "
               ++ "be specified for both n_e and k.")) ;;;
      ret 0%float
  | Some n, Some kk =>
      lambda_D <- Debye_length T_e n ;;
      ret ((kk * lambda_D) * (kk * lambda_D))%float
  end.

Definition ion_sound_speed_wrapped (T_e T_i : float) (n_e k : option float)
    (gamma_e gamma_i : pyval) (ion : string) (z_mean : option pyval)
    : M (nd float) :=
  check_value (with_negative false default_checks) (Scalar T_e) ;;;
  check_value (with_negative false default_checks) (Scalar T_i) ;;;
  check_optional (with_none true (with_negative false default_checks)) n_e ;;;
  check_optional (with_none true (with_negative false default_checks)) k ;;;
  m_i <- lift (particle_mass ion) ;;
  q <- _grab_charge ion z_mean ;;
  check_gamma gamma_e "electrons" ;;;
  check_gamma gamma_i "ions" ;;;
  klD2 <- dispersion T_e n_e k ;;
  V_S <- V_S_step gamma_e q T_e gamma_i T_i m_i klD2 ;;
  check_value default_checks (Scalar V_S) ;;;
  ret (Scalar V_S).

Definition ion_sound_speed (T_e T_i : float) (n_e k : option float)
    (gamma_e gamma_i : pyval) (ion : string) (z_mean : option pyval)
    : M (nd float) :=
  check_relativistic
    (ion_sound_speed_wrapped T_e T_i n_e k gamma_e gamma_i ion z_mean).

(** The choice of [V] by [method] in [thermal_speed], as per
    https://en.wikipedia.org/wiki/Thermal_velocity *)
Definition V_by_method (method : string) (T : nd float) (m : float) : M (nd float) :=
  if String.eqb method "most_probable" then
    ret (nd_map (fun t => sqrt (2 * k_B * t / m))%float T)
  else if String.eqb method "rms" then
    ret (nd_map (fun t => sqrt (3 * k_B * t / m))%float T)
  else if String.eqb method "mean_magnitude" then
    ret (nd_map (fun t => sqrt (8 * k_B * t / (m * pi)))%float T)
  else
    raise (ValueError "Method {method} not supported in thermal_speed").

(** The function under [@check_relativistic]: validation, then
    [particle_input], then the body. *)
Definition thermal_speed_wrapped (T : nd float) (particle method : string)
    (mass : float) : M (nd float) :=
  check_value (with_negative false default_checks) T ;;;
  check_value (with_nan true (with_negative false default_checks)) (Scalar mass) ;;;
  lift (Particle particle) ;;;
  m <- (if is_finite mass then ret mass else lift (particle_mass particle)) ;;
  V <- V_by_method method T m ;;
  check_value default_checks V ;;;
  ret V.

Definition thermal_speed (T : nd float) (particle method : string)
    (mass : float) : M (nd float) :=
  check_relativistic (thermal_speed_wrapped T particle method mass).

Definition kappa_thermal_speed_wrapped (T : nd float) (kappa : float)
    (particle method : string) : M (nd float) :=
  check_value (with_negative false default_checks) T ;;;
  (if (kappa <=? 3 / 2)%float then
     raise (ValueError ("Must have kappa > 3/2, instead of " ++ format_float kappa
                        ++ ", for kappa distribution function to be valid."))
   else ret tt) ;;;
  vTh <- thermal_speed T particle method nan ;;
  let coeff :=
    if String.eqb method "most_probable" then sqrt ((kappa - 3 / 2) / kappa)%float
    else 1%float in
  let V := nd_map (fun v => v * coeff)%float vTh in
  check_value default_checks V ;;;
  ret V.

Definition kappa_thermal_speed (T : nd float) (kappa : float)
    (particle method : string) : M (nd float) :=
  check_relativistic (kappa_thermal_speed_wrapped T kappa particle method).

Definition gyrofrequency (B : float) (particle : string) (signed : bool)
    (Z : option pyval) (to_hz : bool) : M float :=
  check_value default_checks (Scalar B) ;;;
  omega_ci <- angular_freq_to_hz to_hz
    (m_i <- lift (particle_mass particle) ;;
     q <- _grab_charge particle Z ;;
     q <- (if negb signed then py_abs q else ret q) ;;
     qf <- to_float q ;;
     ret (qf * e * abs B / m_i)%float) ;;
  check_value default_checks (Scalar omega_ci) ;;;
  ret omega_ci.

(** check 1 of [gyroradius]: ensure either Vperp or T_i invalid, keeping
    in mind that the underlying values may be arrays. *)
Definition check_1 (isfinite_Vperp isfinite_Ti : nd bool) : M unit :=
  x <- broadcast2 xorb isfinite_Vperp isfinite_Ti ;;
  if nd_any (nd_map negb x) then
    raise (ValueError "Must give Vperp or T_i, but not both, as arguments to gyroradius")
  else ret tt.

Definition gyroradius (B : float) (particle : string) (Vperp T_i : qarg)
    : M (nd float) :=
  vV <- load Vperp ;;
  vT <- load T_i ;;
  check_value default_checks (Scalar B) ;;;
  check_value (with_nan true default_checks) vV ;;;
  check_value (with_nan true default_checks) vT ;;;
  let isfinite_Ti := nd_map is_finite vT in
  let isfinite_Vperp := nd_map is_finite vV in
  check_1 isfinite_Vperp isfinite_Ti ;;;
  (* check 2: get Vperp as the thermal speed if is not already a valid input *)
  Vp <- match vV, vT with
        | Scalar v, Scalar t =>
            if is_finite t then thermal_speed vT particle "most_probable" nan
            else ret vV
        | Scalar v, Array ts =>
            if is_finite v then ret (Array (repeat v (List.length ts)))
            else thermal_speed vT particle "most_probable" nan
        | Array vs, Scalar t =>
            if is_finite t then
              thermal_speed (Array (repeat t (List.length vs))) particle "most_probable" nan
            else ret vV
        | Array _, Array _ =>
            (* avoid changing Vperp's value outside function *)
            copy <- copy_array Vperp ;;
            ts <- load T_i ;;
            sp <- thermal_speed (Array (select (contents ts) (contents isfinite_Ti)))
                                particle "most_probable" nan ;;
            setitem_mask copy (contents isfinite_Ti)
              (match sp with
               | Array vals => vals
               | Scalar v => repeat v (count_true (contents isfinite_Ti))
               end) ;;;
            load (QArray copy)
        end ;;
  omega_ci <- gyrofrequency B particle false None false ;;
  let r_Li := nd_map (fun v => abs v / omega_ci)%float Vp in
  (* the quotient is in m / rad and the declared return unit is m *)
  convert_by_equivalency ;;;
  check_value default_checks r_Li ;;;
  ret r_Li.

Definition plasma_frequency (n : float) (particle : string)
    (z_mean : option pyval) (to_hz : bool) : M float :=
  check_value (with_negative false default_checks) (Scalar n) ;;;
  omega_p <- angular_freq_to_hz to_hz
    (mq <- try_except
             (m <- lift (particle_mass particle) ;;
              q <- match z_mean with
                   | None =>
                       try_except (q <- lift (integer_charge particle) ;; ret (PyInt q))
                                  (fun _ => ret (PyInt 1))
                   | Some z =>
                       (* using user provided average ionization *)
                       ret z
                   end ;;
              q <- np_abs q ;;
              ret (m, q))
             (fun _ => raise (ValueError ("Invalid particle, " ++ particle
                                          ++ ", in plasma_frequency."))) ;;
     qf <- to_float (snd mq) ;;
     ret (qf * e * sqrt (n / (eps0 * fst mq)))%float) ;;
  check_value default_checks (Scalar omega_p) ;;;
  ret omega_p.

Definition lower_hybrid_frequency (B n_i : float) (ion : string)
    (to_hz : bool) : M float :=
  check_value default_checks (Scalar B) ;;;
  check_value (with_negative false default_checks) (Scalar n_i) ;;;
  omega_lh <- angular_freq_to_hz to_hz
    ((* We do not need a charge state here, so the sole intent is to
        catch invalid ions. *)
     try_except (lift (integer_charge ion) ;;; ret tt)
                (fun _ => raise (ValueError "Invalid ion in lower_hybrid_frequency.")) ;;;
     omega_ci <- gyrofrequency B ion false None false ;;
     omega_pi <- plasma_frequency n_i ion None false ;;
     omega_ce <- gyrofrequency B "e-" false None false ;;
     ret (pow (pow (omega_ci * omega_ce) (-1) + pow omega_pi (-2)) (-0.5))%float) ;;
  check_value default_checks (Scalar omega_lh) ;;;
  ret omega_lh.

Definition thermal_pressure (T n : float) : M float :=
  check_value (with_negative false default_checks) (Scalar T) ;;;
  check_value (with_negative false default_checks) (Scalar n) ;;;
  let p_th := (n * k_B * T)%float in
  check_value default_checks (Scalar p_th) ;;;
  ret p_th.

Definition magnetic_pressure (B : float) : M float :=
  check_value default_checks (Scalar B) ;;;
  let p_B := ((B * B) / (2 * mu0))%float in
  check_value default_checks (Scalar p_B) ;;;
  ret p_B.

Definition magnetic_energy_density (B : float) : M float :=
  check_value default_checks (Scalar B) ;;;
  E_B <- magnetic_pressure B ;;
  check_value default_checks (Scalar E_B) ;;;
  ret E_B.

Definition upper_hybrid_frequency (B n_e : float) (to_hz : bool) : M float :=
  check_value default_checks (Scalar B) ;;;
  check_value (with_negative false default_checks) (Scalar n_e) ;;;
  omega_uh <- angular_freq_to_hz to_hz
    (omega_pe <- plasma_frequency n_e "e-" None false ;;
     omega_ce <- gyrofrequency B "e-" false None false ;;
     ret (sqrt (omega_pe * omega_pe + omega_ce * omega_ce))%float) ;;
  check_value default_checks (Scalar omega_uh) ;;;
  ret omega_uh.


(** ** Facts about binary64 comparisons and products *)

Lemma is_nan_not_finite (x : float) : is_nan x = true -> is_finite x = false.
Proof. intros H. unfold is_finite. now rewrite H. Qed.

Lemma SFcompare_antisym (x y : spec_float) :
  SFcompare y x =
  match SFcompare x y with
  | Some o => Some (CompOpp o)
  | None => None
  end.
Proof.
  destruct x as [sx|sx| |sx mx ex], y as [sy|sy| |sy my ey]; simpl; try reflexivity;
    try (destruct sx; reflexivity); try (destruct sy; reflexivity);
    try (destruct sx, sy; reflexivity).
  destruct sx, sy; simpl; try reflexivity;
    rewrite (Z.compare_antisym ex ey); destruct (ex ?= ey)%Z; simpl; try reflexivity;
    rewrite (ZC4 my mx); now rewrite ?CompOpp_involutive.
Qed.

Lemma ltb_leb_false (x y : float) :
  (x <? y)%float = true -> (y <=? x)%float = false.
Proof.
  rewrite ltb_spec, leb_spec. unfold SFltb, SFleb.
  rewrite (SFcompare_antisym (Prim2SF x) (Prim2SF y)).
  destruct (SFcompare (Prim2SF x) (Prim2SF y)) as [[]|]; simpl; congruence.
Qed.

Lemma is_finite_SF (x : float) :
  is_finite x = true ->
  (exists s, Prim2SF x = S754_zero s) \/
  (exists s m ex, Prim2SF x = S754_finite s m ex).
Proof.
  unfold is_finite, is_nan, is_infinity. rewrite !eqb_spec, abs_spec.
  destruct (Prim2SF x) as [s|s| |s m ex] eqn:E; simpl.
  - intros _. left. now exists s.
  - replace (Prim2SF infinity) with (S754_infinity false) by (vm_compute; reflexivity).
    destruct s; vm_compute; discriminate.
  - vm_compute. discriminate.
  - intros _. right. now exists s, m, ex.
Qed.

Lemma Prim2SF_zero : Prim2SF 0%float = S754_zero false.
Proof. vm_compute. reflexivity. Qed.

(** [(0 * l) ** 2] is [+0] for every finite [l], whatever its sign. *)
Lemma mul_zero_finite_sq (l : float) :
  is_finite l = true -> ((0 * l) * (0 * l))%float = 0%float.
Proof.
  intros H. apply Prim2SF_inj. rewrite !mul_spec, Prim2SF_zero.
  unfold SF64mul.
  destruct (is_finite_SF l H) as [[s E]|(s & m & ex & E)]; rewrite E; unfold SFmul;
    destruct s; reflexivity.
Qed.

Lemma Prim2SF_c : Prim2SF c = S754_finite false 5029682823036928 (-24).
Proof. vm_compute. reflexivity. Qed.

Lemma Prim2SF_warn :
  Prim2SF (0.05 * c)%float = S754_finite false 8047492516859085 (-29).
Proof. vm_compute. reflexivity. Qed.

Lemma below_warning_below_c (x : float) :
  (x <? 0.05 * c)%float = true -> (x <? c)%float = true.
Proof.
  rewrite !ltb_spec, Prim2SF_c, Prim2SF_warn.
  unfold SFltb, SFcompare.
  destruct (Prim2SF x) as [s|s| |s m ex]; try discriminate; try reflexivity.
  - destruct s; [reflexivity|discriminate].
  - destruct s; [reflexivity|].
    destruct (Z.compare_spec ex (-29)) as [->|Hlt|Hgt].
    + reflexivity.
    + intros _. assert ((ex ?= -24)%Z = Lt) as -> by (apply Z.compare_lt_iff; lia).
      reflexivity.
    + discriminate.
Qed.

(** The order of binary64 values *)










(** ** The magnitude of an array, by its elements *)





Lemma item_In {A} (v : nd A) (x : A) :
  (exists i, item v i = Some x) <-> In x (contents v).
Proof.
  destruct v as [y|ys]; simpl.
  - split; [intros [_ [= ->]]; now left|intros [->|[]]; now exists 0].
  - split; [intros [i Hi]; exact (nth_error_In _ _ Hi)|apply In_nth_error].
Qed.



(** ** Stepping through a computation *)

Lemma bind_ok {A B} (m : M A) (k : A -> M B) (w w' : world) (a : A) :
  m w = (Ok a, w') -> bind m k w = k a w'.
Proof. intros H. unfold bind. now rewrite H. Qed.

Lemma bind_raise {A B} (m : M A) (k : A -> M B) (w w' : world) (ex : exn) :
  m w = (Raise ex, w') -> bind m k w = (Raise ex, w').
Proof. intros H. unfold bind. now rewrite H. Qed.

Lemma bind_inv {A B} (m : M A) (k : A -> M B) (w w' : world) (b : B) :
  bind m k w = (Ok b, w') ->
  exists a w1, m w = (Ok a, w1) /\ k a w1 = (Ok b, w').
Proof.
  unfold bind. destruct (m w) as [[a|ex] w1]; [|discriminate].
  intros H. now exists a, w1.
Qed.

(** The validator never touches the world. *)
Lemma check_value_world (ck : checks) (v : nd float) (w : world) :
  snd (check_value ck v w) = w.
Proof.
  unfold check_value.
  destruct (negb (can_be_negative ck) && _); [reflexivity|].
  destruct (negb (can_be_nan ck) && _); reflexivity.
Qed.

Lemma check_value_ok_any (ck : checks) (v : nd float) (w w1 w2 : world) :
  check_value ck v w = (Ok tt, w1) -> check_value ck v w2 = (Ok tt, w2).
Proof.
  unfold check_value.
  destruct (negb (can_be_negative ck) && _); [discriminate|].
  destruct (negb (can_be_nan ck) && _); [discriminate|]. reflexivity.
Qed.

Lemma check_value_ok_inv (ck : checks) (v : nd float) (w w' : world) (u : unit) :
  check_value ck v w = (Ok u, w') -> w' = w /\ u = tt.
Proof.
  intros H. pose proof (check_value_world ck v w) as Hw. rewrite H in Hw.
  simpl in Hw. now destruct u.
Qed.

(** ** The charge merge *)

(** C1: for every particle descriptor and every provided [z_mean]
    (an [int] or a [float] of any sign, or any other object),
    [_grab_charge] returns exactly [z_mean] and never consults the
    particle; when [z_mean] is absent it returns the particle's resolved
    integer charge, and raises what the resolution raises. *)
Theorem grab_charge_precedence :
  forall (ion : string) (w : world),
    (forall z_mean : pyval, _grab_charge ion (Some z_mean) w = (Ok z_mean, w)) /\
    _grab_charge ion None w =
      match integer_charge ion with
      | Ok q => (Ok (PyInt q), w)
      | Raise ex => (Raise ex, w)
      end.
Proof.
  intros ion w. split; [reflexivity|].
  unfold _grab_charge, bind, lift, ret.
  destruct (integer_charge ion); reflexivity.
Qed.

(** ** Plasma frequency *)

Lemma Z2float_one : Z2float 1 = 1%float.
Proof. vm_compute. reflexivity. Qed.




(** ** Gyroradius: exactly one of [Vperp] and [T_i] *)

Lemma item_nd_map {A B} (f : A -> B) (v : nd A) (i : nat) :
  item (nd_map f v) i = option_map f (item v i).
Proof. destruct v as [x|xs]; simpl; [reflexivity|]. apply nth_error_map. Qed.

Lemma any_negb_map_hit (f : bool -> bool) (ys : list bool) (i : nat) (y : bool) :
  nth_error ys i = Some y -> f y = false ->
  existsb (fun b => b) (map negb (map f ys)) = true.
Proof.
  revert i. induction ys as [|y0 ys IH]; intros [|i] Hi Hf; simpl in *; try discriminate.
  - injection Hi as ->. now rewrite Hf.
  - rewrite (IH i Hi Hf). apply orb_true_r.
Qed.

Lemma any_negb_map_miss (f : bool -> bool) (ys : list bool) :
  existsb (fun b => b) (map negb (map f ys)) = false ->
  forall i y, nth_error ys i = Some y -> f y = true.
Proof.
  induction ys as [|y0 ys IH]; intros H [|i] y Hi; simpl in *; try discriminate;
    apply orb_false_iff in H; destruct H as [H0 H1].
  - injection Hi as <-. now apply negb_false_iff.
  - now apply (IH H1 i).
Qed.

Lemma any_negb_zip_hit (xs ys : list bool) (i : nat) (x y : bool) :
  nth_error xs i = Some x -> nth_error ys i = Some y -> xorb x y = false ->
  existsb (fun b => b) (map negb (zip_with xorb xs ys)) = true.
Proof.
  revert ys i. induction xs as [|x0 xs IH]; intros [|y0 ys] [|i] Hx Hy Hf;
    simpl in *; try discriminate.
  - injection Hx as ->. injection Hy as ->. now rewrite Hf.
  - rewrite (IH ys i Hx Hy Hf). apply orb_true_r.
Qed.

Lemma any_negb_zip_miss (xs ys : list bool) :
  existsb (fun b => b) (map negb (zip_with xorb xs ys)) = false ->
  forall i x y, nth_error xs i = Some x -> nth_error ys i = Some y -> xorb x y = true.
Proof.
  revert ys. induction xs as [|x0 xs IH]; intros [|y0 ys] H [|i] x y Hx Hy;
    simpl in *; try discriminate;
    apply orb_false_iff in H; destruct H as [H0 H1].
  - injection Hx as <-. injection Hy as <-. now apply negb_false_iff.
  - now apply (IH ys H1 i).
Qed.

Lemma nth_error_singleton {A} (x y : A) (i : nat) :
  nth_error [x] i = Some y -> i = 0 /\ y = x.
Proof. destruct i as [|[|i]]; simpl; intros H; try discriminate. now injection H as <-. Qed.

(** check 1 raises as soon as one position has both or neither finite. *)
Lemma check_1_raises (a b : nd bool) (w : world) :
  (exists i x y, item a i = Some x /\ item b i = Some y /\ xorb x y = false) ->
  exists msg, check_1 a b w = (Raise (ValueError msg), w).
Proof.
  intros (i & x & y & Ha & Hb & Hxy). unfold check_1, bind.
  destruct a as [x0|xs], b as [y0|ys]; simpl in Ha, Hb.
  - injection Ha as ->. injection Hb as ->. simpl. rewrite Hxy. simpl.
    eexists. reflexivity.
  - injection Ha as ->. simpl.
    rewrite (any_negb_map_hit (xorb x) ys i y Hb Hxy). eexists. reflexivity.
  - injection Hb as ->. simpl.
    rewrite (any_negb_map_hit (fun x => xorb x y) xs i x Ha Hxy). eexists. reflexivity.
  - unfold broadcast2.
    destruct (Nat.eqb (List.length xs) (List.length ys)).
    + simpl. rewrite (any_negb_zip_hit xs ys i x y Ha Hb Hxy). eexists. reflexivity.
    + destruct xs as [|x1 [|x2 xs]].
      * destruct i; discriminate.
      * apply nth_error_singleton in Ha. destruct Ha as [-> ->].
        simpl. rewrite (any_negb_map_hit (xorb x1) ys 0 y Hb Hxy). eexists. reflexivity.
      * destruct ys as [|y1 [|y2 ys]].
        -- destruct i; discriminate.
        -- apply nth_error_singleton in Hb. destruct Hb as [-> ->].
           unfold ret, nd_map, nd_any.
           rewrite (any_negb_map_hit (fun x => xorb x y1) (x1 :: x2 :: xs) 0 x Ha Hxy).
           eexists. reflexivity.
        -- simpl. eexists. reflexivity.
Qed.

(** check 1 passes only when every position has exactly one finite. *)
Lemma check_1_ok (a b : nd bool) (w w' : world) (u : unit) :
  check_1 a b w = (Ok u, w') ->
  w' = w /\
  forall i x y, item a i = Some x -> item b i = Some y -> xorb x y = true.
Proof.
  unfold check_1, bind.
  destruct a as [x0|xs], b as [y0|ys]; simpl.
  - destruct (negb (xorb x0 y0)) eqn:E; simpl; [discriminate|].
    intros H. injection H as _ <-. split; [reflexivity|].
    intros i x y [= <-] [= <-]. now apply negb_false_iff.
  - destruct (existsb _ _) eqn:E; simpl; [discriminate|].
    intros H. injection H as _ <-. split; [reflexivity|].
    intros i x y [= <-] Hy. exact (any_negb_map_miss (xorb x0) ys E i y Hy).
  - destruct (existsb _ _) eqn:E; simpl; [discriminate|].
    intros H. injection H as _ <-. split; [reflexivity|].
    intros i x y Hx [= <-].
    exact (any_negb_map_miss (fun x => xorb x y0) xs E i x Hx).
  - destruct (Nat.eqb (List.length xs) (List.length ys)).
    + simpl. destruct (existsb _ _) eqn:E; simpl; [discriminate|].
      intros H. injection H as _ <-. split; [reflexivity|].
      exact (any_negb_zip_miss xs ys E).
    + destruct xs as [|x1 [|x2 xs]].
      * destruct ys as [|y1 [|y2 ys]]; simpl; try discriminate;
          intros H; injection H as _ <-; (split; [reflexivity|]);
          intros [|i] x y Hx Hy; discriminate.
      * simpl. destruct (existsb _ _) eqn:E; simpl; [discriminate|].
        intros H. injection H as _ <-. split; [reflexivity|].
        intros i x y Hx Hy. apply nth_error_singleton in Hx. destruct Hx as [-> ->].
        exact (any_negb_map_miss (xorb x1) ys E 0 y Hy).
      * destruct ys as [|y1 [|y2 ys]]; try discriminate.
        unfold ret, nd_map, nd_any.
        destruct (existsb _ _) eqn:E; simpl; [discriminate|].
        intros H. injection H as _ <-. split; [reflexivity|].
        intros i x y Hx Hy. apply nth_error_singleton in Hy. destruct Hy as [-> ->].
        exact (any_negb_map_miss (fun x => xorb x y1) (x1 :: x2 :: xs) E 0 x Hx).
Qed.

Lemma both_or_neither_finite (v t : float) :
  (is_finite v && is_finite t || is_nan v && is_nan t) = true ->
  xorb (is_finite v) (is_finite t) = false.
Proof.
  intros H. apply orb_true_iff in H. destruct H as [H|H];
    apply andb_true_iff in H; destruct H as [Hv Ht].
  - now rewrite Hv, Ht.
  - now rewrite (is_nan_not_finite v Hv), (is_nan_not_finite t Ht).
Qed.

(** C3: when [B], [Vperp] and [T_i] pass validation and, at some element
    position, [Vperp] and [T_i] are both finite or both NaN, [gyroradius]
    raises [ValueError] and leaves the world as it was; and whenever
    [gyroradius] returns, exactly one of [Vperp] and [T_i] is finite at
    every element position. *)
Theorem gyroradius_exclusive :
  forall (B : float) (particle : string) (Vperp T_i : qarg) (w : world),
    (check_value default_checks (Scalar B) w = (Ok tt, w) ->
     check_value (with_nan true default_checks) (deref w Vperp) w = (Ok tt, w) ->
     check_value (with_nan true default_checks) (deref w T_i) w = (Ok tt, w) ->
     (exists i v t,
        item (deref w Vperp) i = Some v /\ item (deref w T_i) i = Some t /\
        (is_finite v && is_finite t || is_nan v && is_nan t) = true) ->
     exists msg,
       gyroradius B particle Vperp T_i w = (Raise (ValueError msg), w)) /\
    (forall (r : nd float) (w' : world),
       gyroradius B particle Vperp T_i w = (Ok r, w') ->
       forall i v t,
         item (deref w Vperp) i = Some v -> item (deref w T_i) i = Some t ->
         xorb (is_finite v) (is_finite t) = true).
Proof.
  intros B particle Vperp T_i w. split.
  - intros HB HV HT (i & v & t & Hv & Ht & Hvt).
    destruct (check_1_raises (nd_map is_finite (deref w Vperp))
                (nd_map is_finite (deref w T_i)) w) as [msg Hmsg].
    { exists i, (is_finite v), (is_finite t).
      rewrite !item_nd_map, Hv, Ht. repeat split.
      now apply both_or_neither_finite. }
    exists msg. unfold gyroradius.
    rewrite (bind_ok _ _ w w (deref w Vperp)) by reflexivity.
    rewrite (bind_ok _ _ w w (deref w T_i)) by reflexivity.
    rewrite (bind_ok _ _ _ _ _ HB), (bind_ok _ _ _ _ _ HV), (bind_ok _ _ _ _ _ HT).
    now apply bind_raise.
  - intros r w' H i v t Hv Ht. unfold gyroradius in H.
    rewrite (bind_ok _ _ w w (deref w Vperp)) in H by reflexivity.
    rewrite (bind_ok _ _ w w (deref w T_i)) in H by reflexivity.
    apply bind_inv in H. destruct H as (u1 & w1 & H1 & H).
    apply check_value_ok_inv in H1. destruct H1 as [-> ->].
    apply bind_inv in H. destruct H as (u2 & w2 & H2 & H).
    apply check_value_ok_inv in H2. destruct H2 as [-> ->].
    apply bind_inv in H. destruct H as (u3 & w3 & H3 & H).
    apply check_value_ok_inv in H3. destruct H3 as [-> ->].
    apply bind_inv in H. destruct H as (u4 & w4 & H4 & H).
    apply check_1_ok in H4. destruct H4 as [-> H4].
    apply (H4 i); rewrite item_nd_map; [now rewrite Hv | now rewrite Ht].
Qed.

(** ** The relativistic guard *)

Lemma check_relativistic_ext (f g : M (nd float)) (w : world) :
  f w = g w -> check_relativistic f w = check_relativistic g w.
Proof. intros H. unfold check_relativistic, bind. now rewrite H. Qed.

Lemma emit_nil (w : world) : emit [] w = w.
Proof. destruct w as [cs n ws]. unfold emit. simpl. now rewrite app_nil_r. Qed.

(** A guarded call that returns: the computation under the guard returned
    the same value, which has elements and a magnitude below [c]. *)
Lemma check_relativistic_ok_inv (f : M (nd float)) (v : nd float) (w w' : world) :
  check_relativistic f w = (Ok v, w') ->
  exists w0, f w = (Ok v, w0) /\ v <> Array [] /\
             (c <=? max_magnitude v)%float = false /\
             w' = (if (0.05 * c <=? max_magnitude v)%float
                   then emit [RelativityWarning] w0 else w0).
Proof.
  intros H. unfold check_relativistic in H.
  apply bind_inv in H as (v0 & w0 & Hf & H).
  destruct v0 as [x|[|x xs]]; try discriminate;
    (destruct (c <=? max_magnitude _)%float eqn:E; [discriminate|];
     destruct (0.05 * c <=? max_magnitude _)%float eqn:E2;
     [apply bind_inv in H as ([] & w1 & Hw & H); unfold warn in Hw;
      injection Hw as <-|];
     unfold ret in H; injection H as <- <-; exists w0;
     rewrite E, E2; repeat split; try assumption; discriminate).
Qed.

Lemma check_relativistic_ok_intro (f : M (nd float)) (v : nd float) (w w0 : world) :
  f w = (Ok v, w0) -> v <> Array [] ->
  (c <=? max_magnitude v)%float = false ->
  check_relativistic f w
  = (Ok v, if (0.05 * c <=? max_magnitude v)%float
           then emit [RelativityWarning] w0 else w0).
Proof.
  intros Hf Hne Hc. unfold check_relativistic. rewrite (bind_ok _ _ _ _ _ Hf).
  destruct v as [x|[|x xs]]; try congruence;
    rewrite Hc; now destruct (0.05 * c <=? max_magnitude _)%float.
Qed.

(** ** Thermal speed: the mass override *)

Lemma mass_check (mass : float) (w : world) :
  check_value (with_nan true (with_negative false default_checks)) (Scalar mass) w =
  if (mass <? 0)%float then (Raise NegativeValueError, w) else (Ok tt, w).
Proof. unfold check_value. simpl. now destruct (mass <? 0)%float. Qed.

(** C9, amended: the validator lets a NaN mass override through (it is
    also the default).  With a temperature that passes validation and a
    particle that [Particle] accepts: an override that is NaN or
    [+infinity] makes [thermal_speed] use the particle's resolved mass; a
    finite override that is not negative replaces the resolved mass in
    the speed formula; a negative override, finite or not, is rejected by
    the validator with [NegativeValueError]. *)
Theorem thermal_speed_mass_override :
  forall (T : nd float) (particle method : string) (mass : float) (w : world),
    check_value (with_negative false default_checks) T w = (Ok tt, w) ->
    Particle particle = Ok tt ->
    check_value (with_nan true (with_negative false default_checks))
                (Scalar nan) w = (Ok tt, w) /\
    ((mass <? 0)%float = false -> is_finite mass = false ->
     thermal_speed T particle method mass w =
     check_relativistic
       (m <- lift (particle_mass particle) ;;
        V <- V_by_method method T m ;;
        check_value default_checks V ;;;
        ret V) w) /\
    ((mass <? 0)%float = false -> is_finite mass = true ->
     thermal_speed T particle method mass w =
     check_relativistic
       (V <- V_by_method method T mass ;;
        check_value default_checks V ;;;
        ret V) w) /\
    ((mass <? 0)%float = true ->
     thermal_speed T particle method mass w = (Raise NegativeValueError, w)).
Proof.
  intros T particle method mass w HT HP. split; [|split; [|split]].
  - rewrite mass_check. reflexivity.
  - intros Hneg Hfin. unfold thermal_speed. apply check_relativistic_ext.
    unfold thermal_speed_wrapped. rewrite (bind_ok _ _ _ _ _ HT).
    rewrite (bind_ok _ _ w w tt) by (now rewrite mass_check, Hneg).
    rewrite (bind_ok _ _ w w tt) by (unfold lift; now rewrite HP).
    now rewrite Hfin.
  - intros Hneg Hfin. unfold thermal_speed. apply check_relativistic_ext.
    unfold thermal_speed_wrapped. rewrite (bind_ok _ _ _ _ _ HT).
    rewrite (bind_ok _ _ w w tt) by (now rewrite mass_check, Hneg).
    rewrite (bind_ok _ _ w w tt) by (unfold lift; now rewrite HP).
    rewrite Hfin. reflexivity.
  - intros Hneg. unfold thermal_speed, check_relativistic.
    apply bind_raise. unfold thermal_speed_wrapped.
    rewrite (bind_ok _ _ _ _ _ HT). apply bind_raise.
    now rewrite mass_check, Hneg.
Qed.

(** ** Mass density *)

(** C6, amended: for a density that passes validation: a mass density is
    returned unchanged; a number density [n] with a particle whose mass
    resolves to [m_i] and a numeric charge [Z] from the charge merge gives
    [rho = n * m_i + Z * n * m_e], which is returned when it passes the
    validation declared for the return value and raises
    [NegativeValueError] when it is negative (a negative [z_mean] can make
    it so); a number density with no particle ([None] or the empty
    string) raises [ValueError]; in particular
    [mass_density(4 m^-3, 'D+') = 4 * m_deuteron + 1 * 4 * m_e]. *)
Theorem mass_density_cases :
  forall (density : density_quantity) (particle : option string)
         (z_mean : option pyval) (w : world),
    check_value (with_negative false default_checks) (Scalar (value density)) w
      = (Ok tt, w) ->
    (units density = kg_per_m3 ->
     mass_density density particle z_mean w = (Ok (value density), w)) /\
    (units density = per_m3 ->
     forall (p : string) (m_i : float) (q : pyval) (qf : float),
       particle = Some p -> p <> "" ->
       particle_mass p = Ok m_i ->
       _grab_charge p z_mean w = (Ok q, w) ->
       to_float q w = (Ok qf, w) ->
       let rho := (value density * m_i + qf * value density * m_e)%float in
       (check_value (with_negative false default_checks) (Scalar rho) w = (Ok tt, w) ->
        mass_density density particle z_mean w = (Ok rho, w)) /\
       ((rho <? 0)%float = true ->
        mass_density density particle z_mean w = (Raise NegativeValueError, w))) /\
    (units density = per_m3 ->
     particle = None \/ particle = Some "" ->
     mass_density density particle z_mean w =
     (Raise (ValueError ("If passing a number density, you must pass a particle (not "
                         ++ str_particle particle
                         ++ ") to calculate the mass density!")), w)) /\
    (forall m_D : float,
       density = mkDensity 4 per_m3 ->
       particle_mass "D+" = Ok m_D ->
       integer_charge "D+" = Ok 1%Z ->
       let rho := (4 * m_D + 1 * 4 * m_e)%float in
       check_value (with_negative false default_checks) (Scalar rho) w = (Ok tt, w) ->
       mass_density density (Some "D+") None w = (Ok rho, w)).
Proof.
  intros density particle z_mean w Hd. split; [|split; [|split]].
  - intros Hu. unfold mass_density. rewrite (bind_ok _ _ _ _ _ Hd), Hu. simpl.
    unfold bind, ret. rewrite Hd. reflexivity.
  - intros Hu p m_i q qf -> Hp Hm Hq Hqf rho.
    assert (Hrun :
      mass_density density (Some p) z_mean w =
      (check_value (with_negative false default_checks) (Scalar rho) ;;; ret rho) w).
    { unfold mass_density. rewrite (bind_ok _ _ _ _ _ Hd), Hu. simpl.
      apply String.eqb_neq in Hp. rewrite Hp.
      rewrite (bind_ok _ _ w w rho); [reflexivity|].
      rewrite (bind_ok _ _ w w m_i) by (unfold lift; now rewrite Hm).
      rewrite (bind_ok _ _ _ _ _ Hq), (bind_ok _ _ _ _ _ Hqf). reflexivity. }
    split.
    + intros Hr. rewrite Hrun. now rewrite (bind_ok _ _ _ _ _ Hr).
    + intros Hr. rewrite Hrun. apply bind_raise.
      unfold check_value. simpl. now rewrite Hr.
  - intros Hu Hp. unfold mass_density. rewrite (bind_ok _ _ _ _ _ Hd), Hu. simpl.
    apply bind_raise. destruct Hp as [-> | ->]; reflexivity.
  - intros m_D -> Hm Hq rho Hr. unfold mass_density.
    rewrite (bind_ok _ _ _ _ _ Hd). simpl.
    rewrite (bind_ok _ _ w w rho).
    + now rewrite (bind_ok _ _ _ _ _ Hr).
    + rewrite (bind_ok _ _ w w m_D) by (unfold lift; now rewrite Hm).
      unfold _grab_charge.
      rewrite (bind_ok _ _ w w (PyInt 1)).
      * unfold to_float. rewrite (bind_ok _ _ w w (Z2float 1)) by reflexivity.
        rewrite Z2float_one. reflexivity.
      * rewrite (bind_ok _ _ w w 1%Z) by (unfold lift; now rewrite Hq). reflexivity.
Qed.

(** ** Ion sound speed: the dispersion term *)

Lemma check_value_stateless (ck : checks) (v : nd float) :
  exists r, forall w, check_value ck v w = (r, w).
Proof.
  unfold check_value.
  destruct (negb (can_be_negative ck) && _); [eexists; reflexivity|].
  destruct (negb (can_be_nan ck) && _); eexists; reflexivity.
Qed.

Lemma check_value_zero (ck : checks) (w : world) :
  check_value ck (Scalar 0%float) w = (Ok tt, w).
Proof.
  unfold check_value. simpl.
  replace (0 <? 0)%float with false by (vm_compute; reflexivity).
  replace (is_nan 0) with false by (vm_compute; reflexivity).
  now rewrite !andb_false_r.
Qed.

Lemma Debye_length_stateless (T_e n_e : float) :
  exists r, forall w, Debye_length T_e n_e w = (r, w).
Proof.
  unfold Debye_length, bind, ret.
  destruct (check_value_stateless (with_negative false default_checks) (Scalar T_e))
    as [[[]|ex1] H1]; [|exists (Raise ex1); intros w; now rewrite H1].
  destruct (check_value_stateless (with_negative false default_checks) (Scalar n_e))
    as [[[]|ex2] H2]; [|exists (Raise ex2); intros w; now rewrite H1, H2].
  destruct (check_value_stateless default_checks
              (Scalar (sqrt (eps0 * k_B * T_e / (n_e * (e * e))))%float))
    as [[[]|ex3] H3]; eexists; intros w; rewrite H1, H2, H3; reflexivity.
Qed.

Lemma Debye_length_any_world (T_e n_e lambda_D : float) (w w1 w2 : world) :
  Debye_length T_e n_e w = (Ok lambda_D, w1) ->
  Debye_length T_e n_e w2 = (Ok lambda_D, w2).
Proof.
  destruct (Debye_length_stateless T_e n_e) as [r Hr].
  rewrite Hr. intros [= -> _]. apply Hr.
Qed.

Lemma int_to_float_stateless (z : Z) : exists r, forall w, int_to_float z w = (r, w).
Proof. unfold int_to_float. destruct (is_infinity _); eexists; reflexivity. Qed.

Lemma py_mul_stateless (a b : pyval) : exists r, forall w, py_mul a b w = (r, w).
Proof.
  destruct a as [x|x|r], b as [y|y|r']; simpl; try (eexists; reflexivity);
    unfold bind.
  - destruct (int_to_float_stateless x) as [[xf|ex] H]; eexists; intros w;
      rewrite H; reflexivity.
  - destruct (int_to_float_stateless y) as [[yf|ex] H]; eexists; intros w;
      rewrite H; reflexivity.
Qed.

Lemma to_float_stateless (v : pyval) : exists r, forall w, to_float v w = (r, w).
Proof. destruct v; simpl; [apply int_to_float_stateless|eexists; reflexivity..]. Qed.

Lemma V_S_expr_stateless (gamma_e q : pyval) (T_e : float) (gamma_i : pyval)
    (T_i m_i klD2 : float) :
  exists r, forall w, V_S_expr gamma_e q T_e gamma_i T_i m_i klD2 w = (r, w).
Proof.
  unfold V_S_expr, bind, ret.
  destruct (py_mul_stateless gamma_e q) as [[gq|ex1] H1];
    [|exists (Raise ex1); intros w; now rewrite H1].
  destruct (to_float_stateless gq) as [[a|ex2] H2];
    [|exists (Raise ex2); intros w; now rewrite H1, H2].
  destruct (to_float_stateless gamma_i) as [[b|ex3] H3];
    eexists; intros w; rewrite H1, H2, H3; reflexivity.
Qed.

Lemma V_S_step_stateless (gamma_e q : pyval) (T_e : float) (gamma_i : pyval)
    (T_i m_i klD2 : float) :
  exists r, forall w, V_S_step gamma_e q T_e gamma_i T_i m_i klD2 w = (r, w).
Proof.
  unfold V_S_step, try_except, raise.
  destruct (V_S_expr_stateless gamma_e q T_e gamma_i T_i m_i klD2) as [[v|ex] H];
    eexists; intros w; rewrite H; reflexivity.
Qed.

(** What follows the choice of [klD2] returns the same value or raises the
    same exception whatever has been logged. *)
Lemma after_dispersion_value (gamma_e q : pyval) (T_e : float) (gamma_i : pyval)
    (T_i m_i klD2 : float) (w1 w2 : world) :
  let rest :=
    (V_S <- V_S_step gamma_e q T_e gamma_i T_i m_i klD2 ;;
     check_value default_checks (Scalar V_S) ;;;
     ret (Scalar V_S)) in
  fst (rest w1) = fst (rest w2) /\
  (forall v w', rest w1 = (Ok v, w') -> w' = w1) /\
  (forall v w', rest w2 = (Ok v, w') -> w' = w2).
Proof.
  intros rest. subst rest. unfold bind, ret.
  destruct (V_S_step_stateless gamma_e q T_e gamma_i T_i m_i klD2) as [[v|ex] H];
    rewrite !H; [|repeat split; intros; discriminate].
  destruct (check_value_stateless default_checks (Scalar v)) as [[[]|ex] Hc];
    rewrite !Hc; repeat split; try reflexivity; intros ? ? [= _ <-]; reflexivity.
Qed.

Lemma dispersion_fallback (T_e : float) (n_e k : option float) (w : world) :
  (n_e = None \/ k = None) ->
  dispersion T_e n_e k w =
  (Ok 0%float,
   match n_e, k with
   | None, None => w
   | _, _ => emit [PhysicsWarning
                     ("The non-dispersive limit has been assumed for "
                      ++ "this calculation. To prevent this, values must "
                      ++ "be specified for both n_e and k.")] w
   end).
Proof. intros H. destruct n_e, k; try reflexivity. destruct H; discriminate. Qed.

Lemma bind_congr {A B} (m : M A) (k1 k2 : A -> M B) (w : world) :
  (forall a w', m w = (Ok a, w') -> k1 a w' = k2 a w') ->
  bind m k1 w = bind m k2 w.
Proof.
  intros H. unfold bind. destruct (m w) as [[a|ex] w']; [|reflexivity]. now apply H.
Qed.

Lemma bind_fst_congr {A B} (m : M A) (k1 k2 : A -> M B) (w : world) :
  (forall a w', m w = (Ok a, w') -> fst (k1 a w') = fst (k2 a w')) ->
  fst (bind m k1 w) = fst (bind m k2 w).
Proof.
  intros H. unfold bind. destruct (m w) as [[a|ex] w']; [|reflexivity]. now apply H.
Qed.

Lemma check_relativistic_fst (f g : M (nd float)) (w1 w2 : world) :
  fst (f w1) = fst (g w2) ->
  fst (check_relativistic f w1) = fst (check_relativistic g w2).
Proof.
  unfold check_relativistic, bind.
  destruct (f w1) as [[v1|ex1] w1'], (g w2) as [[v2|ex2] w2']; simpl;
    intros H; try discriminate; [|assumption].
  injection H as ->.
  destruct v2 as [x|[|x xs]]; try reflexivity;
    repeat match goal with
           | |- context [if ?b then _ else _] => destruct b
           end; reflexivity.
Qed.

Lemma dispersion_zero_k (T_e x lambda_D : float) (w w1 : world) :
  Debye_length T_e x w = (Ok lambda_D, w1) ->
  is_finite lambda_D = true ->
  forall w', dispersion T_e (Some x) (Some 0%float) w' = (Ok 0%float, w').
Proof.
  intros HD Hfin w'. unfold dispersion.
  rewrite (bind_ok _ _ _ _ _ (Debye_length_any_world _ _ _ _ _ w' HD)).
  unfold ret. now rewrite mul_zero_finite_sq.
Qed.

(** C4, amended: for every electron density [x] that passes validation
    and for which [Debye_length(T_e, x)] returns a finite value,
    [ion_sound_speed(T_e, T_i, n_e=x, k=0)] evaluates with [klD2 = 0] and
    equals [ion_sound_speed(T_e, T_i, n_e=None, k=None)], log included;
    when exactly one of [n_e] and [k] is given (and passes validation),
    [klD2 = 0] is used, one [PhysicsWarning] is logged at that point, and
    the value returned or the exception raised is that of the
    neither-given call; with neither given, [klD2 = 0] and nothing is
    logged. *)
Theorem ion_sound_speed_dispersion_fallback :
  forall (T_e T_i : float) (gamma_e gamma_i : pyval) (ion : string)
         (z_mean : option pyval) (w : world),
    (forall x lambda_D : float,
       check_optional (with_none true (with_negative false default_checks))
                      (Some x) w = (Ok tt, w) ->
       Debye_length T_e x w = (Ok lambda_D, w) ->
       is_finite lambda_D = true ->
       dispersion T_e (Some x) (Some 0%float) w = (Ok 0%float, w) /\
       ion_sound_speed T_e T_i (Some x) (Some 0%float) gamma_e gamma_i ion z_mean w =
       ion_sound_speed T_e T_i None None gamma_e gamma_i ion z_mean w) /\
    (forall (n_e k : option float) (x : float),
       (n_e = Some x /\ k = None) \/ (n_e = None /\ k = Some x) ->
       check_optional (with_none true (with_negative false default_checks))
                      (Some x) w = (Ok tt, w) ->
       dispersion T_e n_e k w =
         (Ok 0%float,
          emit [PhysicsWarning
                  ("The non-dispersive limit has been assumed for "
                   ++ "this calculation. To prevent this, values must "
                   ++ "be specified for both n_e and k.")] w) /\
       fst (ion_sound_speed T_e T_i n_e k gamma_e gamma_i ion z_mean w) =
       fst (ion_sound_speed T_e T_i None None gamma_e gamma_i ion z_mean w)) /\
    dispersion T_e None None w = (Ok 0%float, w).
Proof.
  intros T_e T_i gamma_e gamma_i ion z_mean w. split; [|split; [|reflexivity]].
  - intros x lambda_D Hx HD Hfin. split; [exact (dispersion_zero_k _ _ _ _ _ HD Hfin w)|].
    unfold ion_sound_speed. apply check_relativistic_ext.
    unfold ion_sound_speed_wrapped.
    apply bind_congr; intros [] w1 _.
    apply bind_congr; intros [] w2 _.
    rewrite (bind_ok (check_optional _ (Some x)) _ w2 w2 tt)
      by exact (check_value_ok_any _ _ _ _ w2 Hx).
    rewrite (bind_ok (check_optional _ (Some 0%float)) _ w2 w2 tt)
      by apply check_value_zero.
    rewrite (bind_ok (check_optional _ None) _ w2 w2 tt) by reflexivity.
    rewrite (bind_ok (check_optional _ None) _ w2 w2 tt) by reflexivity.
    apply bind_congr; intros m_i w3 _.
    apply bind_congr; intros q w4 _.
    apply bind_congr; intros [] w5 _.
    apply bind_congr; intros [] w6 _.
    rewrite (bind_ok (dispersion T_e (Some x) (Some 0%float)) _ w6 w6 0%float)
      by exact (dispersion_zero_k _ _ _ _ _ HD Hfin w6).
    rewrite (bind_ok (dispersion T_e None None) _ w6 w6 0%float) by reflexivity.
    reflexivity.
  - intros n_e k x Hcase Hx. split.
    { rewrite dispersion_fallback by (destruct Hcase as [[_ ->]|[-> _]]; auto).
      destruct Hcase as [[-> ->]|[-> ->]]; reflexivity. }
    unfold ion_sound_speed. apply check_relativistic_fst.
    unfold ion_sound_speed_wrapped.
    apply bind_fst_congr; intros [] w1 _.
    apply bind_fst_congr; intros [] w2 _.
    assert (Hn : check_optional (with_none true (with_negative false default_checks))
                   n_e w2 = (Ok tt, w2)).
    { destruct Hcase as [[-> _]|[-> _]];
        [exact (check_value_ok_any _ _ _ _ w2 Hx) | reflexivity]. }
    assert (Hk : check_optional (with_none true (with_negative false default_checks))
                   k w2 = (Ok tt, w2)).
    { destruct Hcase as [[_ ->]|[_ ->]];
        [reflexivity | exact (check_value_ok_any _ _ _ _ w2 Hx)]. }
    rewrite (bind_ok _ _ _ _ _ Hn), (bind_ok _ _ _ _ _ Hk).
    rewrite (bind_ok (check_optional _ None) _ w2 w2 tt) by reflexivity.
    rewrite (bind_ok (check_optional _ None) _ w2 w2 tt) by reflexivity.
    apply bind_fst_congr; intros m_i w3 _.
    apply bind_fst_congr; intros q w4 _.
    apply bind_fst_congr; intros [] w5 _.
    apply bind_fst_congr; intros [] w6 _.
    rewrite (bind_ok (dispersion T_e n_e k) _ w6 _ 0%float)
      by (apply dispersion_fallback; destruct Hcase as [[_ ->]|[-> _]]; auto).
    rewrite (bind_ok (dispersion T_e None None) _ w6 w6 0%float) by reflexivity.
    apply after_dispersion_value.
Qed.

(** ** Gyrofrequency and the lower hybrid frequency *)

Lemma py_abs_stateless (v : pyval) : exists r, forall w, py_abs v w = (r, w).
Proof. destruct v; eexists; reflexivity. Qed.

Lemma grab_charge_stateless (ion : string) (z_mean : option pyval) :
  exists r, forall w, _grab_charge ion z_mean w = (r, w).
Proof.
  destruct z_mean as [z|]; [eexists; reflexivity|].
  unfold _grab_charge, bind, lift, ret.
  destruct (integer_charge ion); eexists; reflexivity.
Qed.

Lemma gyrofrequency_stateless (B : float) (particle : string) (signed : bool)
    (Z : option pyval) (to_hz : bool) :
  exists r, forall w, gyrofrequency B particle signed Z to_hz w = (r, w).
Proof.
  unfold gyrofrequency, angular_freq_to_hz, bind, lift, ret.
  destruct (check_value_stateless default_checks (Scalar B)) as [[[]|ex0] H0];
    [|exists (Raise ex0); intros w; now rewrite H0].
  destruct (particle_mass particle) as [m_i|ex1];
    [|exists (Raise ex1); intros w; now rewrite H0].
  destruct (grab_charge_stateless particle Z) as [[q|ex2] H2];
    [|exists (Raise ex2); intros w; now rewrite H0, H2].
  assert (H3 : exists r, forall w,
             (if negb signed then py_abs q else (fun w => (Ok q, w))) w = (r, w)).
  { destruct signed; simpl; [eexists; reflexivity | apply py_abs_stateless]. }
  destruct H3 as [[q'|ex3] H3];
    [|exists (Raise ex3); intros w; now rewrite H0, H2, H3].
  destruct (to_float_stateless q') as [[qf|ex4] H4];
    [|exists (Raise ex4); intros w; now rewrite H0, H2, H3, H4].
  destruct (check_value_stateless default_checks
              (Scalar (if to_hz then (qf * e * abs B / m_i / (2 * pi))%float
                       else (qf * e * abs B / m_i)%float)))
    as [[[]|ex5] H5]; eexists; intros w; rewrite H0, H2, H3, H4, H5; reflexivity.
Qed.

Lemma gyrofrequency_any_world (B : float) (particle : string) (signed : bool)
    (Z : option pyval) (to_hz : bool) (omega : float) (w w1 w2 : world) :
  gyrofrequency B particle signed Z to_hz w = (Ok omega, w1) ->
  gyrofrequency B particle signed Z to_hz w2 = (Ok omega, w2).
Proof.
  destruct (gyrofrequency_stateless B particle signed Z to_hz) as [r Hr].
  rewrite Hr. intros [= -> _]. apply Hr.
Qed.

Lemma gyrofrequency_checks_B (B : float) (particle : string) (signed : bool)
    (Z : option pyval) (to_hz : bool) (omega : float) (w w1 : world) :
  gyrofrequency B particle signed Z to_hz w = (Ok omega, w1) ->
  check_value default_checks (Scalar B) w = (Ok tt, w).
Proof.
  intros H. unfold gyrofrequency in H. apply bind_inv in H.
  destruct H as (u & w0 & H & _).
  destruct (check_value_ok_inv _ _ _ _ _ H) as [-> ->]. exact H.
Qed.

Lemma plasma_frequency_checks_n (n : float) (particle : string)
    (z_mean : option pyval) (to_hz : bool) (omega : float) (w w1 : world) :
  plasma_frequency n particle z_mean to_hz w = (Ok omega, w1) ->
  check_value (with_negative false default_checks) (Scalar n) w = (Ok tt, w).
Proof.
  intros H. unfold plasma_frequency in H. apply bind_inv in H.
  destruct H as (u & w0 & H & _).
  destruct (check_value_ok_inv _ _ _ _ _ H) as [-> ->]. exact H.
Qed.

(** C5: when the ion's charge lookup succeeds and the three calls
    [omega_ci = gyrofrequency(B, ion)], [omega_pi = plasma_frequency(n_i, ion)]
    and [omega_ce = gyrofrequency(B)] return, [lower_hybrid_frequency]
    returns [((omega_ci * omega_ce) ** -1 + omega_pi ** -2) ** -0.5]
    (subject to the validation of the return value); the looked-up charge
    itself is not used; when the charge lookup raises, the call raises
    [ValueError("Invalid ion in lower_hybrid_frequency.")]. *)
Theorem lower_hybrid_frequency_formula :
  forall (B n_i : float) (ion : string) (w : world),
    (forall (z : Z) (omega_ci omega_pi omega_ce : float),
       integer_charge ion = Ok z ->
       gyrofrequency B ion false None false w = (Ok omega_ci, w) ->
       plasma_frequency n_i ion None false w = (Ok omega_pi, w) ->
       gyrofrequency B "e-" false None false w = (Ok omega_ce, w) ->
       let omega_lh :=
         (pow (pow (omega_ci * omega_ce) (-1) + pow omega_pi (-2)) (-0.5))%float in
       check_value default_checks (Scalar omega_lh) w = (Ok tt, w) ->
       lower_hybrid_frequency B n_i ion false w = (Ok omega_lh, w)) /\
    (forall ex : exn,
       integer_charge ion = Raise ex ->
       check_value default_checks (Scalar B) w = (Ok tt, w) ->
       check_value (with_negative false default_checks) (Scalar n_i) w = (Ok tt, w) ->
       lower_hybrid_frequency B n_i ion false w =
       (Raise (ValueError "Invalid ion in lower_hybrid_frequency."), w)).
Proof.
  intros B n_i ion w. split.
  - intros z omega_ci omega_pi omega_ce Hz Hci Hpi Hce omega_lh Hret.
    unfold lower_hybrid_frequency.
    rewrite (bind_ok _ _ _ _ _ (gyrofrequency_checks_B _ _ _ _ _ _ _ _ Hci)).
    rewrite (bind_ok _ _ _ _ _ (plasma_frequency_checks_n _ _ _ _ _ _ _ Hpi)).
    rewrite (bind_ok _ _ w w omega_lh); [now rewrite (bind_ok _ _ _ _ _ Hret)|].
    unfold angular_freq_to_hz.
    rewrite (bind_ok _ _ w w omega_lh); [reflexivity|].
    rewrite (bind_ok _ _ w w tt)
      by (unfold try_except, bind, lift; now rewrite Hz).
    rewrite (bind_ok _ _ _ _ _ Hci), (bind_ok _ _ _ _ _ Hpi), (bind_ok _ _ _ _ _ Hce).
    reflexivity.
  - intros ex Hz HB Hn. unfold lower_hybrid_frequency.
    rewrite (bind_ok _ _ _ _ _ HB), (bind_ok _ _ _ _ _ Hn).
    apply bind_raise. unfold angular_freq_to_hz. apply bind_raise. apply bind_raise.
    unfold try_except, bind, lift. now rewrite Hz.
Qed.

(** ** Gyroradius on two arrays *)

Lemma lift_stateless {A} (o : outcome A) : exists r, forall w, lift o w = (r, w).
Proof. exists o. reflexivity. Qed.

Lemma thermal_speed_wrapped_stateless (T : nd float) (particle method : string)
    (mass : float) :
  exists r, forall w, thermal_speed_wrapped T particle method mass w = (r, w).
Proof.
  unfold thermal_speed_wrapped, bind.
  destruct (check_value_stateless (with_negative false default_checks) T)
    as [[[]|ex0] H0]; [|exists (Raise ex0); intros w; now rewrite H0].
  destruct (check_value_stateless
              (with_nan true (with_negative false default_checks)) (Scalar mass))
    as [[[]|ex1] H1]; [|exists (Raise ex1); intros w; now rewrite H0, H1].
  destruct (lift_stateless (Particle particle)) as [[[]|ex2] H2];
    [|exists (Raise ex2); intros w; now rewrite H0, H1, H2].
  assert (H3 : exists r, forall w,
             (if is_finite mass then ret mass
              else lift (particle_mass particle)) w = (r, w)).
  { destruct (is_finite mass); eexists; reflexivity. }
  destruct H3 as [[m|ex3] H3];
    [|exists (Raise ex3); intros w; now rewrite H0, H1, H2, H3].
  assert (H4 : exists r, forall w, V_by_method method T m w = (r, w)).
  { unfold V_by_method.
    destruct (String.eqb method "most_probable"); [eexists; reflexivity|].
    destruct (String.eqb method "rms"); [eexists; reflexivity|].
    destruct (String.eqb method "mean_magnitude"); eexists; reflexivity. }
  destruct H4 as [[V|ex4] H4];
    [|exists (Raise ex4); intros w; now rewrite H0, H1, H2, H3, H4].
  destruct (check_value_stateless default_checks V) as [[[]|ex5] H5];
    eexists; intros w; rewrite H0, H1, H2, H3, H4, H5; reflexivity.
Qed.

(** A call of [thermal_speed] that returns does so from every world, with
    the same value and the same additions to the log. *)
Lemma thermal_speed_any_world (T : nd float) (particle method : string)
    (mass : float) (v : nd float) (w w' : world) :
  thermal_speed T particle method mass w = (Ok v, w') ->
  exists ws, forall w2, thermal_speed T particle method mass w2 = (Ok v, emit ws w2).
Proof.
  intros H. unfold thermal_speed in H.
  apply check_relativistic_ok_inv in H as (w0 & Hraw & Hne & Hc & _).
  destruct (thermal_speed_wrapped_stateless T particle method mass) as [r Hr].
  rewrite Hr in Hraw. injection Hraw as -> _.
  exists (if (0.05 * c <=? max_magnitude v)%float then [RelativityWarning] else []).
  intros w2. unfold thermal_speed.
  rewrite (check_relativistic_ok_intro _ v w2 w2 (Hr w2) Hne Hc).
  destruct (0.05 * c <=? max_magnitude v)%float; [reflexivity|now rewrite emit_nil].
Qed.

Lemma is_finite_nan : is_finite nan = false.
Proof. vm_compute. reflexivity. Qed.

(** What [thermal_speed(T, particle)] returns, when it returns. *)
Lemma thermal_speed_default_inv (T : nd float) (particle : string) (m : float)
    (v : nd float) (w w' : world) :
  particle_mass particle = Ok m ->
  thermal_speed T particle "most_probable" nan w = (Ok v, w') ->
  v = nd_map (fun t => sqrt (2 * k_B * t / m))%float T.
Proof.
  intros Hm H. unfold thermal_speed in H.
  apply check_relativistic_ok_inv in H as (w0 & H & _).
  unfold thermal_speed_wrapped in H.
  apply bind_inv in H. destruct H as (u1 & w1 & _ & H).
  apply bind_inv in H. destruct H as (u2 & w2 & _ & H).
  apply bind_inv in H. destruct H as (u3 & w3 & _ & H).
  rewrite is_finite_nan in H.
  apply bind_inv in H. destruct H as (m0 & w4 & H4 & H).
  unfold lift in H4. rewrite Hm in H4. injection H4 as <- _.
  apply bind_inv in H. destruct H as (V & w5 & H5 & H).
  unfold V_by_method in H5. simpl in H5. injection H5 as <- _.
  apply bind_inv in H. destruct H as (u6 & w6 & _ & H).
  now injection H as <- _.
Qed.

Lemma select_length {A} (p : A -> bool) (xs : list A) :
  List.length (select xs (map p xs)) = count_true (map p xs).
Proof.
  unfold count_true. induction xs as [|x xs IH]; simpl; [reflexivity|].
  destruct (p x); simpl; now rewrite IH.
Qed.

(** Overwriting by mask, position by position. *)
Lemma masked_assign_zip {A B} (p : A -> bool) (f : A -> B) (g : B -> B)
    (vs : list B) (ts : list A) :
  List.length vs = List.length ts ->
  map g (masked_assign vs (map p ts) (map f (select ts (map p ts)))) =
  zip_with (fun v t => if p t then g (f t) else g v) vs ts.
Proof.
  revert ts. induction vs as [|v vs IH]; intros [|t ts] Hlen; simpl in *;
    try discriminate; [reflexivity|].
  injection Hlen as Hlen. destruct (p t); simpl; now rewrite IH.
Qed.

Lemma check_1_passes (vs ts : list float) (w : world) :
  Forall2 (fun v t => xorb (is_finite v) (is_finite t) = true) vs ts ->
  check_1 (Array (map is_finite vs)) (Array (map is_finite ts)) w = (Ok tt, w).
Proof.
  intros H. unfold check_1, broadcast2.
  rewrite !length_map, (Forall2_length H), Nat.eqb_refl.
  unfold bind, ret. simpl.
  replace (existsb _ _) with false; [reflexivity|].
  induction H as [|v t vs ts Hvt H IH]; simpl; [reflexivity|].
  now rewrite Hvt, <- IH.
Qed.

(** X25: when [Vperp] and [T_i] are two allocated arrays of one length in
    which exactly one of [Vperp[i]] and [T_i[i]] is finite at every index,
    and validation, [thermal_speed] on the finite temperatures (of which
    there is then at least one: on none it raises) and
    [gyrofrequency(B, particle)] succeed, [gyroradius] returns the array
    whose element [i] is [|thermal_speed(T_i[i], particle)| / omega_ci]
    (that is [|sqrt(2 k_B T_i[i] / m)| / omega_ci]) where [T_i[i]] is
    finite and [|Vperp[i]| / omega_ci] where [Vperp[i]] is finite; every
    array of the caller, [Vperp] included, has the content it had: only
    the copy is overwritten.  The second part ties the square root to the
    scalar call [thermal_speed(t, particle)]. *)
Theorem gyroradius_arrays_copy :
  forall (B : float) (particle : string) (lv lt : nat) (w ws' : world)
         (m omega_ci : float) (sp : nd float),
    let vs := cells w lv in
    let ts := cells w lt in
    lv < next w ->
    lt < next w ->
    check_value (with_nan true default_checks) (Array vs) w = (Ok tt, w) ->
    check_value (with_nan true default_checks) (Array ts) w = (Ok tt, w) ->
    Forall2 (fun v t => xorb (is_finite v) (is_finite t) = true) vs ts ->
    particle_mass particle = Ok m ->
    thermal_speed (Array (select ts (map is_finite ts))) particle "most_probable" nan w
      = (Ok sp, ws') ->
    gyrofrequency B particle false None false w = (Ok omega_ci, w) ->
    let r_Li :=
      zip_with (fun v t =>
                  if is_finite t then (abs (sqrt (2 * k_B * t / m)) / omega_ci)%float
                  else (abs v / omega_ci)%float) vs ts in
    check_value default_checks (Array r_Li) w = (Ok tt, w) ->
    (exists w' : world,
       gyroradius B particle (QArray lv) (QArray lt) w = (Ok (Array r_Li), w') /\
       (forall l, l < next w -> cells w' l = cells w l) /\
       cells w' lv = vs) /\
    (forall (t : float) (v : nd float) (w0 w1 : world),
       thermal_speed (Scalar t) particle "most_probable" nan w0 = (Ok v, w1) ->
       v = Scalar (sqrt (2 * k_B * t / m))%float).
Proof.
  intros B particle lv lt w ws' m omega_ci sp vs ts Hlv Hlt HV HT Hxor Hm Hsp Hgf
         r_Li Hret.
  split; [|intros t v w0 w1 Hv; exact (thermal_speed_default_inv _ _ _ _ _ _ Hm Hv)].
  pose proof (Forall2_length Hxor) as Hlen.
  destruct (thermal_speed_any_world _ _ _ _ _ _ _ Hsp) as [ws Hany].
  pose proof (thermal_speed_default_inv _ _ _ _ _ _ Hm Hsp) as ->.
  simpl nd_map in *.
  set (mask := map is_finite ts) in *.
  set (vals := map (fun t => sqrt (2 * k_B * t / m))%float (select ts mask)) in *.
  set (w1 := mkWorld (fun l => if Nat.eqb l (next w) then vs else cells w l)
                     (S (next w)) (warned w)).
  set (w3 := mkWorld (fun l => if Nat.eqb l (next w)
                               then masked_assign vs mask vals
                               else cells (emit ws w1) l)
                     (next (emit ws w1)) (warned (emit ws w1))).
  exists (emit [ImplicitUnitConversionWarning] w3). split; [|split].
  - unfold gyroradius.
    rewrite (bind_ok _ _ w w (Array vs)) by reflexivity.
    rewrite (bind_ok _ _ w w (Array ts)) by reflexivity.
    rewrite (bind_ok _ _ _ _ _ (gyrofrequency_checks_B _ _ _ _ _ _ _ _ Hgf)).
    rewrite (bind_ok _ _ _ _ _ HV), (bind_ok _ _ _ _ _ HT).
    rewrite (bind_ok _ _ _ _ _ (check_1_passes vs ts w Hxor)).
    rewrite (bind_ok _ _ w w3 (Array (masked_assign vs mask vals))).
    + rewrite (bind_ok _ _ _ _ _ (gyrofrequency_any_world _ _ _ _ _ _ _ _ w3 Hgf)).
      assert (Hr : nd_map (fun v => abs v / omega_ci)%float
                     (Array (masked_assign vs mask vals)) = Array r_Li).
      { unfold nd_map, vals, mask, r_Li. f_equal.
        exact (masked_assign_zip is_finite
                 (fun t => sqrt (2 * k_B * t / m))%float
                 (fun v => abs v / omega_ci)%float vs ts Hlen). }
      rewrite Hr.
      rewrite (bind_ok convert_by_equivalency _ w3
                 (emit [ImplicitUnitConversionWarning] w3) tt eq_refl).
      now rewrite (bind_ok _ _ _ _ _ (check_value_ok_any _ _ _ _
                                        (emit [ImplicitUnitConversionWarning] w3) Hret)).
    + rewrite (bind_ok _ _ w w1 (next w)) by reflexivity.
      assert (Hts : load (QArray lt) w1 = (Ok (Array ts), w1)).
      { unfold load, deref, w1. simpl.
        assert (Nat.eqb lt (next w) = false) as -> by (apply Nat.eqb_neq; lia).
        reflexivity. }
      rewrite (bind_ok _ _ _ _ _ Hts).
      simpl contents. fold mask.
      rewrite (bind_ok _ _ _ _ _ (Hany w1)).
      rewrite (bind_ok _ _ (emit ws w1) w3 tt).
      { unfold load, deref. do 2 f_equal. unfold w3. simpl.
        now rewrite Nat.eqb_refl. }
      unfold setitem_mask. simpl cells. rewrite Nat.eqb_refl.
      assert (Nat.eqb (List.length mask) (List.length vs) = true) as ->.
      { apply Nat.eqb_eq. unfold mask. now rewrite length_map. }
      assert (Nat.eqb (count_true mask) (List.length vals) = true) as ->.
      { apply Nat.eqb_eq. unfold vals, mask. now rewrite length_map, select_length. }
      reflexivity.
  - intros l Hl. unfold w3, w1. simpl.
    assert (Nat.eqb l (next w) = false) as -> by (apply Nat.eqb_neq; lia).
    reflexivity.
  - unfold w3, w1. simpl.
    assert (Nat.eqb lv (next w) = false) as -> by (apply Nat.eqb_neq; lia).
    reflexivity.
Qed.

(** * Further properties *)

(** ** Signs of binary64 results *)

Lemma bra_abs (s : bool) (m ex : Z) (l : location) :
  SFabs (binary_round_aux prec emax s m ex l) = binary_round_aux prec emax false m ex l.
Proof.
  unfold binary_round_aux.
  destruct (shr_fexp prec emax m ex l) as [mrs' e'].
  destruct (shr_fexp prec emax _ e' loc_Exact) as [mrs'' e''].
  destruct (shr_m mrs''); try reflexivity.
  destruct (Z.leb e'' (emax - prec)); reflexivity.
Qed.

Lemma abs_fix_SF (x : float) : abs x = x <-> SFabs (Prim2SF x) = Prim2SF x.
Proof.
  split; intros H.
  - rewrite <- abs_spec. now rewrite H.
  - apply Prim2SF_inj. now rewrite abs_spec.
Qed.

Lemma SFabs_mul (x y : spec_float) :
  SFabs (SFmul prec emax x y) = SFmul prec emax (SFabs x) (SFabs y).
Proof.
  destruct x as [sx|sx| |sx mx ex], y as [sy|sy| |sy my ey]; simpl; try reflexivity.
  apply bra_abs.
Qed.

Lemma SFabs_div (x y : spec_float) :
  SFabs (SFdiv prec emax x y) = SFdiv prec emax (SFabs x) (SFabs y).
Proof.
  destruct x as [sx|sx| |sx mx ex], y as [sy|sy| |sy my ey]; simpl; try reflexivity.
  destruct (SFdiv_core_binary prec emax (Z.pos mx) ex (Z.pos my) ey) as [[mz ez] lz].
  apply bra_abs.
Qed.

Lemma abs_abs (x : float) : abs (abs x) = abs x.
Proof. apply Prim2SF_inj. rewrite !abs_spec. now destruct (Prim2SF x). Qed.

Lemma abs_mul (x y : float) : abs (x * y) = (abs x * abs y)%float.
Proof. apply Prim2SF_inj. rewrite abs_spec, !mul_spec, !abs_spec. apply SFabs_mul. Qed.

Lemma abs_div (x y : float) : abs (x / y) = (abs x / abs y)%float.
Proof. apply Prim2SF_inj. rewrite abs_spec, !div_spec, !abs_spec. apply SFabs_div. Qed.

Lemma abs_opp (x : float) : abs (- x) = abs x.
Proof.
  apply Prim2SF_inj. rewrite !abs_spec, opp_spec. now destruct (Prim2SF x).
Qed.

Lemma mul_opp_opp (x : float) : (- x * - x)%float = (x * x)%float.
Proof.
  apply Prim2SF_inj. rewrite !mul_spec, opp_spec. unfold SF64mul.
  destruct (Prim2SF x) as [s|s| |s m ex]; simpl; try reflexivity;
    now destruct s.
Qed.

Lemma abs_square (x : float) : abs (x * x) = (x * x)%float.
Proof.
  apply abs_fix_SF. rewrite mul_spec. unfold SF64mul.
  destruct (Prim2SF x) as [s|s| |s m ex]; simpl; try reflexivity;
    try (now destruct s).
  rewrite bra_abs. now destruct s.
Qed.

(** Not being less than zero, on the bit-level description. *)
Lemma SF_nonneg_cases (x : float) :
  (x <? 0)%float = false <->
  match Prim2SF x with
  | S754_infinity true | S754_finite true _ _ => False
  | _ => True
  end.
Proof.
  rewrite ltb_spec, Prim2SF_zero.
  destruct (Prim2SF x) as [s|[|]| |[|] m ex]; simpl; unfold SFltb; simpl; split; intros H;
    try exact I; try reflexivity; try discriminate; try contradiction.
Qed.

Lemma abs_fix_nonneg (x : float) : abs x = x -> (x <? 0)%float = false.
Proof.
  intros H. apply abs_fix_SF in H. apply SF_nonneg_cases.
  destruct (Prim2SF x) as [s|s| |s m ex]; simpl in *; try exact I;
    injection H as <-; exact I.
Qed.

Lemma bra_nonneg (m ex : Z) (l : location) :
  match binary_round_aux prec emax false m ex l with
  | S754_infinity true | S754_finite true _ _ => False
  | _ => True
  end.
Proof.
  unfold binary_round_aux.
  destruct (shr_fexp prec emax m ex l) as [mrs' e'].
  destruct (shr_fexp prec emax _ e' loc_Exact) as [mrs'' e''].
  destruct (shr_m mrs''); try exact I.
  destruct (Z.leb e'' (emax - prec)); exact I.
Qed.

Lemma nonneg_sqrt (x : float) : (sqrt x <? 0)%float = false.
Proof.
  apply SF_nonneg_cases. rewrite sqrt_spec. unfold SF64sqrt.
  destruct (Prim2SF x) as [s|[|]| |[|] m ex]; simpl; try exact I.
  destruct (SFsqrt_core_binary prec emax (Z.pos m) ex) as [[mz ez] lz].
  apply bra_nonneg.
Qed.

Lemma nonneg_mul (x y : float) :
  (x <? 0)%float = false -> (y <? 0)%float = false -> (x * y <? 0)%float = false.
Proof.
  rewrite !SF_nonneg_cases, mul_spec. unfold SF64mul.
  destruct (Prim2SF x) as [sx|[|]| |[|] mx ex], (Prim2SF y) as [sy|[|]| |[|] my ey];
    simpl; intros Hx Hy; try exact I; try contradiction.
  apply bra_nonneg.
Qed.

Lemma nonneg_div (x y : float) :
  (x <? 0)%float = false -> abs y = y -> (x / y <? 0)%float = false.
Proof.
  rewrite !SF_nonneg_cases, abs_fix_SF, div_spec. unfold SF64div.
  destruct (Prim2SF x) as [sx|[|]| |[|] mx ex], (Prim2SF y) as [sy|sy| |sy my ey];
    simpl; intros Hx Hy; try exact I; try contradiction;
    try (injection Hy as <-); try exact I; try (destruct sx; exact I).
  destruct (SFdiv_core_binary prec emax (Z.pos mx) ex (Z.pos my) ey) as [[mz ez] lz].
  apply bra_nonneg.
Qed.

Lemma binary_round_abs (s : bool) (m : positive) (ex : Z) :
  SFabs (binary_round prec emax s m ex) = binary_round prec emax false m ex.
Proof.
  unfold binary_round. destruct (shl_align m ex _) as [mz ez]. apply bra_abs.
Qed.

Lemma binary_normalize_abs (k ex : Z) :
  SFabs (binary_normalize prec emax k ex false)
  = binary_normalize prec emax (Z.abs k) ex false.
Proof. destruct k; simpl; try reflexivity; apply binary_round_abs. Qed.

Lemma of_uint63_abs (n : Uint63.int) : abs (of_uint63 n) = of_uint63 n.
Proof.
  apply abs_fix_SF. rewrite of_uint63_spec, binary_normalize_abs.
  f_equal. apply Z.abs_eq. apply Uint63.to_Z_bounded.
Qed.

Lemma ldexp_abs (f : float) (ex : Z) : abs f = f -> abs (Z.ldexp f ex) = Z.ldexp f ex.
Proof.
  intros H. apply abs_fix_SF in H. apply abs_fix_SF. rewrite Z_ldexp_spec.
  destruct (Prim2SF f) as [s|s| |s m e0]; simpl in *; try assumption.
  injection H as <-. apply binary_round_abs.
Qed.

Lemma SF2Prim_abs (s : spec_float) : abs (SF2Prim s) = SF2Prim (SFabs s).
Proof.
  destruct s as [[|]|[|]| |[|] m ex]; try (vm_compute; reflexivity); simpl.
  - rewrite abs_opp. apply ldexp_abs, of_uint63_abs.
  - apply ldexp_abs, of_uint63_abs.
Qed.

(** [abs(float(k)) = float(abs(k))] *)
Lemma abs_Z2float (k : Z) : abs (Z2float k) = Z2float (Z.abs k).
Proof. unfold Z2float. now rewrite SF2Prim_abs, binary_normalize_abs. Qed.

Lemma Prim2SF_one : Prim2SF 1%float = S754_finite false 4503599627370496 (-52).
Proof. vm_compute. reflexivity. Qed.

Lemma digits2_iter_xO (m k : positive) :
  Z.pos (digits2_pos (Pos.iter xO m k)) = (Z.pos (digits2_pos m) + Z.pos k)%Z.
Proof.
  induction k as [|k IH] using Pos.peano_ind.
  - simpl. lia.
  - rewrite Pos.iter_succ. simpl digits2_pos. lia.
Qed.

Lemma shr_fexp_shifted (m : positive) (ex : Z) :
  fexp prec emax (Z.pos (digits2_pos m) + ex) = ex ->
  shr_fexp prec emax (Z.pos (Pos.iter xO m 52)) (ex + -52) loc_Exact
  = ({| shr_m := Z.pos m; shr_r := false; shr_s := false |}, ex).
Proof.
  intros Hc. unfold shr_fexp, Zdigits2. rewrite digits2_iter_xO.
  replace (Z.pos (digits2_pos m) + 52 + (ex + -52))%Z
    with (Z.pos (digits2_pos m) + ex)%Z by lia.
  rewrite Hc.
  replace (ex - (ex + -52))%Z with 52%Z by lia.
  cbv beta iota delta [shr].
  replace (ex + -52 + 52)%Z with ex by lia.
  unfold shr_record_of_loc.
  cbv [Pos.iter iter_pos shr_1 shr_m shr_r shr_s orb]. reflexivity.
Qed.

Lemma shr_fexp_canonical (m : positive) (ex : Z) :
  fexp prec emax (Z.pos (digits2_pos m) + ex) = ex ->
  shr_fexp prec emax (Z.pos m) ex loc_Exact
  = ({| shr_m := Z.pos m; shr_r := false; shr_s := false |}, ex).
Proof.
  intros Hc. unfold shr_fexp, Zdigits2. rewrite Hc, Z.sub_diag. reflexivity.
Qed.

Lemma SFmul_one (s : bool) (m : positive) (ex : Z) :
  valid_binary (S754_finite s m ex) = true ->
  SFmul prec emax (S754_finite s m ex) (S754_finite false 4503599627370496 (-52))
  = S754_finite s m ex.
Proof.
  intros Hv.
  unfold valid_binary, bounded, canonical_mantissa in Hv.
  apply andb_true_iff in Hv. destruct Hv as [Hc Hb].
  apply Z.eqb_eq in Hc.
  unfold SFmul. rewrite xorb_false_r.
  rewrite (Pos.mul_comm m 4503599627370496).
  change (4503599627370496 * m)%positive with (Pos.iter xO m 52).
  unfold binary_round_aux.
  rewrite (shr_fexp_shifted m ex Hc).
  cbn [shr_m loc_of_shr_record shr_r shr_s round_nearest_even].
  rewrite (shr_fexp_canonical m ex Hc).
  cbn [shr_m]. now rewrite Hb.
Qed.

(** Multiplying by [1.0] is exact. *)
Lemma mul_one (x : float) : (x * 1)%float = x.
Proof.
  apply Prim2SF_inj. rewrite mul_spec, Prim2SF_one.
  pose proof (Prim2SF_valid x) as Hv.
  destruct (Prim2SF x) as [s|s| |s m ex] eqn:E; try reflexivity.
  - unfold SF64mul, SFmul. now rewrite xorb_false_r.
  - unfold SF64mul, SFmul. now rewrite xorb_false_r.
  - now apply SFmul_one.
Qed.

(** ** Runs of [gyrofrequency] and [plasma_frequency], taken apart *)

Lemma stateless_world {A} (m : M A) (a : A) (w w1 : world) :
  (exists r, forall w0, m w0 = (r, w0)) -> m w = (Ok a, w1) -> w1 = w.
Proof. intros [r Hr] H. rewrite Hr in H. now injection H as _ <-. Qed.

Lemma try_except_ok_inv {A} (m : M A) (ex0 : exn) (a : A) (w w' : world) :
  try_except m (fun _ => raise ex0) w = (Ok a, w') -> m w = (Ok a, w').
Proof.
  unfold try_except, raise. destruct (m w) as [[a0|ex1] w0]; intros H;
    [assumption|discriminate].
Qed.

Lemma int_to_float_ok_inv (z : Z) (qf : float) (w w' : world) :
  int_to_float z w = (Ok qf, w') ->
  qf = Z2float z /\ is_infinity (Z2float z) = false /\ w' = w.
Proof.
  unfold int_to_float. destruct (is_infinity (Z2float z)); [discriminate|].
  unfold ret. intros [= <- <-]. now repeat split.
Qed.

Lemma int_to_float_ok (z : Z) (w : world) :
  is_infinity (Z2float z) = false -> int_to_float z w = (Ok (Z2float z), w).
Proof. intros H. unfold int_to_float. now rewrite H. Qed.

Lemma is_infinity_abs (x : float) : is_infinity (abs x) = is_infinity x.
Proof. unfold is_infinity. now rewrite abs_abs. Qed.

(** The charge as a float after [abs], in terms of the charge as a float. *)
Lemma py_abs_to_float (q q' : pyval) (qf qf' : float) (w w1 w2 w3 w4 : world) :
  to_float q w = (Ok qf, w1) ->
  py_abs q w2 = (Ok q', w3) ->
  to_float q' w3 = (Ok qf', w4) ->
  qf' = abs qf.
Proof.
  destruct q as [k|f|r]; simpl; unfold ret, raise; intros H1 H2 H3;
    try discriminate.
  - apply int_to_float_ok_inv in H1 as (-> & _ & _). injection H2 as <- _.
    simpl in H3. apply int_to_float_ok_inv in H3 as (-> & _ & _).
    now rewrite abs_Z2float.
  - injection H1 as <- _. injection H2 as <- _. simpl in H3. now injection H3 as <- _.
Qed.

(** A magnitude taken by [abs] and turned into a float carries no minus
    sign. *)
Lemma py_abs_float_fix (q q' : pyval) (qf : float) (w w1 w2 w3 : world) :
  py_abs q w = (Ok q', w1) -> to_float q' w2 = (Ok qf, w3) -> abs qf = qf.
Proof.
  destruct q as [k|f|r]; simpl; unfold ret, raise; intros H1 H2; try discriminate;
    injection H1 as <- _; simpl in H2.
  - apply int_to_float_ok_inv in H2 as (-> & _ & _).
    rewrite abs_Z2float. f_equal. lia.
  - injection H2 as <- _. apply abs_abs.
Qed.

(** What [abs] makes of a number that converts: a number that converts,
    to the absolute value. *)
Lemma py_abs_converts (q : pyval) (qf : float) (w w1 : world) :
  to_float q w = (Ok qf, w1) ->
  exists q', py_abs q w = (Ok q', w) /\ to_float q' w = (Ok (abs qf), w).
Proof.
  destruct q as [k|f|r]; simpl; unfold ret, raise; intros H; try discriminate.
  - apply int_to_float_ok_inv in H as (-> & Hf & _).
    exists (PyInt (Z.abs k)). split; [reflexivity|]. simpl.
    rewrite abs_Z2float. apply int_to_float_ok.
    now rewrite <- abs_Z2float, is_infinity_abs.
  - injection H as <- _. exists (PyFloat (abs f)). split; reflexivity.
Qed.

Lemma two_pi_abs : abs (2 * pi)%float = (2 * pi)%float.
Proof. vm_compute. reflexivity. Qed.

(** A run of [gyrofrequency] that returns: its steps and its value. *)
Lemma gyrofrequency_inv (B : float) (particle : string) (signed : bool)
    (Z : option pyval) (to_hz : bool) (r : float) (w w' : world) :
  gyrofrequency B particle signed Z to_hz w = (Ok r, w') ->
  exists (m_i : float) (q q' : pyval) (qf : float),
    particle_mass particle = Ok m_i /\
    _grab_charge particle Z w = (Ok q, w) /\
    (if negb signed then py_abs q else ret q) w = (Ok q', w) /\
    to_float q' w = (Ok qf, w) /\
    r = (if to_hz then (qf * e * abs B / m_i / (2 * pi))%float
         else (qf * e * abs B / m_i)%float) /\
    w' = w /\
    check_value default_checks (Scalar B) w = (Ok tt, w) /\
    check_value default_checks (Scalar r) w = (Ok tt, w).
Proof.
  intros H. unfold gyrofrequency in H.
  apply bind_inv in H. destruct H as (u0 & w0 & H0 & H).
  destruct (check_value_ok_inv _ _ _ _ _ H0) as [-> ->].
  apply bind_inv in H. destruct H as (om & w1 & H1 & H).
  unfold angular_freq_to_hz in H1.
  apply bind_inv in H1. destruct H1 as (om0 & w2 & H1 & Hhz).
  apply bind_inv in H1. destruct H1 as (m_i & w3 & Hm & H1).
  unfold lift in Hm.
  destruct (particle_mass particle) as [m0|ex0] eqn:Em; [|discriminate].
  injection Hm as <- <-.
  apply bind_inv in H1. destruct H1 as (q & w4 & Hq & H1).
  pose proof (stateless_world _ _ _ _ (grab_charge_stateless particle Z) Hq) as ->.
  apply bind_inv in H1. destruct H1 as (q' & w5 & Hq' & H1).
  assert (w5 = w) as ->.
  { destruct signed; simpl in Hq'.
    - unfold ret in Hq'. now injection Hq' as _ <-.
    - exact (stateless_world _ _ _ _ (py_abs_stateless q) Hq'). }
  apply bind_inv in H1. destruct H1 as (qf & w6 & Hqf & H1).
  pose proof (stateless_world _ _ _ _ (to_float_stateless q') Hqf) as ->.
  unfold ret in H1, Hhz. injection H1 as <- <-. injection Hhz as <- <-.
  apply bind_inv in H. destruct H as (u7 & w7 & H7 & H).
  destruct (check_value_ok_inv _ _ _ _ _ H7) as [-> ->].
  unfold ret in H. injection H as <- <-.
  exists m0, q, q', qf. repeat split; try assumption; reflexivity.
Qed.

(** The converse: steps that succeed make the call return. *)
Lemma gyrofrequency_intro (B : float) (particle : string) (signed : bool)
    (Z : option pyval) (to_hz : bool) (m_i : float) (q q' : pyval) (qf : float)
    (w : world) :
  particle_mass particle = Ok m_i ->
  _grab_charge particle Z w = (Ok q, w) ->
  (if negb signed then py_abs q else ret q) w = (Ok q', w) ->
  to_float q' w = (Ok qf, w) ->
  let r := if to_hz then (qf * e * abs B / m_i / (2 * pi))%float
           else (qf * e * abs B / m_i)%float in
  check_value default_checks (Scalar B) w = (Ok tt, w) ->
  check_value default_checks (Scalar r) w = (Ok tt, w) ->
  gyrofrequency B particle signed Z to_hz w = (Ok r, w).
Proof.
  intros Hm Hq Hq' Hqf r HB Hr. unfold gyrofrequency.
  rewrite (bind_ok _ _ _ _ _ HB).
  rewrite (bind_ok _ _ w w r); [now rewrite (bind_ok _ _ _ _ _ Hr)|].
  unfold angular_freq_to_hz.
  rewrite (bind_ok _ _ w w (qf * e * abs B / m_i)%float); [reflexivity|].
  rewrite (bind_ok _ _ w w m_i) by (unfold lift; now rewrite Hm).
  rewrite (bind_ok _ _ _ _ _ Hq), (bind_ok _ _ _ _ _ Hq'), (bind_ok _ _ _ _ _ Hqf).
  reflexivity.
Qed.

Lemma bind_congr_l {A B} (m1 m2 : M A) (k : A -> M B) (w : world) :
  m1 w = m2 w -> bind m1 k w = bind m2 k w.
Proof. intros H. unfold bind. now rewrite H. Qed.

(** ** Gyrofrequency: sign conventions and field direction *)

(** X1: with an elementary charge and a particle mass that carry no minus
    sign, the unsigned gyrofrequency is the absolute value of the signed
    one (whatever the charge, override or not, in rad/s or in Hz), and so
    it is never negative. *)
Theorem gyrofrequency_unsigned_is_abs_signed :
  forall (B : float) (particle : string) (Z : option pyval) (to_hz : bool)
         (m_i s : float) (w : world),
    abs e = e ->
    particle_mass particle = Ok m_i ->
    abs m_i = m_i ->
    gyrofrequency B particle true Z to_hz w = (Ok s, w) ->
    check_value default_checks (Scalar (abs s)) w = (Ok tt, w) ->
    gyrofrequency B particle false Z to_hz w = (Ok (abs s), w) /\
    (abs s <? 0)%float = false.
Proof.
  intros B particle Z to_hz m_i s w He Hm Hmi Hs Hret.
  split; [|apply abs_fix_nonneg, abs_abs].
  destruct (gyrofrequency_inv _ _ _ _ _ _ _ _ Hs)
    as (m0 & q & q' & qf & Hm0 & Hq & Hq' & Hqf & Hr & _ & HB & _).
  rewrite Hm in Hm0. injection Hm0 as <-.
  simpl in Hq'. unfold ret in Hq'. injection Hq' as <-.
  assert (Habs : abs s = if to_hz then (abs qf * e * abs B / m_i / (2 * pi))%float
                         else (abs qf * e * abs B / m_i)%float).
  { rewrite Hr. destruct to_hz.
    - now rewrite !abs_div, two_pi_abs, !abs_mul, abs_abs, He, Hmi.
    - now rewrite !abs_div, !abs_mul, abs_abs, He, Hmi. }
  rewrite Habs in *.
  destruct (py_abs_converts _ _ _ _ Hqf) as (q'' & Hq1 & Hq2).
  exact (gyrofrequency_intro B particle false Z to_hz m_i q q'' (abs qf) w
           Hm Hq Hq1 Hq2 HB Hret).
Qed.

Lemma gyrofrequency_opp (B : float) (particle : string) (signed : bool)
    (Z : option pyval) (to_hz : bool) (w0 w : world) :
  check_value default_checks (Scalar B) w0 = (Ok tt, w0) ->
  check_value default_checks (Scalar (- B)%float) w0 = (Ok tt, w0) ->
  gyrofrequency (- B) particle signed Z to_hz w
  = gyrofrequency B particle signed Z to_hz w.
Proof.
  intros HB HnB. unfold gyrofrequency.
  rewrite (bind_ok _ _ _ _ _ (check_value_ok_any _ _ _ _ w HB)).
  rewrite (bind_ok _ _ _ _ _ (check_value_ok_any _ _ _ _ w HnB)).
  now rewrite abs_opp.
Qed.

(** X2: when [B] and [-B] both pass validation, reversing the field changes
    nothing: [gyrofrequency], [upper_hybrid_frequency],
    [lower_hybrid_frequency], [magnetic_pressure],
    [magnetic_energy_density], [Alfven_speed] and [gyroradius] give for
    [-B] exactly what they give for [B], errors and log included. *)
Theorem field_direction_is_irrelevant :
  forall (B : float) (w : world),
    check_value default_checks (Scalar B) w = (Ok tt, w) ->
    check_value default_checks (Scalar (- B)%float) w = (Ok tt, w) ->
    (forall particle signed Z to_hz,
       gyrofrequency (- B) particle signed Z to_hz w
       = gyrofrequency B particle signed Z to_hz w) /\
    (forall n_e to_hz,
       upper_hybrid_frequency (- B) n_e to_hz w = upper_hybrid_frequency B n_e to_hz w) /\
    (forall n_i ion to_hz,
       lower_hybrid_frequency (- B) n_i ion to_hz w
       = lower_hybrid_frequency B n_i ion to_hz w) /\
    magnetic_pressure (- B) w = magnetic_pressure B w /\
    magnetic_energy_density (- B) w = magnetic_energy_density B w /\
    (forall density ion z_mean,
       Alfven_speed (- B) density ion z_mean w = Alfven_speed B density ion z_mean w) /\
    (forall particle Vperp T_i,
       gyroradius (- B) particle Vperp T_i w = gyroradius B particle Vperp T_i w).
Proof.
  intros B w HB HnB.
  assert (Hmp : magnetic_pressure (- B) w = magnetic_pressure B w).
  { unfold magnetic_pressure.
    rewrite (bind_ok _ _ _ _ _ HB), (bind_ok _ _ _ _ _ HnB).
    now rewrite mul_opp_opp. }
  split; [|split; [|split; [|split; [exact Hmp|split; [|split]]]]].
  - intros. now apply (gyrofrequency_opp B particle signed Z to_hz w w).
  - intros n_e to_hz. unfold upper_hybrid_frequency.
    rewrite (bind_ok _ _ _ _ _ HB), (bind_ok _ _ _ _ _ HnB).
    apply bind_congr; intros [] w1 _.
    apply bind_congr_l. unfold angular_freq_to_hz. apply bind_congr_l.
    apply bind_congr; intros omega_pe w2 _.
    apply bind_congr_l. now apply (gyrofrequency_opp B _ _ _ _ w w2).
  - intros n_i ion to_hz. unfold lower_hybrid_frequency.
    rewrite (bind_ok _ _ _ _ _ HB), (bind_ok _ _ _ _ _ HnB).
    apply bind_congr; intros [] w1 _.
    apply bind_congr_l. unfold angular_freq_to_hz. apply bind_congr_l.
    apply bind_congr; intros [] w2 _.
    rewrite (bind_congr_l _ _ _ _ (gyrofrequency_opp B ion false None false w w2 HB HnB)).
    apply bind_congr; intros omega_ci w3 _.
    apply bind_congr; intros omega_pi w4 _.
    apply bind_congr_l. now apply (gyrofrequency_opp B _ _ _ _ w w4).
  - unfold magnetic_energy_density.
    rewrite (bind_ok _ _ _ _ _ HB), (bind_ok _ _ _ _ _ HnB).
    now apply bind_congr_l.
  - intros density ion z_mean. unfold Alfven_speed. apply check_relativistic_ext.
    unfold Alfven_speed_wrapped.
    rewrite (bind_ok _ _ _ _ _ HB), (bind_ok _ _ _ _ _ HnB).
    now rewrite abs_opp.
  - intros particle Vperp T_i. unfold gyroradius.
    apply bind_congr; intros vV w1 HvV. unfold load in HvV. injection HvV as _ <-.
    apply bind_congr; intros vT w1 HvT. unfold load in HvT. injection HvT as _ <-.
    rewrite (bind_ok _ _ _ _ _ HB), (bind_ok _ _ _ _ _ HnB).
    do 3 (apply bind_congr; intros [] ? _).
    apply bind_congr; intros Vp w5 _.
    apply bind_congr_l. now apply (gyrofrequency_opp B _ _ _ _ w w5).
Qed.

(** ** Plasma frequency: sign of the charge and of the result *)

Lemma try_except_congr {A} (m1 m2 : M A) (h : exn -> M A) (w : world) :
  m1 w = m2 w -> try_except m1 h w = try_except m2 h w.
Proof. intros H. unfold try_except. now rewrite H. Qed.

Lemma np_abs_float_fix (q q' : pyval) (qf : float) (w w1 w2 w3 : world) :
  q <> PyInt int64_min ->
  np_abs q w = (Ok q', w1) -> to_float q' w2 = (Ok qf, w3) -> abs qf = qf.
Proof.
  destruct q as [k|f|r]; simpl; unfold ret, raise; intros Hq H1 H2;
    try discriminate; injection H1 as <- _; simpl in H2.
  - apply int_to_float_ok_inv in H2 as (-> & _ & _).
    destruct (Z.eqb_spec k int64_min) as [->|_]; [congruence|].
    rewrite abs_Z2float. f_equal. lia.
  - injection H2 as <- _. apply abs_abs.
Qed.

(** X3: with an elementary charge that is not negative, a plasma frequency
    that is returned is never negative, whatever the particle, the sign of
    its charge or of the charge override, in rad/s or in Hz, unless the
    charge is the least [int64], where NumPy's absolute value wraps
    around. *)
Theorem plasma_frequency_never_negative :
  forall (n : float) (particle : string) (z_mean : option pyval) (to_hz : bool)
         (omega : float) (w w' : world),
    (e <? 0)%float = false ->
    z_mean <> Some (PyInt int64_min) ->
    (z_mean = None -> integer_charge particle <> Ok int64_min) ->
    plasma_frequency n particle z_mean to_hz w = (Ok omega, w') ->
    (omega <? 0)%float = false.
Proof.
  intros n particle z_mean to_hz omega w w' He Hz Hc H.
  unfold plasma_frequency, angular_freq_to_hz in H.
  apply bind_inv in H as ([] & w1 & _ & H).
  apply bind_inv in H as (om & w2 & H2 & H).
  apply bind_inv in H as ([] & w3 & _ & H).
  unfold ret in H. injection H as <- _.
  apply bind_inv in H2 as (om0 & w4 & H4 & H2).
  unfold ret in H2. injection H2 as <- _.
  apply bind_inv in H4 as ([m q'] & w5 & H5 & H4).
  apply try_except_ok_inv in H5.
  apply bind_inv in H5 as (m0 & w6 & _ & H5).
  apply bind_inv in H5 as (q & w7 & Hq & H5).
  apply bind_inv in H5 as (q0 & w8 & Habs & H5).
  unfold ret in H5. injection H5 as -> -> _.
  apply bind_inv in H4 as (qf & w9 & Hqf & H4).
  unfold ret in H4. injection H4 as <- _.
  simpl in Hqf.
  assert (Hne : q <> PyInt int64_min).
  { destruct z_mean as [z|].
    - unfold ret in Hq. injection Hq as <- _. congruence.
    - specialize (Hc eq_refl). unfold try_except, bind, lift, ret in Hq.
      destruct (integer_charge particle) as [k|ex]; injection Hq as <- _;
        [congruence|discriminate]. }
  pose proof (np_abs_float_fix _ _ _ _ _ _ _ Hne Habs Hqf) as Hfix.
  assert (Hraw : (qf * e * sqrt (n / (eps0 * fst (m, q'))) <? 0)%float = false).
  { apply nonneg_mul; [apply nonneg_mul; [now apply abs_fix_nonneg|exact He]
                      |apply nonneg_sqrt]. }
  destruct to_hz; [|exact Hraw].
  apply nonneg_div; [exact Hraw|exact two_pi_abs].
Qed.

(** X4: only the magnitude of the charge override enters the plasma
    frequency: an override [-z] gives exactly what [z] gives, for a float
    override, and for an integer override other than [2^63] and [-2^63]:
    of these two only the negative one is an [int64], whose absolute value
    wraps around. *)
Theorem plasma_frequency_charge_sign_irrelevant :
  forall (n : float) (particle : string) (to_hz : bool) (w : world),
    (forall z : float,
       plasma_frequency n particle (Some (PyFloat (- z))) to_hz w
       = plasma_frequency n particle (Some (PyFloat z)) to_hz w) /\
    (forall k : Z,
       k <> int64_min -> k <> (- int64_min)%Z ->
       plasma_frequency n particle (Some (PyInt (- k))) to_hz w
       = plasma_frequency n particle (Some (PyInt k)) to_hz w).
Proof.
  intros n particle to_hz w. split; [intros z|intros k Hk1 Hk2];
    unfold plasma_frequency;
    apply bind_congr; intros [] w1 _; apply bind_congr_l;
    unfold angular_freq_to_hz; apply bind_congr_l; apply bind_congr_l;
    apply try_except_congr;
    apply bind_congr; intros m w2 _; unfold bind, ret; simpl.
  - now rewrite abs_opp.
  - assert ((- k =? int64_min)%Z = false) as -> by (apply Z.eqb_neq; lia).
    assert ((k =? int64_min)%Z = false) as -> by (now apply Z.eqb_neq).
    now rewrite Z.abs_opp.
Qed.

(** ** The charge override *)

Lemma grab_charge_own (ion : string) (k : Z) (w : world) :
  integer_charge ion = Ok k ->
  _grab_charge ion (Some (PyInt k)) w = _grab_charge ion None w.
Proof. intros H. unfold _grab_charge, bind, lift, ret. now rewrite H. Qed.

Ltac congr_step :=
  first [ reflexivity
        | apply bind_congr; intros ? ? _
        | apply bind_congr_l
        | apply check_relativistic_ext
        | apply try_except_congr ].

Lemma mass_density_own_charge (density : density_quantity) (p : string) (k : Z)
    (w : world) :
  integer_charge p = Ok k ->
  mass_density density (Some p) (Some (PyInt k)) w = mass_density density (Some p) None w.
Proof.
  intros Hk. unfold mass_density. do 2 congr_step.
  destruct (is_mass_density (units density)); [reflexivity|].
  destruct (String.eqb p ""); [reflexivity|].
  do 2 congr_step. now apply grab_charge_own.
Qed.

(** X5: a charge override equal to the particle's own integer charge changes
    nothing: [gyrofrequency], [plasma_frequency], [mass_density],
    [Alfven_speed] and [ion_sound_speed] give exactly what they give
    without the override, errors and warnings included. *)
Theorem own_charge_override_is_default :
  forall (p : string) (k : Z) (w : world),
    integer_charge p = Ok k ->
    (forall B signed to_hz,
       gyrofrequency B p signed (Some (PyInt k)) to_hz w
       = gyrofrequency B p signed None to_hz w) /\
    (forall n to_hz,
       plasma_frequency n p (Some (PyInt k)) to_hz w = plasma_frequency n p None to_hz w) /\
    (forall density,
       mass_density density (Some p) (Some (PyInt k)) w
       = mass_density density (Some p) None w) /\
    (forall B density,
       Alfven_speed B density p (Some (PyInt k)) w = Alfven_speed B density p None w) /\
    (forall T_e T_i n_e kk gamma_e gamma_i,
       ion_sound_speed T_e T_i n_e kk gamma_e gamma_i p (Some (PyInt k)) w
       = ion_sound_speed T_e T_i n_e kk gamma_e gamma_i p None w).
Proof.
  intros p k w Hk. split; [|split; [|split; [|split]]].
  - intros B signed to_hz. unfold gyrofrequency, angular_freq_to_hz.
    do 5 congr_step. now apply grab_charge_own.
  - intros n to_hz. unfold plasma_frequency, angular_freq_to_hz.
    do 7 congr_step. unfold try_except, bind, lift, ret. now rewrite Hk.
  - intros density. now apply mass_density_own_charge.
  - intros B density. unfold Alfven_speed, Alfven_speed_wrapped.
    do 4 congr_step. now apply mass_density_own_charge.
  - intros T_e T_i n_e kk gamma_e gamma_i.
    unfold ion_sound_speed, ion_sound_speed_wrapped.
    do 7 congr_step. now apply grab_charge_own.
Qed.

(** ** [Alfven_speed] and [mass_density] *)

Lemma bind_stateless {A B} (m : M A) (k : A -> M B) :
  (exists r, forall w, m w = (r, w)) ->
  (forall a, exists r, forall w, k a w = (r, w)) ->
  exists r, forall w, bind m k w = (r, w).
Proof.
  intros [[a|ex] Hm] Hk.
  - destruct (Hk a) as [r Hr]. exists r. intros w. unfold bind. now rewrite Hm.
  - exists (Raise ex). intros w. unfold bind. now rewrite Hm.
Qed.

Lemma ret_stateless {A} (a : A) : exists r, forall w, ret a w = (r, w).
Proof. eexists; reflexivity. Qed.

Lemma raise_stateless {A} (ex : exn) : exists r, forall w, @raise A ex w = (r, w).
Proof. eexists; reflexivity. Qed.

Lemma mass_density_stateless (density : density_quantity) (particle : option string)
    (z_mean : option pyval) :
  exists r, forall w, mass_density density particle z_mean w = (r, w).
Proof.
  unfold mass_density.
  apply bind_stateless; [apply check_value_stateless|intros _].
  apply bind_stateless;
    [|intros rho; apply bind_stateless;
      [apply check_value_stateless|intros _; apply ret_stateless]].
  destruct (is_mass_density (units density)); [apply ret_stateless|].
  destruct particle as [p|]; [|apply raise_stateless].
  destruct (String.eqb p ""); [apply raise_stateless|].
  apply bind_stateless; [apply lift_stateless|intros m_i].
  apply bind_stateless; [apply grab_charge_stateless|intros q].
  apply bind_stateless; [apply to_float_stateless|intros qf].
  apply ret_stateless.
Qed.

(** A run of [mass_density] that returns: both validations passed and
    nothing was logged. *)
Lemma mass_density_ok_inv (density : density_quantity) (particle : option string)
    (z_mean : option pyval) (rho : float) (w w' : world) :
  mass_density density particle z_mean w = (Ok rho, w') ->
  w' = w /\
  (forall w2, mass_density density particle z_mean w2 = (Ok rho, w2)) /\
  (forall w2, check_value (with_negative false default_checks)
                (Scalar (value density)) w2 = (Ok tt, w2)) /\
  (forall w2, check_value (with_negative false default_checks) (Scalar rho) w2
              = (Ok tt, w2)).
Proof.
  intros H.
  destruct (mass_density_stateless density particle z_mean) as [r Hr].
  pose proof H as H0. rewrite Hr in H0. injection H0 as -> <-.
  split; [reflexivity|]. split; [exact Hr|].
  unfold mass_density in H.
  apply bind_inv in H as ([] & w1 & H1 & H).
  apply bind_inv in H as (rho0 & w2 & _ & H).
  apply bind_inv in H as ([] & w3 & H3 & H).
  unfold ret in H. injection H as <- _.
  split; intros w4; eapply check_value_ok_any; eassumption.
Qed.

(** X6: the Alfven speed for a number density and an ion is the Alfven
    speed for the mass density that [mass_density] gives for them:
    [Alfven_speed(B, n, ion) = Alfven_speed(B, rho, ion)], relativity guard
    and warnings included. *)
Theorem Alfven_speed_through_mass_density :
  forall (B : float) (density : density_quantity) (ion : string)
         (z_mean : option pyval) (rho : float) (w w' : world),
    mass_density density (Some ion) z_mean w = (Ok rho, w') ->
    Alfven_speed B density ion z_mean w
    = Alfven_speed B (mkDensity rho kg_per_m3) ion z_mean w.
Proof.
  intros B density ion z_mean rho w w' H.
  destruct (mass_density_ok_inv _ _ _ _ _ _ H) as (_ & Hrho & Hd & Hr).
  unfold Alfven_speed. apply check_relativistic_ext. unfold Alfven_speed_wrapped.
  apply bind_congr; intros [] w1 _.
  rewrite (bind_ok _ _ _ _ _ (Hd w1)). simpl value.
  rewrite (bind_ok _ _ _ _ _ (Hr w1)).
  rewrite (bind_ok _ _ _ _ _ (Hrho w1)).
  assert (Hkg : mass_density (mkDensity rho kg_per_m3) (Some ion) z_mean w1
                = (Ok rho, w1)).
  { unfold mass_density. cbv beta iota delta [units value is_mass_density].
    rewrite (bind_ok _ _ _ _ _ (Hr w1)).
    rewrite (bind_ok (ret rho) _ w1 w1 rho eq_refl).
    now rewrite (bind_ok _ _ _ _ _ (Hr w1)). }
  now rewrite (bind_ok _ _ _ _ _ Hkg).
Qed.

(** X7: given a mass density, [Alfven_speed] uses neither the ion nor the
    charge override: any two choices of them give the same outcome, even a
    name that is no particle. *)
Theorem Alfven_speed_mass_density_ignores_ion :
  forall (B : float) (density : density_quantity) (ion ion' : string)
         (z_mean z_mean' : option pyval) (w : world),
    units density = kg_per_m3 ->
    Alfven_speed B density ion z_mean w = Alfven_speed B density ion' z_mean' w.
Proof.
  intros B density ion ion' z_mean z_mean' w Hu.
  unfold Alfven_speed. apply check_relativistic_ext. unfold Alfven_speed_wrapped.
  do 2 (apply bind_congr; intros [] ? _).
  apply bind_congr_l. unfold mass_density. rewrite Hu. reflexivity.
Qed.

(** ** Pressures *)

Lemma check_value_nonneg (ck : checks) (x : float) (w w' : world) (u : unit) :
  check_value (with_negative false ck) (Scalar x) w = (Ok u, w') ->
  (x <? 0)%float = false.
Proof.
  unfold check_value. simpl. destruct (x <? 0)%float; [discriminate|reflexivity].
Qed.

Lemma magnetic_pressure_inv (B p : float) (w w' : world) :
  magnetic_pressure B w = (Ok p, w') ->
  p = ((B * B) / (2 * mu0))%float /\ w' = w /\
  check_value default_checks (Scalar p) w = (Ok tt, w).
Proof.
  intros H. unfold magnetic_pressure in H.
  apply bind_inv in H as ([] & w1 & H1 & H).
  apply bind_inv in H as ([] & w2 & H2 & H).
  unfold ret in H. injection H as <- <-.
  destruct (check_value_ok_inv _ _ _ _ _ H1) as [-> _].
  destruct (check_value_ok_inv _ _ _ _ _ H2) as [-> _].
  now split; [|split].
Qed.

(** X8: [magnetic_energy_density] is [magnetic_pressure]: for every field and
    in every state the two give the same outcome, the same value or the
    same error; the second validation of the wrapper never rejects what the
    first let through. *)
Theorem magnetic_energy_density_is_magnetic_pressure :
  forall (B : float) (w : world),
    magnetic_energy_density B w = magnetic_pressure B w.
Proof.
  intros B w. unfold magnetic_energy_density.
  destruct (check_value default_checks (Scalar B) w) as [[[]|ex] w1] eqn:HB.
  - destruct (check_value_ok_inv _ _ _ _ _ HB) as [-> _].
    rewrite (bind_ok _ _ _ _ _ HB).
    destruct (magnetic_pressure B w) as [[p|ex] w1] eqn:Hp.
    + rewrite (bind_ok _ _ _ _ _ Hp).
      destruct (magnetic_pressure_inv _ _ _ _ Hp) as (_ & -> & Hc).
      now rewrite (bind_ok _ _ _ _ _ Hc).
    + now rewrite (bind_raise _ _ _ _ _ Hp).
  - rewrite (bind_raise _ _ _ _ _ HB). unfold magnetic_pressure.
    now rewrite (bind_raise _ _ _ _ _ HB).
Qed.

Lemma abs_two : abs 2 = 2%float.
Proof. vm_compute. reflexivity. Qed.

(** X9: with a vacuum permeability that carries no minus sign, a magnetic
    pressure that is returned is never negative, whatever the sign of the
    field. *)
Theorem magnetic_pressure_never_negative :
  forall (B p : float) (w w' : world),
    abs mu0 = mu0 ->
    magnetic_pressure B w = (Ok p, w') ->
    (p <? 0)%float = false.
Proof.
  intros B p w w' Hmu H.
  destruct (magnetic_pressure_inv _ _ _ _ H) as (-> & _ & _).
  apply nonneg_div.
  - apply abs_fix_nonneg, abs_square.
  - now rewrite abs_mul, abs_two, Hmu.
Qed.

(** X10: with a Boltzmann constant that is not negative, a thermal pressure
    that is returned is never negative: negative temperatures and densities
    are rejected before the product is formed. *)
Theorem thermal_pressure_never_negative :
  forall (T n p : float) (w w' : world),
    (k_B <? 0)%float = false ->
    thermal_pressure T n w = (Ok p, w') ->
    (p <? 0)%float = false.
Proof.
  intros T n p w w' Hk H. unfold thermal_pressure in H.
  apply bind_inv in H as (u1 & w1 & H1 & H).
  apply bind_inv in H as (u2 & w2 & H2 & H).
  apply bind_inv in H as (u3 & w3 & _ & H).
  unfold ret in H. injection H as <- _.
  apply check_value_nonneg in H1, H2.
  now repeat apply nonneg_mul.
Qed.

(** ** Thermal speeds: methods and the kappa guard *)

Lemma thermal_speed_inv (T : nd float) (particle method : string) (mass : float)
    (v : nd float) (w w' : world) :
  thermal_speed T particle method mass w = (Ok v, w') ->
  thermal_speed_wrapped T particle method mass w = (Ok v, w) /\
  (c <=? max_magnitude v)%float = false /\
  w' = (if (0.05 * c <=? max_magnitude v)%float then emit [RelativityWarning] w else w) /\
  v <> Array [].
Proof.
  intros H. unfold thermal_speed in H.
  apply check_relativistic_ok_inv in H as (w0 & Hraw & Hne & Hc & ->).
  pose proof (stateless_world _ _ _ _ (thermal_speed_wrapped_stateless _ _ _ _) Hraw)
    as ->.
  now repeat split.
Qed.

Lemma thermal_speed_wrapped_inv (T : nd float) (particle method : string)
    (mass : float) (v : nd float) (w w' : world) :
  thermal_speed_wrapped T particle method mass w = (Ok v, w') ->
  (forall w2, check_value (with_negative false default_checks) T w2 = (Ok tt, w2)) /\
  (forall w2, check_value default_checks v w2 = (Ok tt, w2)).
Proof.
  intros H. unfold thermal_speed_wrapped in H.
  apply bind_inv in H as ([] & w1 & H1 & H).
  apply bind_inv in H as (u2 & w2 & _ & H).
  apply bind_inv in H as (u3 & w3 & _ & H).
  apply bind_inv in H as (m & w4 & _ & H).
  apply bind_inv in H as (V & w5 & _ & H).
  apply bind_inv in H as ([] & w6 & H6 & H).
  unfold ret in H. injection H as <- _.
  split; intros w7; eapply check_value_ok_any; eassumption.
Qed.

Lemma nd_map_mul_one (v : nd float) : nd_map (fun x => x * 1)%float v = v.
Proof.
  destruct v as [x|xs]; simpl; [now rewrite mul_one|].
  f_equal. induction xs as [|x xs IH]; simpl; [reflexivity|].
  now rewrite mul_one, IH.
Qed.

(** X11: a method other than the three known ones makes [thermal_speed]
    fail, once the arguments are valid and the mass is resolved, with a
    [ValueError] whose text holds the placeholder [{method}] itself, not the
    method given; nothing is logged.  [kappa_thermal_speed] with a valid
    [kappa] fails the same way. *)
Theorem thermal_speed_unknown_method :
  forall (T : nd float) (particle method : string) (mass : float) (w : world),
    check_value (with_negative false default_checks) T w = (Ok tt, w) ->
    (mass <? 0)%float = false ->
    Particle particle = Ok tt ->
    (is_finite mass = true \/ exists m, particle_mass particle = Ok m) ->
    method <> "most_probable" -> method <> "rms" -> method <> "mean_magnitude" ->
    thermal_speed T particle method mass w
    = (Raise (ValueError "Method {method} not supported in thermal_speed"), w) /\
    (is_finite mass = false ->
     forall kappa, (kappa <=? 3 / 2)%float = false ->
       kappa_thermal_speed T kappa particle method w
       = (Raise (ValueError "Method {method} not supported in thermal_speed"), w)).
Proof.
  intros T particle method mass w HT Hmass HP Hm H1 H2 H3.
  apply String.eqb_neq in H1, H2, H3.
  assert (Hw : forall mass0, (mass0 <? 0)%float = false ->
             (is_finite mass0 = true \/ exists m, particle_mass particle = Ok m) ->
             thermal_speed_wrapped T particle method mass0 w
             = (Raise (ValueError "Method {method} not supported in thermal_speed"), w)).
  { intros mass0 Hneg Hres. unfold thermal_speed_wrapped.
    rewrite (bind_ok _ _ _ _ _ HT).
    rewrite (bind_ok _ _ w w tt) by (rewrite mass_check; now rewrite Hneg).
    rewrite (bind_ok _ _ w w tt) by (unfold lift; now rewrite HP).
    assert (Hres' : exists m, (if is_finite mass0 then ret mass0
                               else lift (particle_mass particle)) w = (Ok m, w)).
    { destruct (is_finite mass0) eqn:E.
      - now exists mass0.
      - destruct Hres as [Hf|[m Hpm]]; [discriminate|]. exists m. unfold lift.
        now rewrite Hpm. }
    destruct Hres' as [m Hres']. rewrite (bind_ok _ _ _ _ _ Hres').
    apply bind_raise. unfold V_by_method. now rewrite H1, H2, H3. }
  split.
  - unfold thermal_speed, check_relativistic. apply bind_raise. now apply Hw.
  - intros Hnf kappa Hk. unfold kappa_thermal_speed, check_relativistic.
    apply bind_raise. unfold kappa_thermal_speed_wrapped.
    rewrite (bind_ok _ _ _ _ _ HT). rewrite Hk.
    rewrite (bind_ok (ret tt) _ w w tt eq_refl).
    apply bind_raise. unfold thermal_speed, check_relativistic. apply bind_raise.
    apply Hw; [vm_compute; reflexivity|].
    right. destruct Hm as [Hf|Hm]; [congruence|exact Hm].
Qed.

(** X12: [kappa_thermal_speed] returns only for a [kappa] that is not at or
    below 3/2; for a valid temperature and a [kappa] at or below 3/2 it
    fails with its [ValueError], naming [kappa], before the particle or the
    method are looked at, and logs nothing. *)
Theorem kappa_thermal_speed_guard :
  forall (T : nd float) (kappa : float) (particle method : string) (w : world),
    (forall v w', kappa_thermal_speed T kappa particle method w = (Ok v, w') ->
                  (kappa <=? 3 / 2)%float = false) /\
    (check_value (with_negative false default_checks) T w = (Ok tt, w) ->
     (kappa <=? 3 / 2)%float = true ->
     kappa_thermal_speed T kappa particle method w
     = (Raise (ValueError ("Must have kappa > 3/2, instead of " ++ format_float kappa
                           ++ ", for kappa distribution function to be valid.")), w)).
Proof.
  intros T kappa particle method w. split.
  - intros v w' H. unfold kappa_thermal_speed, check_relativistic in H.
    apply bind_inv in H as (v0 & w0 & H & _).
    unfold kappa_thermal_speed_wrapped in H.
    apply bind_inv in H as (u1 & w1 & _ & H).
    apply bind_inv in H as (u2 & w2 & H2 & _).
    destruct (kappa <=? 3 / 2)%float; [discriminate|reflexivity].
  - intros HT Hk. unfold kappa_thermal_speed, check_relativistic.
    apply bind_raise. unfold kappa_thermal_speed_wrapped.
    rewrite (bind_ok _ _ _ _ _ HT). rewrite Hk. reflexivity.
Qed.

(** X13: for a method other than [most_probable], [kappa_thermal_speed] with
    any [kappa] past the guard returns the value of [thermal_speed]
    unchanged, bit for bit; the relativity guard runs a second time, so a
    speed in the warning range is logged twice. *)
Theorem kappa_thermal_speed_other_methods :
  forall (T : nd float) (kappa : float) (particle method : string)
         (v : nd float) (w w1 : world),
    method <> "most_probable" ->
    (kappa <=? 3 / 2)%float = false ->
    thermal_speed T particle method nan w = (Ok v, w1) ->
    kappa_thermal_speed T kappa particle method w
    = (Ok v, if (0.05 * c <=? max_magnitude v)%float
             then emit [RelativityWarning; RelativityWarning] w else w).
Proof.
  intros T kappa particle method v w w1 Hmeth Hk Hts.
  apply String.eqb_neq in Hmeth.
  destruct (thermal_speed_inv _ _ _ _ _ _ _ Hts) as (Hraw & Hc & Hw1 & Hne).
  destruct (thermal_speed_wrapped_inv _ _ _ _ _ _ _ Hraw) as (HT & Hv).
  assert (Hkw : kappa_thermal_speed_wrapped T kappa particle method w = (Ok v, w1)).
  { unfold kappa_thermal_speed_wrapped.
    rewrite (bind_ok _ _ _ _ _ (HT w)). rewrite Hk.
    rewrite (bind_ok (ret tt) _ w w tt eq_refl).
    rewrite (bind_ok _ _ _ _ _ Hts). rewrite Hmeth, nd_map_mul_one.
    now rewrite (bind_ok _ _ _ _ _ (Hv w1)). }
  unfold kappa_thermal_speed.
  rewrite (check_relativistic_ok_intro _ v w w1 Hkw Hne Hc). rewrite Hw1.
  destruct (0.05 * c <=? max_magnitude v)%float; [|reflexivity].
  unfold emit. simpl. now rewrite <- app_assoc.
Qed.

(** ** The adiabatic indices of [ion_sound_speed] *)

Lemma check_gamma_world (gamma : pyval) (particles : string) (w : world) :
  snd (check_gamma gamma particles w) = w.
Proof.
  unfold check_gamma. destruct (negb (is_real gamma)); [reflexivity|].
  now destruct (lt_one gamma).
Qed.

Lemma check_gamma_ok_inv (gamma : pyval) (particles : string) (w w' : world)
    (u : unit) :
  check_gamma gamma particles w = (Ok u, w') ->
  is_real gamma = true /\ lt_one gamma = false.
Proof.
  unfold check_gamma. destruct (is_real gamma); simpl; [|discriminate].
  destruct (lt_one gamma); [discriminate|]. now split.
Qed.

(** X14: the adiabatic indices are checked after the ion is resolved and
    before the dispersion term: with valid quantities and a resolved ion, an
    index that is no real number fails with [TypeError] and a real index
    below one with [PhysicsError], the electrons' index first; the failing
    call logs nothing, also when only one of [n_e] and [k] is given.  A call
    that returns had two real indices, neither below one. *)
Theorem ion_sound_speed_gamma_domain :
  forall (T_e T_i : float) (n_e k : option float) (gamma_e gamma_i : pyval)
         (ion : string) (z_mean : option pyval) (m_i : float) (q : pyval) (w : world),
    check_value (with_negative false default_checks) (Scalar T_e) w = (Ok tt, w) ->
    check_value (with_negative false default_checks) (Scalar T_i) w = (Ok tt, w) ->
    check_optional (with_none true (with_negative false default_checks)) n_e w
    = (Ok tt, w) ->
    check_optional (with_none true (with_negative false default_checks)) k w
    = (Ok tt, w) ->
    particle_mass ion = Ok m_i ->
    _grab_charge ion z_mean w = (Ok q, w) ->
    let run := ion_sound_speed T_e T_i n_e k gamma_e gamma_i ion z_mean w in
    (is_real gamma_e = false ->
     run = (Raise (TypeError ("The adiabatic index gamma for electrons"
                              ++ " must be a float or int")), w)) /\
    (is_real gamma_e = true -> lt_one gamma_e = true ->
     run = (Raise (PhysicsError ("The adiabatic index for electrons"
                                 ++ " must be between one and infinity")), w)) /\
    (is_real gamma_e = true -> lt_one gamma_e = false -> is_real gamma_i = false ->
     run = (Raise (TypeError ("The adiabatic index gamma for ions"
                              ++ " must be a float or int")), w)) /\
    (is_real gamma_e = true -> lt_one gamma_e = false ->
     is_real gamma_i = true -> lt_one gamma_i = true ->
     run = (Raise (PhysicsError ("The adiabatic index for ions"
                                 ++ " must be between one and infinity")), w)) /\
    (forall v w', run = (Ok v, w') ->
       is_real gamma_e = true /\ lt_one gamma_e = false /\
       is_real gamma_i = true /\ lt_one gamma_i = false).
Proof.
  intros T_e T_i n_e k gamma_e gamma_i ion z_mean m_i q w HTe HTi Hn Hk Hm Hq run.
  assert (Hrun : run = check_relativistic
                   (check_gamma gamma_e "electrons" ;;;
                    check_gamma gamma_i "ions" ;;;
                    klD2 <- dispersion T_e n_e k ;;
                    V_S <- V_S_step gamma_e q T_e gamma_i T_i m_i klD2 ;;
                    check_value default_checks (Scalar V_S) ;;;
                    ret (Scalar V_S))%py w).
  { unfold run, ion_sound_speed. apply check_relativistic_ext.
    unfold ion_sound_speed_wrapped.
    rewrite (bind_ok _ _ _ _ _ HTe), (bind_ok _ _ _ _ _ HTi),
      (bind_ok _ _ _ _ _ Hn), (bind_ok _ _ _ _ _ Hk).
    rewrite (bind_ok (lift (particle_mass ion)) _ w w m_i)
      by (unfold lift; now rewrite Hm).
    now rewrite (bind_ok _ _ _ _ _ Hq). }
  rewrite Hrun. clear Hrun run. unfold check_relativistic.
  split; [|split; [|split; [|split]]].
  - intros He. apply bind_raise, bind_raise. unfold check_gamma. now rewrite He.
  - intros He Hlt. apply bind_raise, bind_raise. unfold check_gamma.
    now rewrite He, Hlt.
  - intros He Hlt Hi. apply bind_raise.
    rewrite (bind_ok _ _ w w tt) by (unfold check_gamma; now rewrite He, Hlt).
    apply bind_raise. unfold check_gamma. now rewrite Hi.
  - intros He Hlt Hi Hlti. apply bind_raise.
    rewrite (bind_ok _ _ w w tt) by (unfold check_gamma; now rewrite He, Hlt).
    apply bind_raise. unfold check_gamma. now rewrite Hi, Hlti.
  - intros v w' H. apply bind_inv in H as (v0 & w0 & H & _).
    apply bind_inv in H as (u1 & w1 & H1 & H).
    apply bind_inv in H as (u2 & w2 & H2 & _).
    apply check_gamma_ok_inv in H1, H2. destruct H1, H2. now repeat split.
Qed.

(** ** Gyroradius: broadcasting, shape and sign *)






Lemma masked_assign_length {A} (xs : list A) (mask : list bool) (vals : list A) :
  List.length (masked_assign xs mask vals) = List.length xs.
Proof.
  revert mask vals. induction xs as [|x xs IH]; intros [|[|] mask] vals; simpl;
    try reflexivity.
  - destruct vals; simpl; now rewrite IH.
  - now rewrite IH.
Qed.

Lemma thermal_speed_shape (T : nd float) (particle method : string) (mass : float)
    (v : nd float) (w w' : world) :
  thermal_speed T particle method mass w = (Ok v, w') ->
  (exists f : float -> float, v = nd_map (fun t => sqrt (f t)) T) /\
  cells w' = cells w /\ next w' = next w.
Proof.
  intros H. destruct (thermal_speed_inv _ _ _ _ _ _ _ H) as (Hraw & _ & -> & _).
  split; [|now destruct (0.05 * c <=? max_magnitude v)%float].
  clear H. unfold thermal_speed_wrapped in Hraw.
  apply bind_inv in Hraw as (u1 & w1 & _ & H).
  apply bind_inv in H as (u2 & w2 & _ & H).
  apply bind_inv in H as (u3 & w3 & _ & H).
  apply bind_inv in H as (m & w4 & _ & H).
  apply bind_inv in H as (V & w5 & H5 & H).
  apply bind_inv in H as (u6 & w6 & _ & H).
  unfold ret in H. injection H as <- _.
  unfold V_by_method in H5.
  destruct (String.eqb method "most_probable");
    [injection H5 as <- _; now exists (fun t => 2 * k_B * t / m)%float|].
  destruct (String.eqb method "rms");
    [injection H5 as <- _; now exists (fun t => 3 * k_B * t / m)%float|].
  destruct (String.eqb method "mean_magnitude"); [|discriminate].
  injection H5 as <- _. now exists (fun t => 8 * k_B * t / (m * pi))%float.
Qed.

Lemma gyrofrequency_unsigned_fix (B : float) (particle : string) (Z : option pyval)
    (to_hz : bool) (m_i omega : float) (w w' : world) :
  abs e = e ->
  particle_mass particle = Ok m_i ->
  abs m_i = m_i ->
  gyrofrequency B particle false Z to_hz w = (Ok omega, w') ->
  abs omega = omega.
Proof.
  intros He Hm Hmi H.
  destruct (gyrofrequency_inv _ _ _ _ _ _ _ _ H)
    as (m0 & q & q' & qf & Hm0 & _ & Hq' & Hqf & -> & _).
  rewrite Hm in Hm0. injection Hm0 as <-. simpl in Hq'.
  pose proof (py_abs_float_fix _ _ _ _ _ _ _ Hq' Hqf) as Hfix.
  destruct to_hz.
  - now rewrite !abs_div, two_pi_abs, !abs_mul, abs_abs, He, Hmi, Hfix.
  - now rewrite !abs_div, !abs_mul, abs_abs, He, Hmi, Hfix.
Qed.

(** A run of [gyroradius] that returns: the speeds it divided, their shape,
    and the gyrofrequency it divided by. *)
Lemma gyroradius_inv (B : float) (particle : string) (Vperp T_i : qarg)
    (r : nd float) (w w' : world) :
  gyroradius B particle Vperp T_i w = (Ok r, w') ->
  exists (Vp : nd float) (omega_ci : float),
    r = nd_map (fun v => abs v / omega_ci)%float Vp /\
    gyrofrequency B particle false None false w' = (Ok omega_ci, w') /\
    match deref w Vperp, deref w T_i with
    | Scalar _, Scalar _ => exists x, Vp = Scalar x
    | Scalar _, Array ts => exists xs, Vp = Array xs /\ List.length xs = List.length ts
    | Array vs, Scalar _ => exists xs, Vp = Array xs /\ List.length xs = List.length vs
    | Array vs, Array ts =>
        List.length vs = List.length ts /\
        exists xs, Vp = Array xs /\ List.length xs = List.length vs
    end.
Proof.
  intros H. unfold gyroradius in H.
  apply bind_inv in H as (vV & w1 & H1 & H). unfold load in H1. injection H1 as <- <-.
  apply bind_inv in H as (vT & w1 & H1 & H). unfold load in H1. injection H1 as <- <-.
  apply bind_inv in H as (u1 & w1 & H1 & H).
  destruct (check_value_ok_inv _ _ _ _ _ H1) as [-> _]. clear H1.
  apply bind_inv in H as (u2 & w1 & H1 & H).
  destruct (check_value_ok_inv _ _ _ _ _ H1) as [-> _]. clear H1.
  apply bind_inv in H as (u3 & w1 & H1 & H).
  destruct (check_value_ok_inv _ _ _ _ _ H1) as [-> _]. clear H1.
  apply bind_inv in H as (u4 & w1 & H1 & H).
  destruct (check_1_ok _ _ _ _ _ H1) as [-> _]. clear H1.
  apply bind_inv in H as (Vp & w1 & HVp & H).
  apply bind_inv in H as (omega_ci & w2 & Hgf & H).
  pose proof (stateless_world _ _ _ _ (gyrofrequency_stateless _ _ _ _ _) Hgf) as ->.
  apply bind_inv in H as (u5 & w2 & Hcv & H).
  unfold convert_by_equivalency, warn in Hcv. injection Hcv as _ <-.
  apply bind_inv in H as (u7 & w2 & H1 & H).
  destruct (check_value_ok_inv _ _ _ _ _ H1) as [-> _]. clear H1 u5 u7.
  unfold ret in H. injection H as <- <-.
  exists Vp, omega_ci. split; [reflexivity|].
  split; [exact (gyrofrequency_any_world _ _ _ _ _ _ _ _ _ Hgf)|].
  destruct (deref w Vperp) as [v|vs] eqn:EV, (deref w T_i) as [t|ts] eqn:ET.
  - destruct (is_finite t).
    + destruct (thermal_speed_shape _ _ _ _ _ _ _ HVp) as ([f ->] & _). now eexists.
    + injection HVp as <- _. now eexists.
  - destruct (is_finite v).
    + injection HVp as <- _. eexists. split; [reflexivity|apply repeat_length].
    + destruct (thermal_speed_shape _ _ _ _ _ _ _ HVp) as ([f ->] & _).
      eexists. split; [reflexivity|apply length_map].
  - destruct (is_finite t).
    + destruct (thermal_speed_shape _ _ _ _ _ _ _ HVp) as ([f ->] & _).
      eexists. split; [reflexivity|]. simpl. now rewrite length_map, repeat_length.
    + injection HVp as <- _. now eexists.
  - apply bind_inv in HVp as (copy & w2 & Hcp & HVp).
    unfold copy_array, bind, load, alloc in Hcp. rewrite EV in Hcp. simpl in Hcp.
    injection Hcp as <- <-.
    apply bind_inv in HVp as (ts' & w3 & Hld & HVp). unfold load in Hld.
    injection Hld as <- <-.
    apply bind_inv in HVp as (sp & w3 & Hsp & HVp).
    destruct (thermal_speed_shape _ _ _ _ _ _ _ Hsp) as (_ & Hcells & _).
    apply bind_inv in HVp as (u6 & w4 & Hset & HVp).
    unfold load in HVp. injection HVp as <- _.
    unfold setitem_mask in Hset. rewrite Hcells in Hset. simpl in Hset.
    rewrite Nat.eqb_refl in Hset.
    destruct (Nat.eqb (List.length (map is_finite ts)) (List.length vs)) eqn:El;
      simpl in Hset; [|discriminate].
    apply Nat.eqb_eq in El. rewrite length_map in El.
    destruct (negb _) in Hset; [discriminate|].
    unfold store in Hset. injection Hset as _ <-. simpl. rewrite Nat.eqb_refl.
    split; [now symmetry|]. eexists. split; [reflexivity|apply masked_assign_length].
Qed.

(** X15: a result of [gyroradius] has the shape its arguments broadcast to:
    a scalar for two scalars, an array as long as the array argument
    otherwise; two arrays of different lengths never give a result. *)
Theorem gyroradius_shape :
  forall (B : float) (particle : string) (Vperp T_i : qarg) (r : nd float)
         (w w' : world),
    gyroradius B particle Vperp T_i w = (Ok r, w') ->
    match deref w Vperp, deref w T_i with
    | Scalar _, Scalar _ => exists x, r = Scalar x
    | Scalar _, Array ts => exists rs, r = Array rs /\ List.length rs = List.length ts
    | Array vs, Scalar _ => exists rs, r = Array rs /\ List.length rs = List.length vs
    | Array vs, Array ts =>
        List.length vs = List.length ts /\
        exists rs, r = Array rs /\ List.length rs = List.length vs
    end.
Proof.
  intros B particle Vperp T_i r w w' H.
  destruct (gyroradius_inv _ _ _ _ _ _ _ H) as (Vp & omega_ci & -> & _ & Hshape).
  destruct (deref w Vperp) as [v|vs], (deref w T_i) as [t|ts].
  - destruct Hshape as [x ->]. now eexists.
  - destruct Hshape as (xs & -> & Hl). eexists. split; [reflexivity|].
    now rewrite length_map.
  - destruct Hshape as (xs & -> & Hl). eexists. split; [reflexivity|].
    now rewrite length_map.
  - destruct Hshape as (Hlen & xs & -> & Hl). split; [exact Hlen|].
    eexists. split; [reflexivity|]. now rewrite length_map.
Qed.

(** X16: with an elementary charge and a particle mass that carry no minus
    sign, no element of a gyroradius that is returned is negative, whatever
    the signs of the field, of the particle's charge and of the speeds. *)
Theorem gyroradius_never_negative :
  forall (B : float) (particle : string) (Vperp T_i : qarg) (m_i : float)
         (r : nd float) (w w' : world),
    abs e = e ->
    particle_mass particle = Ok m_i ->
    abs m_i = m_i ->
    gyroradius B particle Vperp T_i w = (Ok r, w') ->
    forall i x, item r i = Some x -> (x <? 0)%float = false.
Proof.
  intros B particle Vperp T_i m_i r w w' He Hm Hmi H i x Hx.
  destruct (gyroradius_inv _ _ _ _ _ _ _ H) as (Vp & omega_ci & -> & Hgf & _).
  pose proof (gyrofrequency_unsigned_fix _ _ _ _ _ _ _ _ He Hm Hmi Hgf) as Hfix.
  rewrite item_nd_map in Hx. destruct (item Vp i) as [v|]; [|discriminate].
  injection Hx as <-. apply nonneg_div; [|exact Hfix].
  apply abs_fix_nonneg, abs_abs.
Qed.





(** ** Square roots *)

Lemma one_nonneg : (1 <? 0)%float = false.
Proof. vm_compute. reflexivity. Qed.

(** X19: the speeds, the length and the frequency that the code takes as a
    square root are never negative once returned: every element of a
    [thermal_speed] and of a [kappa_thermal_speed], an [ion_sound_speed], a
    [Debye_length] and an [upper_hybrid_frequency] in rad/s or in Hz,
    whatever the signs of the constants and of the arguments. *)
Theorem square_root_results_never_negative :
  (forall T particle method mass v w w',
     thermal_speed T particle method mass w = (Ok v, w') ->
     forall i x, item v i = Some x -> (x <? 0)%float = false) /\
  (forall T kappa particle method v w w',
     kappa_thermal_speed T kappa particle method w = (Ok v, w') ->
     forall i x, item v i = Some x -> (x <? 0)%float = false) /\
  (forall T_e T_i n_e k gamma_e gamma_i ion z_mean v w w',
     ion_sound_speed T_e T_i n_e k gamma_e gamma_i ion z_mean w = (Ok v, w') ->
     exists V_S, v = Scalar V_S /\ (V_S <? 0)%float = false) /\
  (forall T_e n_e lambda_D w w',
     Debye_length T_e n_e w = (Ok lambda_D, w') -> (lambda_D <? 0)%float = false) /\
  (forall B n_e to_hz omega_uh w w',
     upper_hybrid_frequency B n_e to_hz w = (Ok omega_uh, w') ->
     (omega_uh <? 0)%float = false).
Proof.
  assert (Hts : forall T particle method mass v w w',
             thermal_speed T particle method mass w = (Ok v, w') ->
             forall i x, item v i = Some x -> (x <? 0)%float = false).
  { intros T particle method mass v w w' H i x Hx.
    destruct (thermal_speed_shape _ _ _ _ _ _ _ H) as ([f ->] & _).
    rewrite item_nd_map in Hx. destruct (item T i); [|discriminate].
    injection Hx as <-. apply nonneg_sqrt. }
  split; [exact Hts|]. split; [|split; [|split]].
  - intros T kappa particle method v w w' H i x Hx.
    unfold kappa_thermal_speed in H.
    apply check_relativistic_ok_inv in H as (w0 & H & _).
    unfold kappa_thermal_speed_wrapped in H.
    apply bind_inv in H as (u1 & w1 & _ & H).
    apply bind_inv in H as (u2 & w2 & _ & H).
    apply bind_inv in H as (vTh & w3 & Hth & H).
    apply bind_inv in H as (u4 & w4 & _ & H).
    unfold ret in H. injection H as <- _.
    rewrite item_nd_map in Hx. destruct (item vTh i) as [y|] eqn:Ey; [|discriminate].
    injection Hx as <-. apply nonneg_mul; [exact (Hts _ _ _ _ _ _ _ Hth i y Ey)|].
    destruct (String.eqb method "most_probable"); [apply nonneg_sqrt|apply one_nonneg].
  - intros T_e T_i n_e k gamma_e gamma_i ion z_mean v w w' H.
    unfold ion_sound_speed in H.
    apply check_relativistic_ok_inv in H as (w0 & H & _).
    unfold ion_sound_speed_wrapped in H.
    apply bind_inv in H as (u1 & w1 & _ & H).
    apply bind_inv in H as (u2 & w2 & _ & H).
    apply bind_inv in H as (u3 & w3 & _ & H).
    apply bind_inv in H as (u4 & w4 & _ & H).
    apply bind_inv in H as (m_i & w5 & _ & H).
    apply bind_inv in H as (q & w6 & _ & H).
    apply bind_inv in H as (u7 & w7 & _ & H).
    apply bind_inv in H as (u8 & w8 & _ & H).
    apply bind_inv in H as (klD2 & w9 & _ & H).
    apply bind_inv in H as (V_S & w10 & HV & H).
    apply bind_inv in H as (u11 & w11 & _ & H).
    unfold ret in H. injection H as <- _.
    exists V_S. split; [reflexivity|].
    unfold V_S_step in HV. apply try_except_ok_inv in HV. unfold V_S_expr in HV.
    apply bind_inv in HV as (gq & w12 & _ & HV).
    apply bind_inv in HV as (a & w13 & _ & HV).
    apply bind_inv in HV as (b & w14 & _ & HV).
    unfold ret in HV. injection HV as <- _. apply nonneg_sqrt.
  - intros T_e n_e lambda_D w w' H. unfold Debye_length in H.
    apply bind_inv in H as (u1 & w1 & _ & H).
    apply bind_inv in H as (u2 & w2 & _ & H).
    apply bind_inv in H as (u3 & w3 & _ & H).
    unfold ret in H. injection H as <- _. apply nonneg_sqrt.
  - intros B n_e to_hz omega_uh w w' H. unfold upper_hybrid_frequency in H.
    apply bind_inv in H as (u1 & w1 & _ & H).
    apply bind_inv in H as (u2 & w2 & _ & H).
    apply bind_inv in H as (om & w3 & Hom & H).
    apply bind_inv in H as (u4 & w4 & _ & H).
    unfold ret in H. injection H as <- _.
    unfold angular_freq_to_hz in Hom.
    apply bind_inv in Hom as (om0 & w5 & Hom0 & Hom).
    unfold ret in Hom. injection Hom as <- _.
    apply bind_inv in Hom0 as (pe & w6 & _ & Hom0).
    apply bind_inv in Hom0 as (ce & w7 & _ & Hom0).
    unfold ret in Hom0. injection Hom0 as <- _.
    destruct to_hz; [|apply nonneg_sqrt].
    apply nonneg_div; [apply nonneg_sqrt|exact two_pi_abs].
Qed.

(** ** Particles that do not resolve *)

(** X20: outside [plasma_frequency] a particle whose mass does not resolve
    is fatal, and the caller sees the particle library's own exception:
    once the quantities are valid, [gyrofrequency], [mass_density] and
    [Alfven_speed] on a number density, and [ion_sound_speed] raise exactly
    the exception of the mass lookup and log nothing; in [ion_sound_speed]
    this comes before the adiabatic indices are looked at. *)
Theorem particle_mass_error_propagates :
  forall (particle : string) (ex : exn) (w : world),
    particle_mass particle = Raise ex ->
    (forall B signed Z to_hz,
       check_value default_checks (Scalar B) w = (Ok tt, w) ->
       gyrofrequency B particle signed Z to_hz w = (Raise ex, w)) /\
    (forall n z_mean,
       particle <> "" ->
       check_value (with_negative false default_checks) (Scalar n) w = (Ok tt, w) ->
       mass_density (mkDensity n per_m3) (Some particle) z_mean w = (Raise ex, w)) /\
    (forall B n z_mean,
       particle <> "" ->
       check_value default_checks (Scalar B) w = (Ok tt, w) ->
       check_value (with_negative false default_checks) (Scalar n) w = (Ok tt, w) ->
       Alfven_speed B (mkDensity n per_m3) particle z_mean w = (Raise ex, w)) /\
    (forall T_e T_i n_e k gamma_e gamma_i z_mean,
       check_value (with_negative false default_checks) (Scalar T_e) w = (Ok tt, w) ->
       check_value (with_negative false default_checks) (Scalar T_i) w = (Ok tt, w) ->
       check_optional (with_none true (with_negative false default_checks)) n_e w
       = (Ok tt, w) ->
       check_optional (with_none true (with_negative false default_checks)) k w
       = (Ok tt, w) ->
       ion_sound_speed T_e T_i n_e k gamma_e gamma_i particle z_mean w = (Raise ex, w)).
Proof.
  intros particle ex w Hm.
  assert (Hl : lift (particle_mass particle) w = (Raise ex, w))
    by (unfold lift; now rewrite Hm).
  assert (Hmd : forall n z_mean,
             particle <> "" ->
             check_value (with_negative false default_checks) (Scalar n) w
             = (Ok tt, w) ->
             mass_density (mkDensity n per_m3) (Some particle) z_mean w = (Raise ex, w)).
  { intros n z_mean Hne Hn. apply String.eqb_neq in Hne. unfold mass_density.
    cbv beta iota delta [units value is_mass_density].
    rewrite (bind_ok _ _ _ _ _ Hn). rewrite Hne.
    apply bind_raise. now apply bind_raise. }
  split; [|split; [exact Hmd|split]].
  - intros B signed Z to_hz HB. unfold gyrofrequency.
    rewrite (bind_ok _ _ _ _ _ HB). apply bind_raise.
    unfold angular_freq_to_hz. apply bind_raise. now apply bind_raise.
  - intros B n z_mean Hne HB Hn. unfold Alfven_speed, check_relativistic.
    apply bind_raise. unfold Alfven_speed_wrapped.
    rewrite (bind_ok _ _ _ _ _ HB). cbv beta iota delta [value].
    rewrite (bind_ok _ _ _ _ _ Hn). apply bind_raise. now apply Hmd.
  - intros T_e T_i n_e k gamma_e gamma_i z_mean HTe HTi Hn Hk.
    unfold ion_sound_speed, check_relativistic. apply bind_raise.
    unfold ion_sound_speed_wrapped.
    rewrite (bind_ok _ _ _ _ _ HTe), (bind_ok _ _ _ _ _ HTi),
      (bind_ok _ _ _ _ _ Hn), (bind_ok _ _ _ _ _ Hk).
    now apply bind_raise.
Qed.

(** X21: [mass_density] is idempotent: what it returns is a mass density
    that it returns unchanged when given back, with any particle and any
    charge override, or none. *)
Theorem mass_density_idempotent :
  forall (density : density_quantity) (particle particle' : option string)
         (z_mean z_mean' : option pyval) (rho : float) (w w' : world),
    mass_density density particle z_mean w = (Ok rho, w') ->
    mass_density (mkDensity rho kg_per_m3) particle' z_mean' w = (Ok rho, w).
Proof.
  intros density particle particle' z_mean z_mean' rho w w' H.
  destruct (mass_density_ok_inv _ _ _ _ _ _ H) as (_ & _ & _ & Hr).
  unfold mass_density. cbv beta iota delta [units value is_mass_density].
  rewrite (bind_ok _ _ _ _ _ (Hr w)).
  rewrite (bind_ok (ret rho) _ w w rho eq_refl).
  now rewrite (bind_ok _ _ _ _ _ (Hr w)).
Qed.

(** ** Frequencies in Hz *)

Lemma angular_freq_to_hz_inv (to_hz : bool) (f : M float) (r : float) (w w' : world) :
  angular_freq_to_hz to_hz f w = (Ok r, w') ->
  exists omega, f w = (Ok omega, w') /\
                r = if to_hz then (omega / (2 * pi))%float else omega.
Proof.
  intros H. unfold angular_freq_to_hz in H.
  apply bind_inv in H as (omega & w1 & Hf & H).
  unfold ret in H. injection H as <- <-. now exists omega.
Qed.

Lemma hz_of_rad (to_hz : bool) (f : M float) (ck : checks) (omega : float)
    (w0 w w' : world) :
  (x <- angular_freq_to_hz false f ;; check_value ck (Scalar x) ;;; ret x) w
  = (Ok omega, w') ->
  check_value ck (Scalar (omega / (2 * pi))%float) w0 = (Ok tt, w0) ->
  (x <- angular_freq_to_hz true f ;; check_value ck (Scalar x) ;;; ret x) w
  = (Ok (omega / (2 * pi))%float, w').
Proof.
  intros H Hc.
  apply bind_inv in H as (om & w1 & H1 & H).
  apply bind_inv in H as ([] & w2 & H2 & H).
  unfold ret in H. injection H as <- <-.
  destruct (check_value_ok_inv _ _ _ _ _ H2) as [-> _].
  apply angular_freq_to_hz_inv in H1 as (om0 & Hf & ->).
  rewrite (bind_ok _ _ w w1 (om0 / (2 * pi))%float)
    by (unfold angular_freq_to_hz; now rewrite (bind_ok _ _ _ _ _ Hf)).
  now rewrite (bind_ok _ _ _ _ _ (check_value_ok_any _ _ _ _ w1 Hc)).
Qed.

(** X22: a frequency asked for in Hz is the frequency in rad/s divided by
    [2 pi]: when the call in rad/s returns [omega] and [omega / (2 pi)]
    passes the validation of the return value, the call in Hz returns
    [omega / (2 pi)], for [gyrofrequency], [plasma_frequency],
    [upper_hybrid_frequency] and [lower_hybrid_frequency]. *)
Theorem frequency_in_hz :
  forall (omega : float) (w w' : world),
    check_value default_checks (Scalar (omega / (2 * pi))%float) w = (Ok tt, w) ->
    (forall B particle signed Z,
       gyrofrequency B particle signed Z false w = (Ok omega, w') ->
       gyrofrequency B particle signed Z true w = (Ok (omega / (2 * pi))%float, w')) /\
    (forall n particle z_mean,
       plasma_frequency n particle z_mean false w = (Ok omega, w') ->
       plasma_frequency n particle z_mean true w = (Ok (omega / (2 * pi))%float, w')) /\
    (forall B n_e,
       upper_hybrid_frequency B n_e false w = (Ok omega, w') ->
       upper_hybrid_frequency B n_e true w = (Ok (omega / (2 * pi))%float, w')) /\
    (forall B n_i ion,
       lower_hybrid_frequency B n_i ion false w = (Ok omega, w') ->
       lower_hybrid_frequency B n_i ion true w = (Ok (omega / (2 * pi))%float, w')).
Proof.
  intros omega w w' Hc. split; [|split; [|split]].
  - intros B particle signed Z H. unfold gyrofrequency in *.
    apply bind_inv in H as ([] & w1 & H1 & H).
    rewrite (bind_ok _ _ _ _ _ H1). now apply (hz_of_rad true _ _ _ w).
  - intros n particle z_mean H. unfold plasma_frequency in *.
    apply bind_inv in H as ([] & w1 & H1 & H).
    rewrite (bind_ok _ _ _ _ _ H1). now apply (hz_of_rad true _ _ _ w).
  - intros B n_e H. unfold upper_hybrid_frequency in *.
    apply bind_inv in H as ([] & w1 & H1 & H).
    apply bind_inv in H as ([] & w2 & H2 & H).
    rewrite (bind_ok _ _ _ _ _ H1), (bind_ok _ _ _ _ _ H2).
    now apply (hz_of_rad true _ _ _ w).
  - intros B n_i ion H. unfold lower_hybrid_frequency in *.
    apply bind_inv in H as ([] & w1 & H1 & H).
    apply bind_inv in H as ([] & w2 & H2 & H).
    rewrite (bind_ok _ _ _ _ _ H1), (bind_ok _ _ _ _ _ H2).
    now apply (hz_of_rad true _ _ _ w).
Qed.

(** ** Gyroradius: the caller's arrays *)

Lemma keeps_stateless {A} (n : nat) (m : M A) :
  (exists r, forall w, m w = (r, w)) -> keeps_below n m.
Proof.
  intros [r0 Hr] w w' r Hn H. rewrite Hr in H. injection H as _ <-. now split.
Qed.

Lemma keeps_bind {A B} (n : nat) (m : M A) (k : A -> M B) :
  keeps_below n m -> (forall a, keeps_below n (k a)) -> keeps_below n (bind m k).
Proof.
  intros Hm Hk w w' r Hn H. unfold bind in H.
  destruct (m w) as [[a|ex] w1] eqn:E.
  - destruct (Hm _ _ _ Hn E) as [Hn1 Hc1].
    destruct (Hk a _ _ _ Hn1 H) as [Hn2 Hc2].
    split; [exact Hn2|]. intros l Hl. now rewrite (Hc2 l Hl), (Hc1 l Hl).
  - injection H as _ <-. exact (Hm _ _ _ Hn E).
Qed.

Lemma keeps_load (n : nat) (q : qarg) : keeps_below n (load q).
Proof. intros w w' r Hn H. unfold load in H. injection H as _ <-. now split. Qed.

Lemma keeps_warn (n : nat) (x : warning) : keeps_below n (warn x).
Proof. intros w w' r Hn H. unfold warn in H. injection H as _ <-. now split. Qed.

Lemma keeps_check_relativistic (n : nat) (f : M (nd float)) :
  keeps_below n f -> keeps_below n (check_relativistic f).
Proof.
  intros Hf. unfold check_relativistic. apply keeps_bind; [exact Hf|]. intros v.
  assert (K : keeps_below n
                (if (c <=? max_magnitude v)%float then raise RelativityError
                 else if (0.05 * c <=? max_magnitude v)%float
                      then warn RelativityWarning ;;; ret v
                      else ret v)).
  { destruct (c <=? max_magnitude v)%float;
      [apply keeps_stateless, raise_stateless|].
    destruct (0.05 * c <=? max_magnitude v)%float;
      [|apply keeps_stateless, ret_stateless].
    apply keeps_bind; [apply keeps_warn|]. intros _.
    apply keeps_stateless, ret_stateless. }
  destruct v as [x|[|x xs]]; [exact K|apply keeps_stateless, raise_stateless|exact K].
Qed.

Lemma keeps_thermal_speed (n : nat) (T : nd float) (particle method : string)
    (mass : float) :
  keeps_below n (thermal_speed T particle method mass).
Proof.
  apply keeps_check_relativistic, keeps_stateless, thermal_speed_wrapped_stateless.
Qed.

Lemma keeps_check_1 (n : nat) (a b : nd bool) : keeps_below n (check_1 a b).
Proof.
  unfold check_1. apply keeps_bind.
  - apply keeps_stateless. unfold broadcast2.
    destruct a as [x|xs], b as [y|ys]; try apply ret_stateless.
    destruct (Nat.eqb _ _); [apply ret_stateless|].
    destruct xs as [|x [|x' xs]], ys as [|y [|y' ys]];
      first [apply ret_stateless | apply raise_stateless].
  - intros x. destruct (nd_any _); apply keeps_stateless;
      [apply raise_stateless|apply ret_stateless].
Qed.

Lemma keeps_setitem_mask (n l : nat) (mask : list bool) (vals : list float) :
  n <= l -> keeps_below n (setitem_mask l mask vals).
Proof.
  intros Hl w w' r Hn H. unfold setitem_mask in H.
  destruct (negb _) in H; [injection H as _ <-; now split|].
  destruct (negb _) in H; [injection H as _ <-; now split|].
  unfold store in H. injection H as _ <-. simpl. split; [exact Hn|].
  intros l0 Hl0. assert (Nat.eqb l0 l = false) as -> by (apply Nat.eqb_neq; lia).
  reflexivity.
Qed.

Lemma keeps_copy_bind {B} (n : nat) (q : qarg) (k : nat -> M B) :
  (forall l, n <= l -> keeps_below n (k l)) ->
  keeps_below n (bind (copy_array q) k).
Proof.
  intros Hk w w' r Hn H. unfold bind, copy_array, load, alloc in H. simpl in H.
  destruct (fun Hx => Hk (next w) Hn _ _ _ Hx H) as [Hn' Hc]; [simpl; lia|].
  split; [exact Hn'|]. intros l Hl. rewrite (Hc l Hl). simpl.
  assert (Nat.eqb l (next w) = false) as -> by (apply Nat.eqb_neq; lia).
  reflexivity.
Qed.

(** X23: [gyroradius] never changes an array of its caller: whatever the
    shapes of [Vperp] and [T_i], and whether the call returns or raises,
    every array that existed before the call has afterwards the content it
    had; only the private copy of [Vperp] is written to. *)
Theorem gyroradius_keeps_caller_arrays :
  forall (B : float) (particle : string) (Vperp T_i : qarg)
         (r : outcome (nd float)) (w w' : world),
    gyroradius B particle Vperp T_i w = (r, w') ->
    next w <= next w' /\ forall l, l < next w -> cells w' l = cells w l.
Proof.
  intros B particle Vperp T_i r w w' H.
  assert (K : keeps_below (next w) (gyroradius B particle Vperp T_i));
    [|exact (K w w' r (le_n _) H)].
  clear H. unfold gyroradius.
  apply keeps_bind; [apply keeps_load|intros vV].
  apply keeps_bind; [apply keeps_load|intros vT].
  do 3 (apply keeps_bind; [apply keeps_stateless, check_value_stateless|intros _]).
  apply keeps_bind; [apply keeps_check_1|intros _].
  apply keeps_bind.
  - destruct vV as [v|vs], vT as [t|ts].
    + destruct (is_finite t);
        [apply keeps_thermal_speed|apply keeps_stateless, ret_stateless].
    + destruct (is_finite v);
        [apply keeps_stateless, ret_stateless|apply keeps_thermal_speed].
    + destruct (is_finite t);
        [apply keeps_thermal_speed|apply keeps_stateless, ret_stateless].
    + apply keeps_copy_bind. intros copy Hcopy.
      apply keeps_bind; [apply keeps_load|intros ts'].
      apply keeps_bind; [apply keeps_thermal_speed|intros sp].
      apply keeps_bind; [now apply keeps_setitem_mask|intros _].
      apply keeps_load.
  - intros Vp.
    apply keeps_bind; [apply keeps_stateless, gyrofrequency_stateless|intros omega_ci].
    apply keeps_bind; [apply keeps_warn|intros _].
    apply keeps_bind; [apply keeps_stateless, check_value_stateless|intros _].
    apply keeps_stateless, ret_stateless.
Qed.

(** ** The sign of the Alfven speed *)

Lemma div_nonneg_or_minus_infinity (a s : float) :
  abs a = a -> (s <? 0)%float = false ->
  (a / s <? 0)%float = false \/ Prim2SF (a / s) = S754_infinity true.
Proof.
  rewrite !SF_nonneg_cases, abs_fix_SF, div_spec. unfold SF64div.
  destruct (Prim2SF a) as [sa|sa| |sa ma ea],
           (Prim2SF s) as [[|]|[|]| |[|] ms es];
    simpl; intros Ha Hs; try contradiction; try (injection Ha as <-);
    try (left; exact I); try (right; reflexivity).
  left. destruct (SFdiv_core_binary prec emax (Z.pos ma) ea (Z.pos ms) es)
    as [[mz ez] lz].
  apply bra_nonneg.
Qed.

Lemma c_leb_abs_minus_infinity (x : float) :
  Prim2SF x = S754_infinity true -> (c <=? abs x)%float = true.
Proof.
  intros H. rewrite leb_spec, abs_spec, H, Prim2SF_c. reflexivity.
Qed.

(** X24: an Alfven speed that is returned is never negative.  The quotient
    [|B| / sqrt(mu0 * rho)] is negative only when the square root is the
    negative zero, and then it is minus infinity, which the relativity
    guard rejects. *)
Theorem Alfven_speed_never_negative :
  forall (B : float) (density : density_quantity) (ion : string)
         (z_mean : option pyval) (v : nd float) (w w' : world),
    Alfven_speed B density ion z_mean w = (Ok v, w') ->
    exists V_A, v = Scalar V_A /\ (V_A <? 0)%float = false.
Proof.
  intros B density ion z_mean v w w' H. unfold Alfven_speed in H.
  apply check_relativistic_ok_inv in H as (w0 & H & _ & Hc & _).
  unfold Alfven_speed_wrapped in H.
  apply bind_inv in H as (u1 & w1 & _ & H).
  apply bind_inv in H as (u2 & w2 & _ & H).
  apply bind_inv in H as (rho & w3 & _ & H).
  apply bind_inv in H as (u4 & w4 & _ & H).
  unfold ret in H. injection H as <- _.
  eexists. split; [reflexivity|].
  destruct (div_nonneg_or_minus_infinity (abs B) (sqrt (mu0 * rho))
              (abs_abs B) (nonneg_sqrt _)) as [Hn|Hinf]; [exact Hn|].
  simpl in Hc. rewrite (c_leb_abs_minus_infinity _ Hinf) in Hc. discriminate.
Qed.

(** ** The relativistic guard, by the elements of the result *)

Lemma check_relativistic_empty (f : M (nd float)) (w w' : world) :
  f w = (Ok (Array []), w') ->
  check_relativistic f w
  = (Raise (ValueError ("zero-size array to reduction operation maximum "
                        ++ "which has no identity")), w').
Proof. intros Hf. unfold check_relativistic. now rewrite (bind_ok _ _ _ _ _ Hf). Qed.

Lemma check_relativistic_error (f : M (nd float)) (w w' : world) (v : nd float) :
  f w = (Ok v, w') -> v <> Array [] ->
  (c <=? max_magnitude v)%float = true ->
  check_relativistic f w = (Raise RelativityError, w').
Proof.
  intros Hf Hne Hc. unfold check_relativistic. rewrite (bind_ok _ _ _ _ _ Hf).
  destruct v as [x|[|x xs]]; try congruence; now rewrite Hc.
Qed.








(** ** Ion sound speed: the final step *)

Lemma V_S_expr_overflow_gamma_i (gamma_e q : pyval) (T_e : float) (g : Z)
    (T_i m_i klD2 : float) (w : world) :
  is_infinity (Z2float g) = true ->
  exists ex, V_S_expr gamma_e q T_e (PyInt g) T_i m_i klD2 w = (Raise ex, w).
Proof.
  intros Hg. unfold V_S_expr, bind.
  destruct (py_mul_stateless gamma_e q) as [[gq|ex1] H1]; rewrite H1;
    [|now exists ex1].
  destruct (to_float_stateless gq) as [[a|ex2] H2]; rewrite H2; [|now exists ex2].
  simpl. unfold int_to_float. rewrite Hg. eexists. reflexivity.
Qed.

(** C10: in [ion_sound_speed], once the arguments are validated, the ion
    and its charge are resolved, the adiabatic indices are accepted and the
    dispersion term [klD2] is chosen: whatever exception the evaluation of
    [V_S = sqrt((gamma_e Z k_B T_e + gamma_i k_B T_i) / (m_i (1 + klD2)))]
    raises, [ion_sound_speed] raises
    [ValueError("Unable to find ion sound speed.")] in its place: so it does
    for a charge that is no number, and for an adiabatic index that is an
    integer with no binary64 value; when the operands are numbers, the
    return value passes validation and the speed is below [0.05 c], the
    call returns that square root; and an exception that the call raises
    past this point is this [ValueError], or comes from the validation of
    the value returned or from the relativistic guard. *)
Theorem ion_sound_speed_final_step :
  forall (T_e T_i : float) (n_e k : option float) (gamma_e gamma_i : pyval)
         (ion : string) (z_mean : option pyval) (m_i : float) (q : pyval)
         (klD2 : float) (w w1 : world),
    check_value (with_negative false default_checks) (Scalar T_e) w = (Ok tt, w) ->
    check_value (with_negative false default_checks) (Scalar T_i) w = (Ok tt, w) ->
    check_optional (with_none true (with_negative false default_checks)) n_e w
    = (Ok tt, w) ->
    check_optional (with_none true (with_negative false default_checks)) k w
    = (Ok tt, w) ->
    particle_mass ion = Ok m_i ->
    _grab_charge ion z_mean w = (Ok q, w) ->
    is_real gamma_e = true -> lt_one gamma_e = false ->
    is_real gamma_i = true -> lt_one gamma_i = false ->
    dispersion T_e n_e k w = (Ok klD2, w1) ->
    let run := ion_sound_speed T_e T_i n_e k gamma_e gamma_i ion z_mean w in
    (forall (ex : exn) (w2 : world),
       V_S_expr gamma_e q T_e gamma_i T_i m_i klD2 w1 = (Raise ex, w2) ->
       run = (Raise (ValueError "Unable to find ion sound speed."), w2)) /\
    (forall r : string,
       q = PyObj r ->
       run = (Raise (ValueError "Unable to find ion sound speed."), w1)) /\
    (forall g : Z,
       gamma_i = PyInt g -> is_infinity (Z2float g) = true ->
       run = (Raise (ValueError "Unable to find ion sound speed."), w1)) /\
    (forall (gq : pyval) (a b : float),
       py_mul gamma_e q w1 = (Ok gq, w1) ->
       to_float gq w1 = (Ok a, w1) ->
       to_float gamma_i w1 = (Ok b, w1) ->
       let V_S := sqrt ((a * k_B * T_e + b * k_B * T_i) / (m_i * (1 + klD2)))%float in
       check_value default_checks (Scalar V_S) w1 = (Ok tt, w1) ->
       (abs V_S <? 0.05 * c)%float = true ->
       run = (Ok (Scalar V_S), w1)) /\
    (forall (ex : exn) (w2 : world),
       run = (Raise ex, w2) ->
       ex = ValueError "Unable to find ion sound speed." \/
       exists V_S,
         V_S_expr gamma_e q T_e gamma_i T_i m_i klD2 w1 = (Ok V_S, w1) /\
         (check_value default_checks (Scalar V_S) w1 = (Raise ex, w1) \/
          ex = RelativityError)).
Proof.
  intros T_e T_i n_e k gamma_e gamma_i ion z_mean m_i q klD2 w w1
         HTe HTi Hn Hk Hm Hq Hge Hge1 Hgi Hgi1 Hd run.
  assert (Hwr : ion_sound_speed_wrapped T_e T_i n_e k gamma_e gamma_i ion z_mean w
                = (V_S <- V_S_step gamma_e q T_e gamma_i T_i m_i klD2 ;;
                   check_value default_checks (Scalar V_S) ;;;
                   ret (Scalar V_S)) w1).
  { unfold ion_sound_speed_wrapped.
    rewrite (bind_ok _ _ _ _ _ HTe), (bind_ok _ _ _ _ _ HTi),
      (bind_ok _ _ _ _ _ Hn), (bind_ok _ _ _ _ _ Hk).
    rewrite (bind_ok (lift (particle_mass ion)) _ w w m_i)
      by (unfold lift; now rewrite Hm).
    rewrite (bind_ok _ _ _ _ _ Hq).
    rewrite (bind_ok (check_gamma gamma_e "electrons") _ w w tt)
      by (unfold check_gamma; now rewrite Hge, Hge1).
    rewrite (bind_ok (check_gamma gamma_i "ions") _ w w tt)
      by (unfold check_gamma; now rewrite Hgi, Hgi1).
    now rewrite (bind_ok _ _ _ _ _ Hd). }
  assert (Hraise : forall ex w2,
             V_S_expr gamma_e q T_e gamma_i T_i m_i klD2 w1 = (Raise ex, w2) ->
             run = (Raise (ValueError "Unable to find ion sound speed."), w2)).
  { intros ex w2 H. unfold run, ion_sound_speed, check_relativistic.
    apply bind_raise. rewrite Hwr. apply bind_raise.
    unfold V_S_step, try_except. now rewrite H. }
  split; [exact Hraise|]. split; [|split; [|split]].
  - intros r ->. apply (Hraise (TypeError ("unsupported operand type: " ++ r))).
    unfold V_S_expr. apply bind_raise. now destruct gamma_e.
  - intros g -> Hg.
    destruct (V_S_expr_overflow_gamma_i gamma_e q T_e g T_i m_i klD2 w1 Hg)
      as [ex Hex].
    exact (Hraise ex w1 Hex).
  - intros gq a b Hgq Ha Hb V_S Hret Hlow.
    assert (Hraw : ion_sound_speed_wrapped T_e T_i n_e k gamma_e gamma_i ion z_mean w
                   = (Ok (Scalar V_S), w1)).
    { rewrite Hwr.
      rewrite (bind_ok _ _ w1 w1 V_S).
      - now rewrite (bind_ok _ _ _ _ _ Hret).
      - unfold V_S_step, try_except, V_S_expr.
        rewrite (bind_ok _ _ _ _ _ Hgq), (bind_ok _ _ _ _ _ Ha),
          (bind_ok _ _ _ _ _ Hb).
        reflexivity. }
    unfold run, ion_sound_speed.
    rewrite (check_relativistic_ok_intro _ (Scalar V_S) w w1 Hraw
               ltac:(discriminate)
               (ltb_leb_false _ _ (below_warning_below_c _ Hlow))).
    simpl max_magnitude. now rewrite (ltb_leb_false _ _ Hlow).
  - intros ex w2 H. unfold run, ion_sound_speed in H.
    destruct (V_S_expr_stateless gamma_e q T_e gamma_i T_i m_i klD2) as [r Hr].
    destruct r as [V_S|ex0].
    + right. exists V_S. split; [apply Hr|].
      assert (Hstep : V_S_step gamma_e q T_e gamma_i T_i m_i klD2 w1 = (Ok V_S, w1))
        by (unfold V_S_step, try_except; now rewrite Hr).
      rewrite (bind_ok _ _ _ _ _ Hstep) in Hwr.
      destruct (check_value_stateless default_checks (Scalar V_S)) as [[[]|ex1] Hc].
      * right. rewrite (bind_ok _ _ _ _ _ (Hc w1)) in Hwr.
        destruct (c <=? max_magnitude (Scalar V_S))%float eqn:Ec.
        -- rewrite (check_relativistic_error _ w w1 (Scalar V_S) Hwr
                      ltac:(discriminate) Ec) in H.
           now injection H as <- _.
        -- rewrite (check_relativistic_ok_intro _ (Scalar V_S) w w1 Hwr
                      ltac:(discriminate) Ec) in H.
           discriminate.
      * left. rewrite (bind_raise _ _ _ _ _ (Hc w1)) in Hwr.
        unfold check_relativistic in H. rewrite (bind_raise _ _ _ _ _ Hwr) in H.
        injection H as <- _. apply Hc.
    + left. assert (Hex : V_S_expr gamma_e q T_e gamma_i T_i m_i klD2 w1
                          = (Raise ex0, w1)) by apply Hr.
      pose proof (Hraise ex0 w1 Hex) as Hrun. unfold run, ion_sound_speed in Hrun.
      rewrite Hrun in H. now injection H as <- _.
Qed.

(** ** Gyroradius on two arrays, no temperature finite *)

Lemma select_none {A} (xs : list A) (mask : list bool) :
  (forall b, In b mask -> b = false) -> select xs mask = [].
Proof.
  revert mask. induction xs as [|x xs IH]; intros [|b mask] H; simpl;
    try reflexivity.
  rewrite (H b (or_introl eq_refl)). apply IH. intros b' Hb'. apply H. now right.
Qed.

Lemma Forall2_In_r {A B} (P : A -> Prop) (Q : B -> Prop)
    (xs : list A) (ys : list B) :
  Forall2 (fun x y => P x /\ Q y) xs ys -> forall y, In y ys -> Q y.
Proof.
  induction 1 as [|x y xs ys [_ Hy] _ IH]; intros y0 Hin; [destruct Hin|].
  destruct Hin as [<-|Hin]; [exact Hy|now apply IH].
Qed.

Lemma check_value_no_element (ck : checks) (w : world) :
  check_value ck (Array []) w = (Ok tt, w).
Proof. unfold check_value. simpl. now rewrite !andb_false_r. Qed.

Lemma thermal_speed_no_element (particle method : string) (m : float) (w : world) :
  Particle particle = Ok tt ->
  particle_mass particle = Ok m ->
  method = "most_probable" ->
  thermal_speed (Array []) particle method nan w
  = (Raise (ValueError ("zero-size array to reduction operation maximum "
                        ++ "which has no identity")), w).
Proof.
  intros HP Hm ->. unfold thermal_speed. apply check_relativistic_empty.
  unfold thermal_speed_wrapped.
  rewrite (bind_ok _ _ _ _ _ (check_value_no_element _ w)).
  rewrite (bind_ok _ _ w w tt) by (rewrite mass_check; reflexivity).
  rewrite (bind_ok _ _ w w tt) by (unfold lift; now rewrite HP).
  rewrite is_finite_nan.
  rewrite (bind_ok _ _ w w m) by (unfold lift; now rewrite Hm).
  unfold V_by_method. simpl.
  rewrite (bind_ok (ret (Array [])) _ w w (Array []) eq_refl).
  now rewrite (bind_ok _ _ _ _ _ (check_value_no_element _ w)).
Qed.

(** C8, at the inputs on which the code fails: when [Vperp] and [T_i] are
    two allocated arrays of one length, [Vperp] finite throughout and
    [T_i] finite nowhere (so that exactly one of the two is finite at
    every index), validation passes and the particle resolves,
    [gyroradius] does not return [|Vperp| / omega_ci]: it raises
    [ValueError], because [thermal_speed] is run on the temperatures
    selected, of which there are none, and its relativistic guard takes
    the maximum of no element.  The caller's arrays are as they were. *)
Theorem gyroradius_arrays_no_temperature :
  forall (B : float) (particle : string) (lv lt : nat) (m : float) (w : world),
    let vs := cells w lv in
    let ts := cells w lt in
    lv < next w ->
    lt < next w ->
    check_value default_checks (Scalar B) w = (Ok tt, w) ->
    check_value (with_nan true default_checks) (Array vs) w = (Ok tt, w) ->
    check_value (with_nan true default_checks) (Array ts) w = (Ok tt, w) ->
    Forall2 (fun v t => is_finite v = true /\ is_finite t = false) vs ts ->
    Particle particle = Ok tt ->
    particle_mass particle = Ok m ->
    exists w' : world,
      gyroradius B particle (QArray lv) (QArray lt) w
      = (Raise (ValueError ("zero-size array to reduction operation maximum "
                            ++ "which has no identity")), w') /\
      (forall l, l < next w -> cells w' l = cells w l) /\
      warned w' = warned w.
Proof.
  intros B particle lv lt m w vs ts Hlv Hlt HB HV HT Hall HP Hm.
  assert (Hxor : Forall2 (fun v t => xorb (is_finite v) (is_finite t) = true) vs ts).
  { refine (Forall2_impl _ _ Hall). intros v t [Hv Ht]. now rewrite Hv, Ht. }
  assert (Hmask : forall b, In b (map is_finite ts) -> b = false).
  { intros b Hb. apply in_map_iff in Hb as (t & <- & Ht).
    exact (Forall2_In_r (fun v => is_finite v = true)
             (fun t0 => is_finite t0 = false) _ _ Hall t Ht). }
  set (w1 := mkWorld (fun l => if Nat.eqb l (next w) then vs else cells w l)
                     (S (next w)) (warned w)).
  exists w1. split; [|split].
  - unfold gyroradius.
    rewrite (bind_ok _ _ w w (Array vs)) by reflexivity.
    rewrite (bind_ok _ _ w w (Array ts)) by reflexivity.
    rewrite (bind_ok _ _ _ _ _ HB), (bind_ok _ _ _ _ _ HV), (bind_ok _ _ _ _ _ HT).
    rewrite (bind_ok _ _ _ _ _ (check_1_passes vs ts w Hxor)).
    apply bind_raise.
    rewrite (bind_ok _ _ w w1 (next w)) by reflexivity.
    assert (Hts : load (QArray lt) w1 = (Ok (Array ts), w1)).
    { unfold load, deref, w1. simpl.
      assert (Nat.eqb lt (next w) = false) as -> by (apply Nat.eqb_neq; lia).
      reflexivity. }
    rewrite (bind_ok _ _ _ _ _ Hts). simpl contents.
    apply bind_raise. rewrite (select_none ts _ Hmask).
    now apply (thermal_speed_no_element particle "most_probable" m w1).
  - intros l Hl. unfold w1. simpl.
    assert (Nat.eqb l (next w) = false) as -> by (apply Nat.eqb_neq; lia).
    reflexivity.
  - reflexivity.
Qed.

End Formulary.

(** * Runs in the concrete environment *)

(** The docstring examples of the source, to the last digit. *)
Example thermal_speed_docstring :
  fst (thermal_speed SI.k_B SI.particle_mass SI.Particle SI.default_checks
         (Scalar 1e6%float) "p" "most_probable" nan SI.world0)
  = Ok (Scalar 128486.55193256242%float) /\
  fst (thermal_speed SI.k_B SI.particle_mass SI.Particle SI.default_checks
         (Scalar 1e6%float) "e-" "rms" nan SI.world0)
  = Ok (Scalar 6743070.4757754859%float) /\
  fst (thermal_speed SI.k_B SI.particle_mass SI.Particle SI.default_checks
         (Scalar 1e6%float) "e-" "mean_magnitude" nan SI.world0)
  = Ok (Scalar 6212510.3969422001%float).
Proof. repeat split; vm_compute; reflexivity. Qed.

Example gyrofrequency_docstring :
  fst (gyrofrequency SI.e SI.particle_mass SI.integer_charge SI.default_checks
         0.1%float "e-" false None false SI.world0)
  = Ok 17588200236.02124%float /\
  fst (gyrofrequency SI.e SI.particle_mass SI.integer_charge SI.default_checks
         0.1%float "e-" true None false SI.world0)
  = Ok (-17588200236.02124)%float.
Proof. repeat split; vm_compute; reflexivity. Qed.

Example gyroradius_docstring :
  fst (gyroradius SI.k_B SI.e SI.particle_mass SI.integer_charge SI.Particle
         SI.default_checks 0.2%float "p+" (QScalar nan) (QScalar 1e5%float) SI.world0)
  = Ok (Scalar 0.0021208749714114752%float).
Proof. vm_compute. reflexivity. Qed.

(** ** Plasma frequency (C2) *)



(** ** Gyroradius: exclusivity (C3) *)

Lemma gyroradius_exclusive_witness :
  (exists msg,
     gyroradius SI.k_B SI.e SI.particle_mass SI.integer_charge SI.Particle
       SI.default_checks 0.01%float "e-" (QScalar 1e6%float) (QScalar 1%float)
       SI.world0
     = (Raise (ValueError msg), SI.world0)) /\
  (exists msg,
     gyroradius SI.k_B SI.e SI.particle_mass SI.integer_charge SI.Particle
       SI.default_checks 0.01%float "e-" (QScalar nan) (QScalar nan) SI.world0
     = (Raise (ValueError msg), SI.world0)) /\
  xorb (is_finite nan) (is_finite 1e5%float) = true.
Proof.
  split; [|split].
  - apply (proj1 (gyroradius_exclusive SI.k_B SI.e SI.particle_mass SI.integer_charge
                    SI.Particle SI.default_checks 0.01%float "e-"
                    (QScalar 1e6%float) (QScalar 1%float) SI.world0));
      try reflexivity.
    exists 0, 1e6%float, 1%float. repeat split; reflexivity.
  - apply (proj1 (gyroradius_exclusive SI.k_B SI.e SI.particle_mass SI.integer_charge
                    SI.Particle SI.default_checks 0.01%float "e-"
                    (QScalar nan) (QScalar nan) SI.world0));
      try reflexivity.
    exists 0, nan, nan. repeat split; reflexivity.
  - eapply (proj2 (gyroradius_exclusive SI.k_B SI.e SI.particle_mass SI.integer_charge
                     SI.Particle SI.default_checks 0.2%float "p+"
                     (QScalar nan) (QScalar 1e5%float) SI.world0))
      with (i := 0).
    + vm_compute. reflexivity.
    + reflexivity.
    + reflexivity.
Defined.

(** ** Ion sound speed: dispersion (C4) *)

Lemma ion_sound_speed_dispersion_fallback_witness :
  ion_sound_speed SI.k_B SI.e SI.eps0 SI.particle_mass SI.integer_charge
    SI.default_checks 5e6%float 0%float (Some 5e19%float) (Some 0%float)
    (PyInt 1) (PyInt 3) "p" None SI.world0
  = ion_sound_speed SI.k_B SI.e SI.eps0 SI.particle_mass SI.integer_charge
      SI.default_checks 5e6%float 0%float None None
      (PyInt 1) (PyInt 3) "p" None SI.world0 /\
  fst (ion_sound_speed SI.k_B SI.e SI.eps0 SI.particle_mass SI.integer_charge
         SI.default_checks 5e6%float 0%float (Some 5e19%float) None
         (PyInt 1) (PyInt 3) "p" None SI.world0)
  = fst (ion_sound_speed SI.k_B SI.e SI.eps0 SI.particle_mass SI.integer_charge
           SI.default_checks 5e6%float 0%float None None
           (PyInt 1) (PyInt 3) "p" None SI.world0).
Proof.
  pose proof (ion_sound_speed_dispersion_fallback SI.k_B SI.e SI.eps0 SI.particle_mass
                SI.integer_charge SI.default_checks 5e6%float 0%float
                (PyInt 1) (PyInt 3) "p" None SI.world0) as [Hboth [Hone _]].
  split.
  - eapply Hboth.
    + reflexivity.
    + vm_compute. reflexivity.
    + vm_compute. reflexivity.
  - apply (Hone (Some 5e19%float) None 5e19%float).
    + left. split; reflexivity.
    + reflexivity.
Defined.

(** The claim as stated fails at [n_e = 0], which passes validation: the
    Debye length is then infinite and [klD2 = (0 * inf) ** 2] is NaN, not
    zero, so the call does not do what the neither-given call does. *)
Lemma ion_sound_speed_zero_density_differs :
  check_optional (with_none true (with_negative false SI.default_checks))
    (Some 0%float) SI.world0 = (Ok tt, SI.world0) /\
  ion_sound_speed SI.k_B SI.e SI.eps0 SI.particle_mass SI.integer_charge
    SI.default_checks 5e6%float 0%float (Some 0%float) (Some 0%float)
    (PyInt 1) (PyInt 3) "p" None SI.world0
  <> ion_sound_speed SI.k_B SI.e SI.eps0 SI.particle_mass SI.integer_charge
       SI.default_checks 5e6%float 0%float None None
       (PyInt 1) (PyInt 3) "p" None SI.world0.
Proof.
  split; [reflexivity|].
  intros H.
  apply (f_equal (fun r => match fst r with
                           | Ok (Scalar x) => is_nan x
                           | _ => false
                           end)) in H.
  vm_compute in H. discriminate H.
Qed.

(** ** Lower hybrid frequency (C5) *)

Lemma lower_hybrid_frequency_formula_witness :
  (exists omega_lh,
     lower_hybrid_frequency SI.e SI.eps0 SI.particle_mass SI.integer_charge SI.pow
       SI.default_checks 0.2%float 5e19%float "D+" false SI.world0
     = (Ok omega_lh, SI.world0)) /\
  lower_hybrid_frequency SI.e SI.eps0 SI.particle_mass SI.integer_charge SI.pow
    SI.default_checks 0.2%float 5e19%float "He-4" false SI.world0
  = (Raise (ValueError "Invalid ion in lower_hybrid_frequency."), SI.world0).
Proof.
  pose proof (lower_hybrid_frequency_formula SI.e SI.eps0 SI.particle_mass
                SI.integer_charge SI.pow SI.default_checks 0.2%float 5e19%float)
    as H.
  split.
  - eexists. eapply (proj1 (H "D+" SI.world0)) with (z := 1%Z).
    + reflexivity.
    + vm_compute. reflexivity.
    + vm_compute. reflexivity.
    + vm_compute. reflexivity.
    + vm_compute. reflexivity.
  - apply (proj2 (H "He-4" SI.world0) (InvalidParticleError "He-4")); reflexivity.
Defined.

(** ** Mass density (C6) *)

Lemma mass_density_cases_witness :
  mass_density SI.m_e SI.particle_mass SI.integer_charge SI.default_checks
    (mkDensity 3%float kg_per_m3) None None SI.world0
  = (Ok 3%float, SI.world0) /\
  mass_density SI.m_e SI.particle_mass SI.integer_charge SI.default_checks
    (mkDensity 1%float per_m3) (Some "p") (Some (PyFloat 0.5%float)) SI.world0
  = (Ok (1 * SI.m_p + 0.5 * 1 * SI.m_e)%float, SI.world0) /\
  mass_density SI.m_e SI.particle_mass SI.integer_charge SI.default_checks
    (mkDensity 1%float per_m3) (Some "p") (Some (PyInt (-2000))) SI.world0
  = (Raise NegativeValueError, SI.world0) /\
  mass_density SI.m_e SI.particle_mass SI.integer_charge SI.default_checks
    (mkDensity 1%float per_m3) None None SI.world0
  = (Raise (ValueError "If passing a number density, you must pass a particle (not None) to calculate the mass density!"),
     SI.world0) /\
  mass_density SI.m_e SI.particle_mass SI.integer_charge SI.default_checks
    (mkDensity 4%float per_m3) (Some "D+") None SI.world0
  = (Ok (4 * SI.m_deuteron + 1 * 4 * SI.m_e)%float, SI.world0).
Proof.
  pose proof (fun d p z =>
                mass_density_cases SI.m_e SI.particle_mass SI.integer_charge
                  SI.default_checks d p z SI.world0) as H.
  split; [|split; [|split; [|split]]].
  - apply (proj1 (H (mkDensity 3%float kg_per_m3) None None eq_refl)). reflexivity.
  - apply (proj1 (proj1 (proj2 (H (mkDensity 1%float per_m3) (Some "p")
                                  (Some (PyFloat 0.5%float)) eq_refl))
                    eq_refl "p" SI.m_p (PyFloat 0.5%float) 0.5%float
                    eq_refl ltac:(discriminate) eq_refl eq_refl eq_refl)).
    vm_compute. reflexivity.
  - apply (proj2 (proj1 (proj2 (H (mkDensity 1%float per_m3) (Some "p")
                                  (Some (PyInt (-2000))) eq_refl))
                    eq_refl "p" SI.m_p (PyInt (-2000)) (-2000)%float
                    eq_refl ltac:(discriminate) eq_refl eq_refl
                    ltac:(vm_compute; reflexivity))).
    vm_compute. reflexivity.
  - apply (proj1 (proj2 (proj2 (H (mkDensity 1%float per_m3) None None eq_refl)))).
    + reflexivity.
    + left. reflexivity.
  - apply (proj2 (proj2 (proj2 (H (mkDensity 4%float per_m3) (Some "D+") None eq_refl)))
             SI.m_deuteron); try reflexivity.
Defined.

(** The claim as stated fails for a charge override negative enough to make
    [rho] negative: the validation declared for the return value rejects
    it. *)
Lemma mass_density_negative_rho_rejected :
  check_value (with_negative false SI.default_checks) (Scalar 1%float) SI.world0
    = (Ok tt, SI.world0) /\
  (1 * SI.m_p + -2000 * 1 * SI.m_e <? 0)%float = true /\
  mass_density SI.m_e SI.particle_mass SI.integer_charge SI.default_checks
    (mkDensity 1%float per_m3) (Some "p") (Some (PyInt (-2000))) SI.world0
  = (Raise NegativeValueError, SI.world0) /\
  mass_density SI.m_e SI.particle_mass SI.integer_charge SI.default_checks
    (mkDensity 1%float per_m3) (Some "p") (Some (PyInt (-2000))) SI.world0
  <> (Ok (1 * SI.m_p + -2000 * 1 * SI.m_e)%float, SI.world0).
Proof.
  split; [reflexivity|]. split; [vm_compute; reflexivity|].
  assert (H : mass_density SI.m_e SI.particle_mass SI.integer_charge SI.default_checks
                (mkDensity 1%float per_m3) (Some "p") (Some (PyInt (-2000))) SI.world0
              = (Raise NegativeValueError, SI.world0)) by (vm_compute; reflexivity).
  split; [exact H|]. rewrite H. discriminate.
Qed.

(** ** The relativistic guard (C7) *)



(** ** Gyroradius on two arrays (C8) *)

Lemma gyroradius_arrays_no_temperature_witness :
  exists w' : world,
    gyroradius SI.k_B SI.e SI.particle_mass SI.integer_charge SI.Particle
      SI.default_checks 0.2%float "p+" (QArray 0) (QArray 1) SI.world_speeds_given
    = (Raise (ValueError ("zero-size array to reduction operation maximum "
                          ++ "which has no identity")), w') /\
    (forall l, l < 2 -> cells w' l = cells SI.world_speeds_given l) /\
    warned w' = [].
Proof.
  apply (gyroradius_arrays_no_temperature SI.k_B SI.e SI.particle_mass
           SI.integer_charge SI.Particle SI.default_checks 0.2%float "p+" 0 1
           SI.m_p SI.world_speeds_given).
  - simpl. lia.
  - simpl. lia.
  - reflexivity.
  - reflexivity.
  - reflexivity.
  - simpl. repeat constructor.
  - reflexivity.
  - reflexivity.
Defined.

Lemma gyroradius_arrays_copy_witness :
  exists (r_Li : list float) (w' : world),
    gyroradius SI.k_B SI.e SI.particle_mass SI.integer_charge SI.Particle
      SI.default_checks 0.01%float "e-" (QArray 0) (QArray 1) SI.world_two_arrays
    = (Ok (Array r_Li), w') /\
    (forall l, l < 2 -> cells w' l = cells SI.world_two_arrays l) /\
    cells w' 0 = [1e6%float; nan].
Proof.
  eexists.
  eapply (fun ws' m omega_ci sp H1 H2 H3 H4 H5 H6 H7 H8 H9 =>
            proj1 (gyroradius_arrays_copy SI.k_B SI.e SI.particle_mass
                     SI.integer_charge SI.Particle SI.default_checks 0.01%float "e-"
                     0 1 SI.world_two_arrays ws' m omega_ci sp
                     H1 H2 H3 H4 H5 H6 H7 H8 H9)).
  - simpl. lia.
  - simpl. lia.
  - reflexivity.
  - reflexivity.
  - simpl. repeat constructor.
  - reflexivity.
  - vm_compute. reflexivity.
  - vm_compute. reflexivity.
  - vm_compute. reflexivity.
Defined.

(** ** Thermal speed: the mass override (C9) *)

Lemma thermal_speed_mass_override_witness :
  thermal_speed SI.k_B SI.particle_mass SI.Particle SI.default_checks
    (Scalar 1e6%float) "p" "most_probable" infinity SI.world0
  = thermal_speed SI.k_B SI.particle_mass SI.Particle SI.default_checks
      (Scalar 1e6%float) "p" "most_probable" nan SI.world0 /\
  thermal_speed SI.k_B SI.particle_mass SI.Particle SI.default_checks
    (Scalar 1e6%float) "p" "most_probable" SI.m_e SI.world0
  = thermal_speed SI.k_B SI.particle_mass SI.Particle SI.default_checks
      (Scalar 1e6%float) "e-" "most_probable" nan SI.world0 /\
  thermal_speed SI.k_B SI.particle_mass SI.Particle SI.default_checks
    (Scalar 1e6%float) "p" "most_probable" (-1)%float SI.world0
  = (Raise NegativeValueError, SI.world0).
Proof.
  pose proof (fun p mass =>
                thermal_speed_mass_override SI.k_B SI.particle_mass SI.Particle
                  SI.default_checks (Scalar 1e6%float) p "most_probable" mass
                  SI.world0 eq_refl) as H.
  split; [|split].
  - rewrite (proj1 (proj2 (H "p" infinity eq_refl)) eq_refl eq_refl).
    rewrite (proj1 (proj2 (H "p" nan eq_refl)) eq_refl eq_refl).
    reflexivity.
  - rewrite (proj1 (proj2 (proj2 (H "p" SI.m_e eq_refl))) eq_refl eq_refl).
    rewrite (proj1 (proj2 (H "e-" nan eq_refl)) eq_refl eq_refl).
    reflexivity.
  - apply (proj2 (proj2 (proj2 (H "p" (-1)%float eq_refl)))). reflexivity.
Defined.

(** The claim as stated fails for a negative mass override: [-1 kg] is
    finite, yet the validator rejects it instead of letting it replace the
    resolved mass, and [-infinity] is non-finite, yet it is rejected too
    instead of falling back to the resolved mass. *)
Lemma thermal_speed_negative_mass_rejected :
  is_finite (-1)%float = true /\
  thermal_speed SI.k_B SI.particle_mass SI.Particle SI.default_checks
    (Scalar 1e6%float) "p" "most_probable" (-1)%float SI.world0
  = (Raise NegativeValueError, SI.world0) /\
  is_finite neg_infinity = false /\
  thermal_speed SI.k_B SI.particle_mass SI.Particle SI.default_checks
    (Scalar 1e6%float) "p" "most_probable" neg_infinity SI.world0
  = (Raise NegativeValueError, SI.world0) /\
  thermal_speed SI.k_B SI.particle_mass SI.Particle SI.default_checks
    (Scalar 1e6%float) "p" "most_probable" neg_infinity SI.world0
  <> thermal_speed SI.k_B SI.particle_mass SI.Particle SI.default_checks
       (Scalar 1e6%float) "p" "most_probable" nan SI.world0.
Proof.
  repeat split; try (vm_compute; reflexivity).
  intros H. vm_compute in H. discriminate H.
Qed.

(** ** Ion sound speed: the final step (C10) *)

Lemma ion_sound_speed_final_step_witness :
  ion_sound_speed SI.k_B SI.e SI.eps0 SI.particle_mass SI.integer_charge
    SI.default_checks 5e6%float 0%float None None (PyInt 1) (PyInt 3) "p"
    (Some (PyObj "abc")) SI.world0
  = (Raise (ValueError "Unable to find ion sound speed."), SI.world0) /\
  ion_sound_speed SI.k_B SI.e SI.eps0 SI.particle_mass SI.integer_charge
    SI.default_checks 5e6%float 0%float None None (PyInt 1) (PyInt (10 ^ 400)) "p"
    None SI.world0
  = (Raise (ValueError "Unable to find ion sound speed."), SI.world0) /\
  ion_sound_speed SI.k_B SI.e SI.eps0 SI.particle_mass SI.integer_charge
    SI.default_checks 5e6%float 0%float None None (PyInt 1) (PyInt 3) "p"
    (Some (PyFloat 1.5%float)) SI.world0
  = (Ok (Scalar (sqrt ((1 * 1.5 * SI.k_B * 5e6 + 3 * SI.k_B * 0)
                       / (SI.m_p * (1 + 0))))%float),
     SI.world0).
Proof.
  pose proof (fun gamma_i z_mean q =>
                ion_sound_speed_final_step SI.k_B SI.e SI.eps0 SI.particle_mass
                  SI.integer_charge SI.default_checks 5e6%float 0%float None None
                  (PyInt 1) gamma_i "p" z_mean SI.m_p q 0%float SI.world0 SI.world0
                  eq_refl eq_refl eq_refl eq_refl eq_refl) as H.
  split; [|split].
  - apply (proj1 (proj2 (H (PyInt 3) (Some (PyObj "abc")) (PyObj "abc")
                           eq_refl eq_refl eq_refl eq_refl eq_refl eq_refl))
             "abc" eq_refl).
  - apply (proj1 (proj2 (proj2 (H (PyInt (10 ^ 400)) None (PyInt 1)
                                  eq_refl eq_refl eq_refl eq_refl eq_refl eq_refl)))
             (10 ^ 400)%Z eq_refl).
    vm_compute. reflexivity.
  - assert (Ha : (Z2float 1 * 1.5)%float = (1 * 1.5)%float)
      by (vm_compute; reflexivity).
    assert (Hb : Z2float 3 = 3%float) by (vm_compute; reflexivity).
    rewrite <- Ha, <- Hb.
    apply (proj1 (proj2 (proj2 (proj2 (H (PyInt 3) (Some (PyFloat 1.5%float))
                                         (PyFloat 1.5%float)
                                         eq_refl eq_refl eq_refl eq_refl eq_refl
                                         eq_refl))))
             (PyFloat (Z2float 1 * 1.5)%float) (Z2float 1 * 1.5)%float (Z2float 3)).
    + vm_compute. reflexivity.
    + reflexivity.
    + vm_compute. reflexivity.
    + vm_compute. reflexivity.
    + vm_compute. reflexivity.
Defined.

(** * Witnesses of the further properties *)

Lemma gyrofrequency_unsigned_is_abs_signed_witness :
  exists s,
    gyrofrequency SI.e SI.particle_mass SI.integer_charge SI.default_checks
      0.01%float "e-" true None false SI.world0 = (Ok s, SI.world0) /\
    (s <? 0)%float = true /\
    gyrofrequency SI.e SI.particle_mass SI.integer_charge SI.default_checks
      0.01%float "e-" false None false SI.world0 = (Ok (abs s), SI.world0) /\
    (abs s <? 0)%float = false.
Proof.
  eassert (Hs : gyrofrequency SI.e SI.particle_mass SI.integer_charge
                  SI.default_checks 0.01%float "e-" true None false SI.world0
                = (Ok _, SI.world0)) by (vm_compute; reflexivity).
  eexists. split; [exact Hs|]. split; [vm_compute; reflexivity|].
  exact (gyrofrequency_unsigned_is_abs_signed SI.e SI.particle_mass SI.integer_charge
           SI.default_checks 0.01%float "e-" None false SI.m_e _ SI.world0
           eq_refl eq_refl eq_refl Hs eq_refl).
Defined.

Lemma field_direction_is_irrelevant_witness :
  gyrofrequency SI.e SI.particle_mass SI.integer_charge SI.default_checks
    (- (0.2))%float "p" true None false SI.world0
  = gyrofrequency SI.e SI.particle_mass SI.integer_charge SI.default_checks
      0.2%float "p" true None false SI.world0 /\
  gyroradius SI.k_B SI.e SI.particle_mass SI.integer_charge SI.Particle
    SI.default_checks (- (0.2))%float "p+" (QScalar nan) (QScalar 1e5%float) SI.world0
  = gyroradius SI.k_B SI.e SI.particle_mass SI.integer_charge SI.Particle
      SI.default_checks 0.2%float "p+" (QScalar nan) (QScalar 1e5%float) SI.world0.
Proof.
  pose proof (field_direction_is_irrelevant SI.k_B SI.e SI.eps0 SI.m_e SI.mu0
                SI.particle_mass SI.integer_charge SI.Particle SI.pow
                SI.default_checks 0.2%float SI.world0 eq_refl eq_refl) as H.
  split; apply H.
Defined.

Lemma plasma_frequency_never_negative_witness :
  exists omega,
    plasma_frequency SI.e SI.eps0 SI.particle_mass SI.integer_charge SI.default_checks
      1e19%float "e-" None false SI.world0 = (Ok omega, SI.world0) /\
    (omega <? 0)%float = false.
Proof.
  eassert (Hs : plasma_frequency SI.e SI.eps0 SI.particle_mass SI.integer_charge
                  SI.default_checks 1e19%float "e-" None false SI.world0
                = (Ok _, SI.world0)) by (vm_compute; reflexivity).
  eexists. split; [exact Hs|].
  apply (plasma_frequency_never_negative SI.e SI.eps0 SI.particle_mass
           SI.integer_charge SI.default_checks _ _ _ _ _ _ _ eq_refl) with (3 := Hs).
  - discriminate.
  - intros _. discriminate.
Defined.

Lemma plasma_frequency_charge_sign_irrelevant_witness :
  plasma_frequency SI.e SI.eps0 SI.particle_mass SI.integer_charge SI.default_checks
    1e19%float "p" (Some (PyInt (- (2)))) false SI.world0
  = plasma_frequency SI.e SI.eps0 SI.particle_mass SI.integer_charge SI.default_checks
      1e19%float "p" (Some (PyInt 2)) false SI.world0.
Proof.
  apply (proj2 (plasma_frequency_charge_sign_irrelevant SI.e SI.eps0 SI.particle_mass
                  SI.integer_charge SI.default_checks 1e19%float "p" false SI.world0)
           2%Z); discriminate.
Defined.

Lemma own_charge_override_is_default_witness :
  gyrofrequency SI.e SI.particle_mass SI.integer_charge SI.default_checks
    0.2%float "e-" true (Some (PyInt (-1))) false SI.world0
  = gyrofrequency SI.e SI.particle_mass SI.integer_charge SI.default_checks
      0.2%float "e-" true None false SI.world0.
Proof.
  apply (proj1 (own_charge_override_is_default SI.k_B SI.e SI.eps0 SI.m_e SI.mu0
                  SI.particle_mass SI.integer_charge SI.default_checks
                  "e-" (-1)%Z SI.world0 eq_refl)).
Defined.

Lemma Alfven_speed_through_mass_density_witness :
  exists rho,
    mass_density SI.m_e SI.particle_mass SI.integer_charge SI.default_checks
      (mkDensity 5e19%float per_m3) (Some "p") None SI.world0 = (Ok rho, SI.world0) /\
    Alfven_speed SI.m_e SI.mu0 SI.particle_mass SI.integer_charge SI.default_checks
      0.014%float (mkDensity 5e19%float per_m3) "p" None SI.world0
    = Alfven_speed SI.m_e SI.mu0 SI.particle_mass SI.integer_charge SI.default_checks
        0.014%float (mkDensity rho kg_per_m3) "p" None SI.world0.
Proof.
  eassert (Hs : mass_density SI.m_e SI.particle_mass SI.integer_charge
                  SI.default_checks (mkDensity 5e19%float per_m3) (Some "p") None
                  SI.world0 = (Ok _, SI.world0)) by (vm_compute; reflexivity).
  eexists. split; [exact Hs|].
  exact (Alfven_speed_through_mass_density SI.m_e SI.mu0 SI.particle_mass
           SI.integer_charge SI.default_checks 0.014%float _ "p" None _ _ _ Hs).
Defined.

Lemma Alfven_speed_mass_density_ignores_ion_witness :
  Alfven_speed SI.m_e SI.mu0 SI.particle_mass SI.integer_charge SI.default_checks
    0.014%float (mkDensity 8.4e-8%float kg_per_m3) "p" None SI.world0
  = Alfven_speed SI.m_e SI.mu0 SI.particle_mass SI.integer_charge SI.default_checks
      0.014%float (mkDensity 8.4e-8%float kg_per_m3) "no particle"
      (Some (PyObj "no number")) SI.world0.
Proof.
  apply Alfven_speed_mass_density_ignores_ion. reflexivity.
Defined.

Lemma magnetic_pressure_never_negative_witness :
  exists p,
    magnetic_pressure SI.mu0 SI.default_checks (- (0.1))%float SI.world0
    = (Ok p, SI.world0) /\
    (p <? 0)%float = false.
Proof.
  eassert (Hs : magnetic_pressure SI.mu0 SI.default_checks (- (0.1))%float SI.world0
                = (Ok _, SI.world0)) by (vm_compute; reflexivity).
  eexists. split; [exact Hs|].
  exact (magnetic_pressure_never_negative SI.mu0 SI.default_checks _ _ _ _ eq_refl Hs).
Defined.

Lemma thermal_pressure_never_negative_witness :
  exists p,
    thermal_pressure SI.k_B SI.default_checks 1e6%float 1e19%float SI.world0
    = (Ok p, SI.world0) /\
    (p <? 0)%float = false.
Proof.
  eassert (Hs : thermal_pressure SI.k_B SI.default_checks 1e6%float 1e19%float
                  SI.world0 = (Ok _, SI.world0)) by (vm_compute; reflexivity).
  eexists. split; [exact Hs|].
  exact (thermal_pressure_never_negative SI.k_B SI.default_checks _ _ _ _ _ eq_refl Hs).
Defined.

Lemma thermal_speed_unknown_method_witness :
  thermal_speed SI.k_B SI.particle_mass SI.Particle SI.default_checks
    (Scalar 1e6%float) "e-" "median" nan SI.world0
  = (Raise (ValueError "Method {method} not supported in thermal_speed"), SI.world0).
Proof.
  apply (proj1 (thermal_speed_unknown_method SI.k_B SI.particle_mass SI.Particle
                  SI.format_float SI.default_checks (Scalar 1e6%float) "e-" "median"
                  nan SI.world0 eq_refl eq_refl eq_refl
                  (or_intror (ex_intro _ SI.m_e eq_refl))
                  ltac:(discriminate) ltac:(discriminate) ltac:(discriminate))).
Defined.

Lemma kappa_thermal_speed_guard_witness :
  kappa_thermal_speed SI.k_B SI.particle_mass SI.Particle SI.format_float
    SI.default_checks (Scalar 1e6%float) 1%float "no particle" "no method" SI.world0
  = (Raise (ValueError ("Must have kappa > 3/2, instead of " ++ SI.format_float 1
                        ++ ", for kappa distribution function to be valid.")),
     SI.world0).
Proof.
  apply (proj2 (kappa_thermal_speed_guard SI.k_B SI.particle_mass SI.Particle
                  SI.format_float SI.default_checks (Scalar 1e6%float) 1%float
                  "no particle" "no method" SI.world0)); reflexivity.
Defined.

Lemma kappa_thermal_speed_other_methods_witness :
  fst (kappa_thermal_speed SI.k_B SI.particle_mass SI.Particle SI.format_float
         SI.default_checks (Scalar 1e8%float) 4%float "e-" "rms" SI.world0)
  = fst (thermal_speed SI.k_B SI.particle_mass SI.Particle SI.default_checks
           (Scalar 1e8%float) "e-" "rms" nan SI.world0) /\
  warned (snd (kappa_thermal_speed SI.k_B SI.particle_mass SI.Particle SI.format_float
                 SI.default_checks (Scalar 1e8%float) 4%float "e-" "rms" SI.world0))
  = [RelativityWarning; RelativityWarning].
Proof.
  eassert (Hts : thermal_speed SI.k_B SI.particle_mass SI.Particle SI.default_checks
                   (Scalar 1e8%float) "e-" "rms" nan SI.world0 = (Ok _, _))
    by (vm_compute; reflexivity).
  rewrite (kappa_thermal_speed_other_methods SI.k_B SI.particle_mass SI.Particle
             SI.format_float SI.default_checks (Scalar 1e8%float) 4%float "e-" "rms"
             _ SI.world0 _ ltac:(discriminate) eq_refl Hts).
  rewrite Hts. split; vm_compute; reflexivity.
Defined.

Lemma ion_sound_speed_gamma_domain_witness :
  ion_sound_speed SI.k_B SI.e SI.eps0 SI.particle_mass SI.integer_charge
    SI.default_checks 5e6%float 0%float (Some 5e15%float) None
    (PyFloat 0.5%float) (PyObj "three") "p" None SI.world0
  = (Raise (PhysicsError ("The adiabatic index for electrons"
                          ++ " must be between one and infinity")), SI.world0).
Proof.
  apply (ion_sound_speed_gamma_domain SI.k_B SI.e SI.eps0 SI.particle_mass
           SI.integer_charge SI.default_checks 5e6%float 0%float (Some 5e15%float)
           None (PyFloat 0.5%float) (PyObj "three") "p" None SI.m_p (PyInt 1)
           SI.world0 eq_refl eq_refl eq_refl eq_refl eq_refl eq_refl);
    reflexivity.
Defined.

Lemma gyroradius_shape_witness :
  exists rs,
    fst (gyroradius SI.k_B SI.e SI.particle_mass SI.integer_charge SI.Particle
           SI.default_checks 0.2%float "p+" (QScalar 1e6%float) (QArray 0)
           SI.world_nan_array)
    = Ok (Array rs) /\
    List.length rs = 3.
Proof.
  eassert (Hs : gyroradius SI.k_B SI.e SI.particle_mass SI.integer_charge SI.Particle
                  SI.default_checks 0.2%float "p+" (QScalar 1e6%float) (QArray 0)
                  SI.world_nan_array = (Ok _, _)) by (vm_compute; reflexivity).
  destruct (gyroradius_shape _ _ _ _ _ _ _ _ _ _ _ _ _ Hs) as (rs & Hr & Hl).
  exists rs. rewrite Hs. simpl. rewrite Hr. split; [reflexivity|exact Hl].
Defined.

Lemma gyroradius_never_negative_witness :
  exists r,
    gyroradius SI.k_B SI.e SI.particle_mass SI.integer_charge SI.Particle
      SI.default_checks (- (0.2))%float "e-" (QScalar (- (1e6))%float) (QScalar nan)
      SI.world0
    = (Ok (Scalar r), emit [ImplicitUnitConversionWarning] SI.world0) /\
    (r <? 0)%float = false.
Proof.
  eassert (Hs : gyroradius SI.k_B SI.e SI.particle_mass SI.integer_charge SI.Particle
                  SI.default_checks (- (0.2))%float "e-" (QScalar (- (1e6))%float)
                  (QScalar nan) SI.world0 = (Ok (Scalar _), _))
    by (vm_compute; reflexivity).
  eexists. split; [exact Hs|].
  exact (gyroradius_never_negative SI.k_B SI.e SI.particle_mass SI.integer_charge
           SI.Particle SI.default_checks _ "e-" _ _ SI.m_e _ _ _
           eq_refl eq_refl eq_refl Hs 0 _ eq_refl).
Defined.



Lemma square_root_results_never_negative_witness :
  exists lambda_D,
    Debye_length SI.k_B SI.e SI.eps0 SI.default_checks 5e6%float 5e15%float SI.world0
    = (Ok lambda_D, SI.world0) /\
    (lambda_D <? 0)%float = false.
Proof.
  eassert (Hs : Debye_length SI.k_B SI.e SI.eps0 SI.default_checks 5e6%float
                  5e15%float SI.world0 = (Ok _, SI.world0))
    by (vm_compute; reflexivity).
  eexists. split; [exact Hs|].
  exact (proj1 (proj2 (proj2 (proj2
           (square_root_results_never_negative SI.k_B SI.e SI.eps0 SI.particle_mass
              SI.integer_charge SI.Particle SI.format_float SI.default_checks))))
           _ _ _ _ _ Hs).
Defined.

Lemma particle_mass_error_propagates_witness :
  gyrofrequency SI.e SI.particle_mass SI.integer_charge SI.default_checks
    0.2%float "Xx" false None false SI.world0
  = (Raise (InvalidParticleError "Xx"), SI.world0) /\
  ion_sound_speed SI.k_B SI.e SI.eps0 SI.particle_mass SI.integer_charge
    SI.default_checks 5e6%float 0%float None None
    (PyObj "one") (PyInt 0) "Xx" None SI.world0
  = (Raise (InvalidParticleError "Xx"), SI.world0).
Proof.
  pose proof (particle_mass_error_propagates SI.k_B SI.e SI.eps0 SI.m_e SI.mu0
                SI.particle_mass SI.integer_charge SI.default_checks
                "Xx" (InvalidParticleError "Xx") SI.world0 eq_refl) as H.
  split.
  - apply (proj1 H). reflexivity.
  - apply (proj2 (proj2 (proj2 H))); reflexivity.
Defined.

Lemma mass_density_idempotent_witness :
  exists rho,
    mass_density SI.m_e SI.particle_mass SI.integer_charge SI.default_checks
      (mkDensity 4%float per_m3) (Some "D+") None SI.world0 = (Ok rho, SI.world0) /\
    mass_density SI.m_e SI.particle_mass SI.integer_charge SI.default_checks
      (mkDensity rho kg_per_m3) None None SI.world0 = (Ok rho, SI.world0).
Proof.
  eassert (Hs : mass_density SI.m_e SI.particle_mass SI.integer_charge
                  SI.default_checks (mkDensity 4%float per_m3) (Some "D+") None
                  SI.world0 = (Ok _, SI.world0)) by (vm_compute; reflexivity).
  eexists. split; [exact Hs|].
  exact (mass_density_idempotent _ _ _ _ _ _ None _ None _ _ _ Hs).
Defined.

Lemma frequency_in_hz_witness :
  exists omega,
    plasma_frequency SI.e SI.eps0 SI.particle_mass SI.integer_charge SI.default_checks
      1e19%float "e-" None false SI.world0 = (Ok omega, SI.world0) /\
    plasma_frequency SI.e SI.eps0 SI.particle_mass SI.integer_charge SI.default_checks
      1e19%float "e-" None true SI.world0 = (Ok (omega / (2 * pi))%float, SI.world0).
Proof.
  eassert (Hs : plasma_frequency SI.e SI.eps0 SI.particle_mass SI.integer_charge
                  SI.default_checks 1e19%float "e-" None false SI.world0
                = (Ok _, SI.world0)) by (vm_compute; reflexivity).
  eexists. split; [exact Hs|].
  exact (proj1 (proj2 (frequency_in_hz SI.e SI.eps0 SI.particle_mass SI.integer_charge
                         SI.pow SI.default_checks _ SI.world0 SI.world0 eq_refl))
           _ _ _ Hs).
Defined.

Lemma gyroradius_keeps_caller_arrays_witness :
  cells (snd (gyroradius SI.k_B SI.e SI.particle_mass SI.integer_charge SI.Particle
                SI.default_checks 0.2%float "p+" (QArray 0) (QArray 1)
                SI.world_two_arrays)) 0
  = [1e6%float; nan].
Proof.
  apply (proj2 (gyroradius_keeps_caller_arrays SI.k_B SI.e SI.particle_mass
                  SI.integer_charge SI.Particle SI.default_checks 0.2%float "p+"
                  (QArray 0) (QArray 1) _ SI.world_two_arrays _
                  (surjective_pairing _)) 0).
  repeat constructor.
Defined.

Lemma Alfven_speed_never_negative_witness :
  exists V_A,
    Alfven_speed SI.m_e SI.mu0 SI.particle_mass SI.integer_charge SI.default_checks
      (- (0.014))%float (mkDensity 5e19%float per_m3) "p" None SI.world0
    = (Ok (Scalar V_A), SI.world0) /\
    (V_A <? 0)%float = false.
Proof.
  eassert (Hs : Alfven_speed SI.m_e SI.mu0 SI.particle_mass SI.integer_charge
                  SI.default_checks (- (0.014))%float (mkDensity 5e19%float per_m3)
                  "p" None SI.world0 = (Ok (Scalar _), SI.world0))
    by (vm_compute; reflexivity).
  destruct (Alfven_speed_never_negative _ _ _ _ _ _ _ _ _ _ _ _ Hs)
    as (V_A & HV & Hn).
  injection HV as <-. eexists. split; [exact Hs|exact Hn].
Defined.
